(** * Partial-credit scoring of tool calls (tau-bench)

    A shallow embedding of the two scoring scripts of the repository:

    - [Repo]: [tau-bench-repo/partial_scoring.py]
      ([extract_tool_calls], [compare_values], [calculate_partial_score]);
    - [Improvements]: [improvements/partial_scoring.py]
      ([extract_tool_calls_from_trajectory], [normalize_args],
      [compare_arguments], [match_actions_to_tool_calls],
      [calculate_tool_call_reward]);
    - [RepoDriver] and [ImprovementsDriver]: the functions of the two
      scripts that run over a results file ([process_results_file],
      [print_statistics]; [process_file]), from the decoded content of the
      file.

    Conventions of the model.

    - A decoded JSON value is the inductive [value]; a Python [dict] is an
      association list in insertion order (the order is observable through
      [str] and through the order of the summation loops).
    - Scores are exact rationals ([Q]); the rounding of binary64 arithmetic
      is not modelled.  Every division of the scorers sits behind the
      source's own emptiness guard, which the model keeps; the divisions of
      [print_statistics] are unguarded, and the model raises where they do.
    - Of [print_statistics] the model keeps the figures that are printed,
      not their formatting, and not what is printed before an exception.
    - A Python [set] is a [gset]; its iteration order is the order of
      [elements], which is as unspecified as Python's.
    - The input records carry the fields the scripts read, typed as the
      scripts' annotations and the message format type them.  In
      particular the arguments text of a tool call decodes to a mapping or
      does not decode; a text that decodes to another value, which
      [normalize_args] would meet with an [AttributeError], is outside the
      model.
    - Inside a list or a mapping [==] tests the identity of two items
      before their equality.  Every not-a-number is the one object of the
      [json] decoder, so [py_eq] lets two not-a-number items pass.
    - [str] of a list or of a mapping is [python_repr], Python's display;
      the scripts take it as the parameter [py_repr], which the statements
      instantiate where the display matters. *)

From Stdlib Require Import ZArith QArith Lia Lqa String List Bool Ascii.
From Stdlib Require Import DecimalString DecimalZ.
From stdpp Require Import base list gmap sets strings.

Import ListNotations.
Local Open Scope Z_scope.

(** ** Decoded JSON values *)

(** A binary64 number is not-a-number, an infinity, or the dyadic rational
    [m * 2^e]. *)
Inductive pyfloat : Type :=
| FNan
| FInf (negative : bool)
| FFin (m e : Z).

Unset Elimination Schemes.
Inductive value : Type :=
| VNone
| VBool (b : bool)
| VInt (n : Z)
| VFloat (f : pyfloat)
| VStr (s : string)
| VList (l : list value)
| VDict (d : list (string * value)).
Set Elimination Schemes.

Abbreviation dict := (list (string * value)).

(** Python's [type(v)]. *)
Inductive pytype : Type :=
| TNoneType | TBool | TInt | TFloat | TStr | TList | TDict.

Definition type_of (v : value) : pytype :=
  match v with
  | VNone => TNoneType
  | VBool _ => TBool
  | VInt _ => TInt
  | VFloat _ => TFloat
  | VStr _ => TStr
  | VList _ => TList
  | VDict _ => TDict
  end.

Definition pytype_eqb (s t : pytype) : bool :=
  match s, t with
  | TNoneType, TNoneType | TBool, TBool | TInt, TInt | TFloat, TFloat
  | TStr, TStr | TList, TList | TDict, TDict => true
  | _, _ => false
  end.

(** [d.get(key)]: the value bound to [key], if any. *)
Fixpoint dict_get (key : string) (d : dict) : option value :=
  match d with
  | [] => None
  | (k, v) :: rest => if String.eqb key k then Some v else dict_get key rest
  end.

(** ** Python's [==] on decoded values *)

(** The numbers that [==] compares across [bool], [int] and [float]:
    a finite number is kept as mantissa and binary exponent. *)
Inductive number : Type :=
| NNan
| NInf (negative : bool)
| NFin (m e : Z).

Definition number_of (v : value) : option number :=
  match v with
  | VBool b => Some (NFin (if b then 1 else 0) 0)
  | VInt n => Some (NFin n 0)
  | VFloat FNan => Some NNan
  | VFloat (FInf s) => Some (NInf s)
  | VFloat (FFin m e) => Some (NFin m e)
  | _ => None
  end.

(** [m1 * 2^e1 = m2 * 2^e2], decided on a common exponent. *)
Definition dyadic_eqb (m1 e1 m2 e2 : Z) : bool :=
  let e := Z.min e1 e2 in
  (m1 * 2 ^ (e1 - e) =? m2 * 2 ^ (e2 - e)).

Definition number_eqb (x y : number) : bool :=
  match x, y with
  | NFin m1 e1, NFin m2 e2 => dyadic_eqb m1 e1 m2 e2
  | NInf s, NInf t => Bool.eqb s t
  | _, _ => false
  end.

(** A not-a-number. *)
Definition is_nan (v : value) : bool :=
  match v with
  | VFloat FNan => true
  | _ => false
  end.

(** [x == y].  Two items of a list, and two values of a mapping, are
    compared by [x is y or x == y].  The decoder of [json] returns one and
    the same object for every [NaN], and the values that the scripts
    compare all come from that decoder, so two not-a-number items are
    always identical and pass that test, although [==] itself fails on
    them; on other items identity decides nothing that [==] does not. *)
Fixpoint py_eq (x y : value) {struct x} : bool :=
  match x, y with
  | VNone, VNone => true
  | VStr s, VStr t => String.eqb s t
  | VList l, VList r =>
      (fix elementwise (l r : list value) {struct l} : bool :=
         match l, r with
         | [], [] => true
         | a :: l', b :: r' =>
             (is_nan a && is_nan b || py_eq a b) && elementwise l' r'
         | _, _ => false
         end) l r
  | VDict d, VDict c =>
      (length d =? length c)%nat &&
      (fix items (d : dict) {struct d} : bool :=
         match d with
         | [] => true
         | (k, v) :: d' =>
             match dict_get k c with
             | Some w => is_nan v && is_nan w || py_eq v w
             | None => false
             end && items d'
         end) d
  | _, _ =>
      match number_of x, number_of y with
      | Some a, Some b => number_eqb a b
      | _, _ => false
      end
  end.

(** [x is y or x == y], the test on the items of two containers. *)
Definition same_item (x y : value) : bool :=
  is_nan x && is_nan y || py_eq x y.

Local Open Scope Q_scope.

(** Python truthiness of a container: [not c] holds of the empty one. *)
Definition is_empty {A : Type} (c : list A) : bool :=
  match c with
  | [] => true
  | _ :: _ => false
  end.

(** [len(c)] as a rational, for the divisions below. *)
Definition len {A : Type} (c : list A) : Q := inject_Z (Z.of_nat (length c)).

(** Python's [max(a, b)]: the first argument unless the second is greater. *)
Definition py_max (a b : Q) : Q := if Qle_bool b a then a else b.

(** ** Trajectories, tool calls and expected actions *)

(** The [arguments] field of a tool-call record: the serialized text of a
    mapping, or a mapping that is already decoded. *)
Inductive arguments_field : Type :=
| ArgText (text : string)
| ArgMapping (d : dict).

(** The [function] entry of a tool-call record; [None] is an absent key. *)
Record function_record : Type := {
  fn_name : option string;
  fn_arguments : option arguments_field
}.

Record tool_call_record : Type := {
  tc_function : option function_record
}.

(** The [tool_calls] entry of a turn: absent, [None], or a list. *)
Inductive tool_calls_field : Type :=
| NoToolCalls
| NullToolCalls
| ToolCalls (calls : list tool_call_record).

Record turn : Type := {
  role : option string;
  tool_calls : tool_calls_field
}.

(** An extracted tool call, [{'name': ..., 'arguments': ...}]. *)
Record ToolInvocation : Type := {
  tool_name : string;
  arguments : dict
}.

(** A gold action, [{'name': ..., 'kwargs': ...}]. *)
Record ExpectedAction : Type := {
  name : string;
  kwargs : dict
}.

(** Exceptions of the Python run time that the scripts can meet. *)
Inductive exn : Type :=
| KeyError (key : string)
| TypeError
| JSONDecodeError.

Inductive result (A : Type) : Type :=
| Return (a : A)
| Raise (e : exn).
Arguments Return {A} a.
Arguments Raise {A} e.

Definition bind {A B : Type} (m : result A) (k : A -> result B) : result B :=
  match m with
  | Return a => k a
  | Raise e => Raise e
  end.

Notation "'let!' x ':=' m 'in' k" := (bind m (fun x => k))
  (at level 10, x name, m at level 100, k at level 200).

(** [d[key]] on a record field that may be absent. *)
Definition subscript {A : Type} (key : string) (field : option A) : result A :=
  match field with
  | Some a => Return a
  | None => Raise (KeyError key)
  end.

(** ** The tau-bench-repo script *)

Module Repo.

(** [compare_values(expected, actual)]. *)
Fixpoint compare_values (expected actual : value) {struct expected} : Q :=
  (* Exact match *)
  if py_eq expected actual then 1
  (* Type mismatch *)
  else if negb (pytype_eqb (type_of expected) (type_of actual)) then 0
  else
    match expected, actual with
    | VDict exp, VDict act =>
        if is_empty act then 0
        else if (length exp =? 0)%nat then 1
        else
          let matching_keys :=
            fold_left
              (fun matching_keys item =>
                 let '(key, exp_value) := item in
                 match dict_get key act with
                 | Some act_value =>
                     matching_keys + compare_values exp_value act_value
                 | None => matching_keys
                 end)
              exp 0 in
          matching_keys / len exp
    | VList exp, VList act =>
        if is_empty act then (if is_empty exp then 1 else 0)
        else if is_empty exp then 1
        else
          let matches :=
            fold_left
              (fun matches exp_item =>
                 let best_match :=
                   fold_left
                     (fun best_match act_item =>
                        py_max best_match (compare_values exp_item act_item))
                     act 0 in
                 matches + best_match)
              exp 0 in
          matches / len exp
    (* For other types, no partial credit *)
    | _, _ => 0
    end.

Section Extraction.

(** [json.loads] on the text of a tool call's arguments, which the message
    format makes a mapping: the decoded mapping, or [None] when decoding
    raises. *)
Variable json_loads : string -> option dict.

(** [json.loads(args_str)] under [try: ... except: arguments = {}]:
    a text that does not decode, and an argument that is no text at all
    (a [TypeError]), both give the empty mapping. *)
Definition decode_or_empty (args_str : arguments_field) : dict :=
  match args_str with
  | ArgText text =>
      match json_loads text with
      | Some arguments => arguments
      | None => []
      end
  | ArgMapping _ => []
  end.

(** The body of the inner loop: one tool-call record to one tool call. *)
Definition extract_call (call : tool_call_record) : ToolInvocation :=
  let func := default {| fn_name := None; fn_arguments := None |}
                      (tc_function call) in
  let name := default EmptyString (fn_name func) in
  let args_str := default (ArgText "{}") (fn_arguments func) in
  {| tool_name := name; arguments := decode_or_empty args_str |}.

(** [message.get('tool_calls')] when it is truthy. *)
Definition truthy_tool_calls (message : turn) : list tool_call_record :=
  match tool_calls message with
  | ToolCalls calls => calls
  | NoToolCalls | NullToolCalls => []
  end.

(** [extract_tool_calls(trajectory)]. *)
Definition extract_tool_calls (trajectory : list turn) : list ToolInvocation :=
  fold_left
    (fun tool_calls message =>
       fold_left
         (fun tool_calls call => tool_calls ++ [extract_call call])
         (truthy_tool_calls message) tool_calls)
    trajectory [].

End Extraction.

(** The score of one candidate call for one expected action. *)
Definition candidate_score (expected : ExpectedAction)
    (actual : ToolInvocation) : Q :=
  let exp_name := name expected in
  let exp_kwargs := kwargs expected in
  let act_name := tool_name actual in
  let act_args := arguments actual in
  let score := 0 in
  (* Tool name match (40%) *)
  if String.eqb exp_name act_name then
    let score := score + (4 # 10) in
    (* Arguments match (60%) *)
    let arg_similarity := compare_values (VDict exp_kwargs) (VDict act_args) in
    score + (6 # 10) * arg_similarity
  else score.

(** The inner loop: the best score of an expected action over all calls. *)
Definition best_score (expected : ExpectedAction)
    (actual_calls : list ToolInvocation) : Q :=
  fold_left
    (fun best_score actual => py_max best_score (candidate_score expected actual))
    actual_calls 0.

(** [calculate_partial_score(expected_actions, actual_calls)]. *)
Definition calculate_partial_score (expected_actions : list ExpectedAction)
    (actual_calls : list ToolInvocation) : Q :=
  if is_empty expected_actions then
    (* No actions expected, perfect if no calls made *)
    (if is_empty actual_calls then 1 else 0)
  else
    let total_score :=
      fold_left
        (fun total_score expected =>
           total_score + best_score expected actual_calls)
        expected_actions 0 in
    (* Average score across all expected actions *)
    total_score / len expected_actions.

End Repo.

(** ** The improvements script *)

Module Improvements.

(** One entry of the list that [match_actions_to_tool_calls] returns:
    [(gold_action, matched_tool_call, score)]. *)
Abbreviation match_tuple := (ExpectedAction * option ToolInvocation * Q)%type.

(** The three variables of the inner loop of [match_actions_to_tool_calls]:
    [(best_match, best_score, best_idx)]. *)
Abbreviation best := (option ToolInvocation * Q * Z)%type.

(** The [detailed_info] mapping of [calculate_tool_call_reward]. *)
Record detailed_info : Type := {
  gold_actions_info : list ExpectedAction;
  extracted_tool_calls : list ToolInvocation;
  matches_info : list match_tuple;
  tool_call_reward_info : Q;
  error : option string
}.

(** The three nested mappings that [calculate_tool_call_reward] reads. *)
Record reward_info_record : Type := {
  actions : option (list ExpectedAction)
}.

Record info_record : Type := {
  reward_info : option reward_info_record
}.

Record task : Type := {
  info : option info_record;
  traj : list turn
}.

Section Builtins.

(** [json.loads] on the text of a tool call's arguments: the decoded
    mapping, or [None] when decoding raises [JSONDecodeError].  The
    arguments of a tool call are a JSON object; a text that decodes to
    another value is outside the model. *)
Variable json_loads : string -> option dict.

(** Python's [repr] of a list or of a mapping. *)
Variable py_repr : value -> string.

(** [json.loads(x)]: a text is decoded, anything else is a [TypeError]. *)
Definition loads (x : arguments_field) : result dict :=
  match x with
  | ArgText text =>
      match json_loads text with
      | Some d => Return d
      | None => Raise JSONDecodeError
      end
  | ArgMapping _ => Raise TypeError
  end.

(** The dictionary display appended for one tool-call record. *)
Definition extract_call (tool_call : tool_call_record) : result ToolInvocation :=
  let! func := subscript "function" (tc_function tool_call) in
  let! name := subscript "name" (fn_name func) in
  let! func := subscript "function" (tc_function tool_call) in
  let! args := subscript "arguments" (fn_arguments func) in
  let! arguments := loads args in
  Return {| tool_name := name; arguments := arguments |}.

(** The inner [for] loop over the tool-call records of one entry. *)
Fixpoint extract_calls (calls : list tool_call_record)
    (collected : list ToolInvocation) : result (list ToolInvocation) :=
  match calls with
  | [] => Return collected
  | tool_call :: rest =>
      let! extracted := extract_call tool_call in
      extract_calls rest (collected ++ [extracted])
  end.

(** [entry.get("role") == "assistant"]. *)
Definition is_assistant (entry : turn) : bool :=
  match role entry with
  | Some r => String.eqb r "assistant"
  | None => false
  end.

(** The outer [for] loop, with the list built so far. *)
Fixpoint extract_entries (traj : list turn)
    (collected : list ToolInvocation) : result (list ToolInvocation) :=
  match traj with
  | [] => Return collected
  | entry :: rest =>
      match is_assistant entry, tool_calls entry with
      | true, ToolCalls calls =>
          let! collected := extract_calls calls collected in
          extract_entries rest collected
      | _, _ => extract_entries rest collected
      end
  end.

(** [extract_tool_calls_from_trajectory(traj)]. *)
Definition extract_tool_calls_from_trajectory (traj : list turn)
    : result (list ToolInvocation) :=
  extract_entries traj [].

(** [str(value)]: a string is its own text, a list or a mapping is shown
    by [repr]. *)
Definition py_str (v : value) : string :=
  match v with
  | VStr s => s
  | _ => py_repr v
  end.

(** The value that [normalize_args] stores for one argument. *)
Definition normalize_value (v : value) : value :=
  match v with
  | VNone => VNone
  | VBool b => VBool b
  | VInt n => VInt n
  | VFloat f => VFloat f
  | _ => VStr (py_str v)
  end.

(** [normalize_args(args)]. *)
Definition normalize_args (args : dict) : dict :=
  map (fun '(key, v) => (key, normalize_value v)) args.

(** [d.get(key)] with Python's default [None]. *)
Definition get_or_none (d : dict) (key : string) : value :=
  default VNone (dict_get key d).

(** [compare_arguments(expected_args, actual_args)]. *)
Definition compare_arguments (expected_args actual_args : dict) : Q :=
  if is_empty expected_args && is_empty actual_args then 1
  else
    (* Normalize arguments *)
    let expected_norm := normalize_args expected_args in
    let actual_norm := normalize_args actual_args in
    (* Get all keys from both dictionaries *)
    let all_keys : gset string :=
      list_to_set (map fst expected_norm) ∪ list_to_set (map fst actual_norm) in
    if decide (all_keys = ∅) then 1
    else
      let matches :=
        fold_left
          (fun matches key =>
             let expected_val := get_or_none expected_norm key in
             let actual_val := get_or_none actual_norm key in
             if py_eq expected_val actual_val then matches + 1 else matches)
          (elements all_keys) 0 in
      matches / inject_Z (Z.of_nat (size all_keys)).

(** [enumerate(tool_calls)], counting from [start]. *)
Fixpoint enumerate_from (start : Z) (tool_calls : list ToolInvocation)
    : list (Z * ToolInvocation) :=
  match tool_calls with
  | [] => []
  | tool_call :: rest => (start, tool_call) :: enumerate_from (start + 1) rest
  end.

(** The score of one tool call for one gold action. *)
Definition candidate_score (gold_action : ExpectedAction)
    (tool_call : ToolInvocation) : Q :=
  (* Calculate name match score *)
  let name_match :=
    if String.eqb (name gold_action) (tool_name tool_call) then 1 else 0 in
  (* Calculate argument match score *)
  let gold_args := kwargs gold_action in
  let tool_args := arguments tool_call in
  let args_match := compare_arguments gold_args tool_args in
  (* Calculate total score for this tool call *)
  (1 # 2) * name_match + (1 # 2) * args_match.

(** One iteration of the inner loop. *)
Definition scan_step (gold_action : ExpectedAction) (used_tool_calls : gset Z)
    (st : best) (item : Z * ToolInvocation) : best :=
  let '(best_match, best_score, best_idx) := st in
  let '(idx, tool_call) := item in
  if decide (idx ∈ used_tool_calls) then st
  else
    let score := candidate_score gold_action tool_call in
    (* Keep track of best match *)
    if negb (Qle_bool score best_score) then (Some tool_call, score, idx)
    else st.

(** The inner loop over the tool calls that are not yet used. *)
Definition scan (gold_action : ExpectedAction) (used_tool_calls : gset Z)
    (tool_calls : list ToolInvocation) : best :=
  fold_left (scan_step gold_action used_tool_calls)
            (enumerate_from 0 tool_calls) (None, 0, (-1)%Z).

(** One iteration of the outer loop, on [(matches, used_tool_calls)]. *)
Definition match_step (tool_calls : list ToolInvocation)
    (st : list match_tuple * gset Z) (gold_action : ExpectedAction)
    : list match_tuple * gset Z :=
  let '(matches, used_tool_calls) := st in
  let '(best_match, best_score, best_idx) :=
    scan gold_action used_tool_calls tool_calls in
  match best_match with
  | Some matched =>
      (matches ++ [(gold_action, Some matched, best_score)],
       used_tool_calls ∪ {[ best_idx ]})
  | None =>
      (* No match found for this gold action *)
      (matches ++ [(gold_action, None, 0)], used_tool_calls)
  end.

(** The outer loop from a given [(matches, used_tool_calls)]. *)
Definition match_loop (tool_calls : list ToolInvocation)
    (gold_actions : list ExpectedAction) (st : list match_tuple * gset Z)
    : list match_tuple * gset Z :=
  fold_left (match_step tool_calls) gold_actions st.

(** [match_actions_to_tool_calls(gold_actions, tool_calls)]. *)
Definition match_actions_to_tool_calls (gold_actions : list ExpectedAction)
    (tool_calls : list ToolInvocation) : list match_tuple :=
  fst (match_loop tool_calls gold_actions ([], ∅)).

(** [sum(scores)]. *)
Definition sum (scores : list Q) : Q := fold_left Qplus scores 0.

(** [task["info"]["reward_info"]["actions"]], [None] when one of the three
    [is None] tests of the guard succeeds. *)
Definition gold_actions_of (t : task) : option (list ExpectedAction) :=
  match info t with
  | None => None
  | Some i =>
      match reward_info i with
      | None => None
      | Some r => actions r
      end
  end.

(** [calculate_tool_call_reward(task)]. *)
Definition calculate_tool_call_reward (t : task) : result (Q * detailed_info) :=
  match gold_actions_of t with
  | None =>
      (* Return 0 reward if no gold actions available *)
      Return (0, {| gold_actions_info := [];
                    extracted_tool_calls := [];
                    matches_info := [];
                    tool_call_reward_info := 0;
                    error := Some "No reward_info or actions available" |})
  | Some gold_actions =>
      (* Extract tool calls from trajectory *)
      let! tool_calls := extract_tool_calls_from_trajectory (traj t) in
      (* Match actions to tool calls *)
      let matches := match_actions_to_tool_calls gold_actions tool_calls in
      (* Calculate average score *)
      let tool_call_reward :=
        if is_empty matches then 0
        else
          let scores := map snd matches in
          sum scores / len scores in
      Return (tool_call_reward,
              {| gold_actions_info := gold_actions;
                 extracted_tool_calls := tool_calls;
                 matches_info := matches;
                 tool_call_reward_info := tool_call_reward;
                 error := None |})
  end.

End Builtins.

End Improvements.

(** ** Reference definitions used by the statements *)

(** The sum of a list of rationals. *)
Definition sum_of (l : list Q) : Q := fold_right Qplus 0 l.

(** The arithmetic mean of a non-empty list of rationals. *)
Definition mean (l : list Q) : Q := sum_of l / len l.

(** What one key of the expected mapping adds to the mapping similarity,
    for a similarity [sim] on the values: nothing when the key is absent
    from the actual mapping, the similarity of the two values otherwise. *)
Definition key_contribution (sim : value -> value -> Q) (act : dict)
    (item : string * value) : Q :=
  match dict_get (fst item) act with
  | Some act_value => sim (snd item) act_value
  | None => 0
  end.

(** The reference definition of the similarity of two mappings. *)
Definition reference_mapping_similarity (sim : value -> value -> Q)
    (exp act : dict) : Q :=
  if is_empty exp then 1
  else sum_of (map (key_contribution sim act) exp) / len exp.

(** The values that [normalize_args] keeps as they are. *)
Definition is_plain (v : value) : bool :=
  match v with
  | VNone | VBool _ | VInt _ | VFloat _ => true
  | VStr _ | VList _ | VDict _ => false
  end.

(** The keys over which [compare_arguments] counts: those of either
    mapping. *)
Definition keys_of_both (expected_args actual_args : dict) : gset string :=
  list_to_set (map fst expected_args) ∪ list_to_set (map fst actual_args).

(** The credit of one key in [compare_arguments]: all or nothing, by the
    equality of the two normalized values. *)
Definition key_credit (py_repr : value -> string)
    (expected_args actual_args : dict) (key : string) : Q :=
  if py_eq
       (Improvements.get_or_none
          (Improvements.normalize_args py_repr expected_args) key)
       (Improvements.get_or_none
          (Improvements.normalize_args py_repr actual_args) key)
  then 1 else 0.

(** What holds of [(best_match, best_score, best_idx)] throughout the inner
    loop of [match_actions_to_tool_calls]: either nothing is selected yet,
    or the selection is an unused tool call, at its own index, with its own
    positive score. *)
Definition scan_invariant (py_repr : value -> string)
    (gold_action : ExpectedAction) (used_tool_calls : gset Z)
    (tool_calls : list ToolInvocation) (st : Improvements.best) : Prop :=
  let '(best_match, best_score, best_idx) := st in
  match best_match with
  | None => best_score = 0 /\ best_idx = (-1)%Z
  | Some matched =>
      (best_idx ∉ used_tool_calls) /\
      (0 <= best_idx)%Z /\
      (tool_calls !! Z.to_nat best_idx = Some matched) /\
      best_score = Improvements.candidate_score py_repr gold_action matched /\
      0 < best_score
  end.

(** A decoder for the examples: it decodes the text of the empty mapping
    and rejects every other text, as [json.loads] does on the texts the
    examples use. *)
Definition example_loads (text : string) : option dict :=
  if String.eqb text "{}" then Some [] else None.

(** A [repr] for the examples; none of them has a list or a mapping among
    its argument values, so none consults it. *)
Definition example_repr (v : value) : string := EmptyString.

(** ** Further definitions used by the statements *)

(** The keys of a list are pairwise distinct, as those of a [dict] are. *)
Fixpoint distinct (keys : list string) : bool :=
  match keys with
  | [] => true
  | key :: rest => negb (existsb (String.eqb key) rest) && distinct rest
  end.

(** Every mapping inside the value has distinct keys. *)
Fixpoint unique_keys (v : value) : bool :=
  match v with
  | VList l => forallb unique_keys l
  | VDict d =>
      distinct (map fst d) && forallb (fun item => unique_keys (snd item)) d
  | _ => true
  end.

(** The best similarity of one expected item over the actual items: the
    inner loop of the list comparison of [compare_values]. *)
Definition best_match_of (sim : value -> value -> Q) (act : list value)
    (exp_item : value) : Q :=
  fold_left (fun best_match act_item => py_max best_match (sim exp_item act_item))
            act 0.

(** The similarity of two sequences, case by case. *)
Definition sequence_similarity (sim : value -> value -> Q)
    (exp act : list value) : Q :=
  if is_empty exp then 1
  else if is_empty act then 0
  else sum_of (map (best_match_of sim act) exp) / len exp.

(** The tool-call records that [extract_tool_calls_from_trajectory] reads:
    those of the assistant turns with a list of tool calls. *)
Definition relevant_calls (traj : list turn) : list tool_call_record :=
  flat_map
    (fun entry =>
       match Improvements.is_assistant entry, tool_calls entry with
       | true, ToolCalls calls => calls
       | _, _ => []
       end)
    traj.

(** The number of gold actions that are bound to a tool call. *)
Definition matched_count (matches : list Improvements.match_tuple) : nat :=
  length (List.filter (fun entry : Improvements.match_tuple =>
                         match snd (fst entry) with
                         | Some _ => true
                         | None => false
                         end) matches).

(** What the inner loop of [match_actions_to_tool_calls] has established
    after the tool calls [seen]: no unused tool call among them scores more
    than [best_score], none before [best_idx] scores as much, and
    [best_idx] is among them. *)
Definition scan_optimal (py_repr : value -> string)
    (gold_action : ExpectedAction) (used_tool_calls : gset Z)
    (seen : list ToolInvocation) (st : Improvements.best) : Prop :=
  let '(_, best_score, best_idx) := st in
  0 <= best_score /\
  (best_idx < Z.of_nat (length seen))%Z /\
  (forall (j : nat) (x : ToolInvocation),
     seen !! j = Some x -> Z.of_nat j ∉ used_tool_calls ->
     Improvements.candidate_score py_repr gold_action x <= best_score) /\
  (forall (j : nat) (x : ToolInvocation),
     (Z.of_nat j < best_idx)%Z ->
     seen !! j = Some x -> Z.of_nat j ∉ used_tool_calls ->
     Improvements.candidate_score py_repr gold_action x < best_score).

(** ** Python's [str] of a list and of a mapping *)

(** [str] of a list or of a mapping is its display, in which every item is
    shown by [repr].  The characters of a string are those below 256; the
    display of a finite float, the shortest decimal that reads back as the
    same float, is left as the parameter [repr_finite]. *)

(** [repr(n)] of an integer: its decimal digits. *)
Definition repr_int (n : Z) : string := NilZero.string_of_int (Z.to_int n).

Definition hex_digit (n : N) : ascii :=
  match n with
  | 0%N => "0" | 1%N => "1" | 2%N => "2" | 3%N => "3" | 4%N => "4"
  | 5%N => "5" | 6%N => "6" | 7%N => "7" | 8%N => "8" | 9%N => "9"
  | 10%N => "a" | 11%N => "b" | 12%N => "c" | 13%N => "d" | 14%N => "e"
  | _ => "f"
  end%char.

(** The escape [\xhh] of a character. *)
Definition hex_escape (c : ascii) : string :=
  let n := N_of_ascii c in
  String "\" (String "x" (String (hex_digit (n / 16))
                            (String (hex_digit (n mod 16)) EmptyString))).

(** [c.isprintable()] for a character below 256. *)
Definition is_printable (c : ascii) : bool :=
  let n := N_of_ascii c in
  ((32 <=? n) && (n <? 127) || (161 <=? n) && negb (n =? 173))%N.

(** How [repr] shows one character of a string between the quotes
    [quote]. *)
Definition escape_char (quote c : ascii) : string :=
  if Ascii.eqb c quote || Ascii.eqb c "\" then String "\" (String c EmptyString)
  else if Ascii.eqb c "009" then String "\" "t"
  else if Ascii.eqb c "010" then String "\" "n"
  else if Ascii.eqb c "013" then String "\" "r"
  else if is_printable c then String c EmptyString
  else hex_escape c.

Definition has_char (c : ascii) (s : string) : bool :=
  existsb (Ascii.eqb c) (list_ascii_of_string s).

(** [repr(s)] of a string: between single quotes, or between double quotes
    when it has a single quote and no double quote. *)
Definition repr_str (s : string) : string :=
  let quote : ascii :=
    if has_char "'" s && negb (has_char "034" s) then "034"%char
    else "'"%char in
  String quote
    (String.concat EmptyString
       (map (escape_char quote) (list_ascii_of_string s))
     ++ String quote EmptyString)%string.

(** [repr(v)] of a decoded value. *)
Fixpoint python_repr (repr_finite : Z -> Z -> string) (v : value) : string :=
  match v with
  | VNone => "None"
  | VBool true => "True"
  | VBool false => "False"
  | VInt n => repr_int n
  | VFloat FNan => "nan"
  | VFloat (FInf false) => "inf"
  | VFloat (FInf true) => "-inf"
  | VFloat (FFin m e) => repr_finite m e
  | VStr s => repr_str s
  | VList l =>
      ("[" ++ String.concat ", " (map (python_repr repr_finite) l)
       ++ "]")%string
  | VDict d =>
      ("{"
       ++ String.concat ", "
            (map (fun item : string * value =>
                    repr_str (fst item) ++ ": "
                    ++ python_repr repr_finite (snd item)) d)
       ++ "}")%string
  end.

(** A display of finite floats for the examples, none of which has a
    float. *)
Definition example_repr_finite (m e : Z) : string := EmptyString.

(** A text has no comma. *)
Definition comma_free (s : string) : Prop :=
  ~ In ","%char (list_ascii_of_string s).

(** ** The drivers of the two scripts *)

(** A driver reads a results file with [json.load]; here it starts from the
    decoded content of the file, the list of its entries.  [None] in a
    field of an entry is an absent key. *)

(** [[f(x) for x in l]], which raises what the first failing [f(x)]
    raises. *)
Fixpoint comprehension {A B : Type} (f : A -> result B) (l : list A)
    : result (list B) :=
  match l with
  | [] => Return []
  | x :: rest =>
      let! y := f x in
      let! ys := comprehension f rest in
      Return (y :: ys)
  end.

(** [a < b] on scores. *)
Definition py_lt (a b : Q) : bool := negb (Qle_bool b a).

(** Python's [min(a, b)]: the first argument unless the second is smaller. *)
Definition py_min (a b : Q) : Q := if Qle_bool a b then a else b.

(** [sum(1 for s in scores if p(s))]. *)
Definition count_of (p : Q -> bool) (scores : list Q) : Z :=
  fold_left Z.add (map (fun _ => 1%Z) (List.filter p scores)) 0%Z.

Module RepoDriver.

Import Repo.

(** [task['info']['task']]. *)
Record task_record : Type := {
  actions : option (list ExpectedAction)
}.

(** [task['info']]: the [error] entry of a failed run, and the task. *)
Record info_record : Type := {
  error : option string;
  task : option task_record
}.

(** An entry of the results file. *)
Record result_entry : Type := {
  task_id : option Z;
  reward : option Q;
  info : option info_record;
  traj : option (list turn);
  partial_score : option Q
}.

(** [task['partial_score'] = score]. *)
Definition set_partial_score (t : result_entry) (score : Q) : result_entry :=
  {| task_id := task_id t;
     reward := reward t;
     info := info t;
     traj := traj t;
     partial_score := Some score |}.

(** ['error' in task.get('info', {})]. *)
Definition is_error_result (t : result_entry) : bool :=
  match info t with
  | Some i =>
      match error i with
      | Some _ => true
      | None => false
      end
  | None => false
  end.

(** [task['info']['task']['actions']]. *)
Definition expected_actions_of (t : result_entry)
    : result (list ExpectedAction) :=
  let! i := subscript "info" (info t) in
  let! tk := subscript "task" (task i) in
  subscript "actions" (actions tk).

Section Results.

Variable json_loads : string -> option dict.

(** The body of the loop of [process_results_file]: the entry with its
    partial score. *)
Definition process_task (t : result_entry) : result result_entry :=
  (* Check if this is an error result *)
  if is_error_result t then
    (* For error cases, set partial score to 0 *)
    Return (set_partial_score t 0)
  else
    (* Extract expected actions *)
    match expected_actions_of t with
    | Raise (KeyError _) =>
        (* If structure is unexpected, skip with score 0 *)
        Return (set_partial_score t 0)
    | Raise e => Raise e
    | Return expected =>
        (* Extract actual tool calls from trajectory *)
        let! trajectory := subscript "traj" (traj t) in
        let actual := extract_tool_calls json_loads trajectory in
        (* Calculate partial score *)
        let partial_score := calculate_partial_score expected actual in
        (* Add to result *)
        Return (set_partial_score t partial_score)
    end.

(** The loop of [process_results_file] from the entries enhanced so far. *)
Fixpoint process_tasks (results enhanced_results : list result_entry)
    : result (list result_entry) :=
  match results with
  | [] => Return enhanced_results
  | t :: rest =>
      let! enhanced := process_task t in
      process_tasks rest (enhanced_results ++ [enhanced])
  end.

(** [process_results_file(filepath)], from the content of the file. *)
Definition process_results_file (results : list result_entry)
    : result (list result_entry) :=
  process_tasks results [].

End Results.

(** The figures about a group of interesting cases: how many there are,
    and the task and the partial score of the first three. *)
Record case_report : Type := {
  case_count : nat;
  case_shown : list (Z * Q)
}.

(** The figures that [print_statistics] prints, before they are formatted;
    a group of interesting cases is printed only when it is not empty. *)
Record statistics : Type := {
  total_tasks : nat;
  binary_success : Z;
  binary_success_rate : Q;
  binary_average : Q;
  partial_average : Q;
  partial_min : Q;
  partial_max : Q;
  distribution : list (Q * Q * Z * Q);
  perfect : Z;
  perfect_rate : Q;
  high_partial_fails : option case_report;
  low_partial_success : option case_report
}.

(** How [print_statistics] ends: it has printed all its figures, or it has
    raised an exception on the way. *)
Inductive outcome : Type :=
| Prints (s : statistics)
| Raises (e : exn)
| RaisesZeroDivisionError.

(** The bins of the distribution. *)
Definition bins : list (Q * Q) :=
  [(0, 2 # 10); (2 # 10, 4 # 10); (4 # 10, 6 # 10); (6 # 10, 8 # 10);
   (8 # 10, 1)].

(** One line of the distribution: the bin, the number of scores in it and
    their percentage. *)
Definition bin_line (partial_scores : list Q) (bin : Q * Q)
    : Q * Q * Z * Q :=
  let '(low, high) := bin in
  let count :=
    count_of (fun s => Qle_bool low s && py_lt s high) partial_scores in
  let pct := inject_Z count / len partial_scores * 100 in
  (low, high, count, pct).

(** The report on a group of interesting cases, each with its reward and
    its partial score. *)
Definition report_cases (cases : list (result_entry * (Q * Q)))
    : result (option case_report) :=
  if is_empty cases then Return None
  else
    let! shown :=
      comprehension
        (fun case : result_entry * (Q * Q) =>
           let! id := subscript "task_id" (task_id (fst case)) in
           Return (id, snd (snd case)))
        (firstn 3 cases) in
    Return (Some {| case_count := length cases; case_shown := shown |}).

(** [print_statistics(results)]. *)
Definition print_statistics (results : list result_entry) : outcome :=
  match comprehension (fun r => subscript "reward" (reward r)) results with
  | Raise e => Raises e
  | Return binary_scores =>
  match
    comprehension (fun r => subscript "partial_score" (partial_score r))
      results
  with
  | Raise e => Raises e
  | Return partial_scores =>
  match partial_scores with
  | [] =>
      (* binary_success/len(results) *)
      RaisesZeroDivisionError
  | first :: others =>
      (* Binary statistics *)
      let binary_success := count_of (fun s => py_lt (9 # 10) s) binary_scores in
      (* Perfect scores *)
      let perfect := count_of (fun s => Qle_bool 1 s) partial_scores in
      (* Find interesting cases *)
      let scored := combine results (combine binary_scores partial_scores) in
      (* Binary fail but high partial *)
      let high_partial_fails :=
        List.filter
          (fun case : result_entry * (Q * Q) =>
             py_lt (fst (snd case)) (1 # 10) && py_lt (7 # 10) (snd (snd case)))
          scored in
      (* Binary success but low partial *)
      let low_partial_success :=
        List.filter
          (fun case : result_entry * (Q * Q) =>
             py_lt (9 # 10) (fst (snd case)) && py_lt (snd (snd case)) (8 # 10))
          scored in
      match report_cases high_partial_fails with
      | Raise e => Raises e
      | Return high_report =>
      match report_cases low_partial_success with
      | Raise e => Raises e
      | Return low_report =>
          Prints
            {| total_tasks := length results;
               binary_success := binary_success;
               binary_success_rate :=
                 inject_Z binary_success / len results * 100;
               binary_average :=
                 Improvements.sum binary_scores / len binary_scores;
               partial_average :=
                 Improvements.sum partial_scores / len partial_scores;
               partial_min := fold_left py_min others first;
               partial_max := fold_left py_max others first;
               distribution := map (bin_line partial_scores) bins;
               perfect := perfect;
               perfect_rate := inject_Z perfect / len partial_scores * 100;
               high_partial_fails := high_report;
               low_partial_success := low_report |}
      end
      end
  end
  end
  end.

End RepoDriver.

Module ImprovementsDriver.

Import Improvements.

(** An entry of the results file: the keys [task_id] and [reward] beside
    those that [calculate_tool_call_reward] reads. *)
Record task_entry : Type := {
  task_id : option Z;
  reward : option Q;
  scored_fields : task
}.

(** The [result] mapping of one task; [detailed] is its [detailed_info]
    entry, there in verbose mode only. *)
Record task_result : Type := {
  result_task_id : Z;
  original_reward : Q;
  tool_call_reward : Q;
  partial_reward : Q;
  detailed : option detailed_info
}.

(** The [summary] mapping. *)
Record summary : Type := {
  file : string;
  num_tasks : Z;
  avg_original_reward : Q;
  avg_tool_call_reward : Q;
  avg_partial_reward : Q;
  tasks : list task_result
}.

(** The state of the loop: the results and the three totals. *)
Abbreviation totals := (list task_result * Q * Q * Q)%type.

Section File.

Variable json_loads : string -> option dict.
Variable py_repr : value -> string.

(** The body of the loop of [process_file]. *)
Definition process_task (verbose : bool) (st : totals) (t : task_entry)
    : result totals :=
  let '(results, total_original_reward, total_tool_call_reward,
        total_partial_reward) := st in
  let! task_id := subscript "task_id" (task_id t) in
  let! original_reward := subscript "reward" (reward t) in
  (* Calculate tool call reward *)
  let! rewarded :=
    calculate_tool_call_reward json_loads py_repr (scored_fields t) in
  let '(tool_call_reward, detailed_info) := rewarded in
  (* Calculate partial reward *)
  let partial_reward :=
    (1 # 2) * original_reward + (1 # 2) * tool_call_reward in
  let result :=
    {| result_task_id := task_id;
       original_reward := original_reward;
       tool_call_reward := tool_call_reward;
       partial_reward := partial_reward;
       detailed := if verbose then Some detailed_info else None |} in
  (* Update totals *)
  Return (results ++ [result],
          total_original_reward + original_reward,
          total_tool_call_reward + tool_call_reward,
          total_partial_reward + partial_reward).

(** The loop of [process_file] from a given state. *)
Fixpoint process_tasks (verbose : bool) (data : list task_entry) (st : totals)
    : result totals :=
  match data with
  | [] => Return st
  | t :: rest =>
      let! st := process_task verbose st t in
      process_tasks verbose rest st
  end.

(** [process_file(file_path, verbose)], from the content of the file. *)
Definition process_file (file_path : string) (data : list task_entry)
    (verbose : bool) : result summary :=
  let! st := process_tasks verbose data ([], 0, 0, 0) in
  let '(results, total_original_reward, total_tool_call_reward,
        total_partial_reward) := st in
  (* Calculate averages *)
  let num_tasks := Z.of_nat (length results) in
  Return
    {| file := file_path;
       num_tasks := num_tasks;
       avg_original_reward :=
         if (0 <? num_tasks)%Z then total_original_reward / inject_Z num_tasks
         else 0;
       avg_tool_call_reward :=
         if (0 <? num_tasks)%Z then
           total_tool_call_reward / inject_Z num_tasks
         else 0;
       avg_partial_reward :=
         if (0 <? num_tasks)%Z then total_partial_reward / inject_Z num_tasks
         else 0;
       tasks := results |}.

End File.

End ImprovementsDriver.

(** An entry that [process_results_file] cannot score: it is no error
    result, it has expected actions, and it has no trajectory. *)
Definition lacks_trajectory (t : RepoDriver.result_entry) : Prop :=
  RepoDriver.is_error_result t = false /\
  (exists expected, RepoDriver.expected_actions_of t = Return expected) /\
  RepoDriver.traj t = None.

(** A results file of two entries: a run that failed with an error, and a
    run with one expected action and the tool call for it. *)
Definition example_results : list RepoDriver.result_entry :=
  [{| RepoDriver.task_id := Some 0%Z;
      RepoDriver.reward := Some 0;
      RepoDriver.info :=
        Some {| RepoDriver.error := Some "timeout";
                RepoDriver.task := None |};
      RepoDriver.traj := None;
      RepoDriver.partial_score := None |};
   {| RepoDriver.task_id := Some 1%Z;
      RepoDriver.reward := Some 1;
      RepoDriver.info :=
        Some {| RepoDriver.error := None;
                RepoDriver.task :=
                  Some {| RepoDriver.actions :=
                            Some [{| name := "get_user";
                                     kwargs := [] |}] |} |};
      RepoDriver.traj :=
        Some [{| role := Some "assistant";
                 tool_calls :=
                   ToolCalls
                     [{| tc_function :=
                           Some {| fn_name := Some "get_user";
                                   fn_arguments := Some (ArgText "{}") |}
                      |}] |}];
      RepoDriver.partial_score := None |}].

(** The result that [process_file] builds for one entry of the file: the
    task id and the reward of the entry, the tool-call reward of the entry
    with its details in verbose mode only, and the partial reward out of
    the two rewards. *)
Definition is_result_of (json_loads : string -> option dict)
    (py_repr : value -> string) (verbose : bool)
    (t : ImprovementsDriver.task_entry) (r : ImprovementsDriver.task_result)
    : Prop :=
  ImprovementsDriver.task_id t = Some (ImprovementsDriver.result_task_id r) /\
  ImprovementsDriver.reward t = Some (ImprovementsDriver.original_reward r) /\
  (exists details,
     Improvements.calculate_tool_call_reward json_loads py_repr
       (ImprovementsDriver.scored_fields t)
     = Return (ImprovementsDriver.tool_call_reward r, details) /\
     ImprovementsDriver.detailed r
     = if verbose then Some details else None) /\
  ImprovementsDriver.partial_reward r
  = (1 # 2) * ImprovementsDriver.original_reward r
    + (1 # 2) * ImprovementsDriver.tool_call_reward r.

(** An entry that [process_file] can score: it has a task id and a reward,
    and its tool-call reward can be calculated. *)
Definition can_be_scored (json_loads : string -> option dict)
    (py_repr : value -> string) (t : ImprovementsDriver.task_entry) : Prop :=
  ImprovementsDriver.task_id t <> None /\
  ImprovementsDriver.reward t <> None /\
  exists rewarded,
    Improvements.calculate_tool_call_reward json_loads py_repr
      (ImprovementsDriver.scored_fields t)
    = Return rewarded.

(** A results file of two entries for the improvements script: a task
    whose gold action is called, and a task without reward info. *)
Definition example_data : list ImprovementsDriver.task_entry :=
  [{| ImprovementsDriver.task_id := Some 0%Z;
      ImprovementsDriver.reward := Some 1;
      ImprovementsDriver.scored_fields :=
        {| Improvements.info :=
             Some {| Improvements.reward_info :=
                       Some {| Improvements.actions :=
                                 Some [{| name := "get_user";
                                          kwargs := [] |}] |} |};
           Improvements.traj :=
             [{| role := Some "assistant";
                 tool_calls :=
                   ToolCalls
                     [{| tc_function :=
                           Some {| fn_name := Some "get_user";
                                   fn_arguments := Some (ArgText "{}") |}
                      |}] |}] |} |};
   {| ImprovementsDriver.task_id := Some 1%Z;
      ImprovementsDriver.reward := Some 0;
      ImprovementsDriver.scored_fields :=
        {| Improvements.info := None; Improvements.traj := [] |} |}].

(** * Properties *)

(** ** Induction on decoded values *)

Section ValueInduction.

Variable P : value -> Prop.
Hypothesis HNone : P VNone.
Hypothesis HBool : forall b, P (VBool b).
Hypothesis HInt : forall n, P (VInt n).
Hypothesis HFloat : forall f, P (VFloat f).
Hypothesis HStr : forall s, P (VStr s).
Hypothesis HList : forall l, Forall P l -> P (VList l).
Hypothesis HDict : forall d, Forall (fun item => P (snd item)) d -> P (VDict d).

Fixpoint value_ind (v : value) : P v :=
  match v with
  | VNone => HNone
  | VBool b => HBool b
  | VInt n => HInt n
  | VFloat f => HFloat f
  | VStr s => HStr s
  | VList l =>
      HList l
        ((fix all (l : list value) : Forall P l :=
            match l with
            | [] => List.Forall_nil P
            | x :: l' => List.Forall_cons P x l' (value_ind x) (all l')
            end) l)
  | VDict d =>
      HDict d
        ((fix all (d : dict) : Forall (fun item => P (snd item)) d :=
            match d with
            | [] => List.Forall_nil _
            | item :: d' =>
                List.Forall_cons (fun item => P (snd item)) item d'
                  (value_ind (snd item)) (all d')
            end) d)
  end.

End ValueInduction.

(** ** Rational arithmetic of the scores *)

Lemma len_nonneg {A : Type} (c : list A) : 0 <= len c.
Proof.
  unfold len, Qle; simpl. lia.
Qed.

Lemma len_cons {A : Type} (x : A) (c : list A) : len (x :: c) == len c + 1.
Proof.
  unfold len. simpl length.
  rewrite Nat2Z.inj_succ. unfold Z.succ. rewrite inject_Z_plus. reflexivity.
Qed.

Lemma len_pos {A : Type} (c : list A) : is_empty c = false -> 0 < len c.
Proof.
  destruct c as [|x c]; [discriminate|]. intros _.
  rewrite len_cons. pose proof (len_nonneg c). lra.
Qed.

Lemma py_max_case (a b : Q) :
  (b <= a /\ py_max a b = a) \/ (a < b /\ py_max a b = b).
Proof.
  unfold py_max. destruct (Qle_bool b a) eqn:E.
  - left. split; [now apply Qle_bool_iff|reflexivity].
  - right. split; [|reflexivity].
    apply Qnot_le_lt. intros H. apply Qle_bool_iff in H. congruence.
Qed.

Lemma py_max_zero (a : Q) : 0 <= a -> py_max a 0 = a.
Proof.
  intros H. destruct (py_max_case a 0) as [[_ E]|[L _]]; [exact E|lra].
Qed.

(** A ratio of a part to a positive whole is a proportion. *)
Lemma proportion_bounds (part whole : Q) :
  0 < whole -> 0 <= part <= whole -> 0 <= part / whole <= 1.
Proof.
  intros Hw [H0 H1]. split.
  - apply Qle_shift_div_l; [exact Hw|lra].
  - apply Qle_shift_div_r; [exact Hw|lra].
Qed.

Lemma whole_over_itself (whole : Q) : 0 < whole -> whole / whole == 1.
Proof.
  intros H. field. lra.
Qed.

(** ** Accumulating loops *)

Section Loops.

Context {A : Type}.

(** A loop that adds [g x] for each [x] computes the sum of the [g x]. *)
Lemma fold_left_sum_of (step : Q -> A -> Q) (g : A -> Q) (l : list A) :
  (forall acc x, In x l -> step acc x == acc + g x) ->
  forall start, fold_left step l start == start + sum_of (map g l).
Proof.
  induction l as [|x l IH]; intros Hstep start; simpl.
  - lra.
  - rewrite IH by (intros; apply Hstep; now right).
    rewrite (Hstep start x) by now left. lra.
Qed.

Lemma sum_of_bounds (g : A -> Q) (l : list A) :
  (forall x, In x l -> 0 <= g x <= 1) ->
  0 <= sum_of (map g l) <= len l.
Proof.
  induction l as [|x l IH]; intros H.
  - split; [apply Qle_refl|apply len_nonneg].
  - simpl map. simpl sum_of. rewrite len_cons.
    pose proof (H x (or_introl eq_refl)).
    assert (0 <= sum_of (map g l) <= len l)
      by (apply IH; intros; apply H; now right).
    lra.
Qed.

Lemma sum_of_all_ones (g : A -> Q) (l : list A) :
  (forall x, In x l -> g x == 1) -> sum_of (map g l) == len l.
Proof.
  induction l as [|x l IH]; intros H.
  - reflexivity.
  - simpl map. simpl sum_of. rewrite len_cons.
    rewrite (H x) by now left. rewrite IH by (intros; apply H; now right).
    lra.
Qed.

Lemma sum_of_all_zeros (g : A -> Q) (l : list A) :
  (forall x, In x l -> g x == 0) -> sum_of (map g l) == 0.
Proof.
  induction l as [|x l IH]; intros H.
  - reflexivity.
  - simpl map. simpl sum_of.
    rewrite (H x) by now left. rewrite IH by (intros; apply H; now right).
    lra.
Qed.

(** A loop that keeps the maximum stays between its start and any bound
    on the start and on the candidates. *)
Lemma fold_left_py_max_bounds (g : A -> Q) (l : list A) (hi : Q) :
  (forall x, In x l -> g x <= hi) ->
  forall start, start <= hi ->
  start <= fold_left (fun best x => py_max best (g x)) l start <= hi.
Proof.
  induction l as [|x l IH]; intros Hg start Hs; simpl.
  - lra.
  - pose proof (Hg x (or_introl eq_refl)) as Hx.
    destruct (py_max_case start (g x)) as [[L E]|[L E]]; rewrite E.
    + apply IH; [intros; apply Hg; now right|exact Hs].
    + assert (g x <= fold_left (fun best y => py_max best (g y)) l (g x) <= hi)
        by (apply IH; [intros; apply Hg; now right|exact Hx]).
      lra.
Qed.

End Loops.

Section SumOf.

Context {A : Type}.

Lemma sum_of_le (g h : A -> Q) (l : list A) :
  (forall x, In x l -> g x <= h x) ->
  sum_of (map g l) <= sum_of (map h l).
Proof.
  induction l as [|x l IH]; intros H; cbn [map sum_of fold_right]; [lra|].
  pose proof (H x (or_introl eq_refl)).
  assert (sum_of (map g l) <= sum_of (map h l))
    by (apply IH; intros; apply H; now right).
  unfold sum_of in *. lra.
Qed.

Lemma sum_of_ext (g h : A -> Q) (l : list A) :
  (forall x, In x l -> g x == h x) ->
  sum_of (map g l) == sum_of (map h l).
Proof.
  intros H. apply Qle_antisym; apply sum_of_le; intros x Hx;
    pose proof (H x Hx); lra.
Qed.

Lemma sum_of_app (l r : list Q) : sum_of (l ++ r) == sum_of l + sum_of r.
Proof.
  unfold sum_of. induction l as [|x l IH]; simpl; [lra|].
  rewrite IH. lra.
Qed.

Lemma sum_of_permutation (l r : list Q) :
  Permutation l r -> sum_of l == sum_of r.
Proof.
  unfold sum_of.
  induction 1 as [|x l r _ IH|x y l|l m r _ IH1 _ IH2]; simpl; lra.
Qed.

End SumOf.

(** ** The recursive similarity of the tau-bench-repo script *)

Section CompareValues.

Import Repo.

(** The first test of [compare_values]: equal values score 1. *)
Lemma compare_values_equal (e a : value) :
  py_eq e a = true -> compare_values e a = 1.
Proof.
  intros H. destruct e; cbn [compare_values]; rewrite H; reflexivity.
Qed.

(** Equal mappings bind every key of the left one to the same item. *)
Lemma py_eq_dict_items (d c : dict) :
  py_eq (VDict d) (VDict c) = true ->
  forall item, In item d ->
  exists w, dict_get (fst item) c = Some w /\ same_item (snd item) w = true.
Proof.
  cbn [py_eq]. intros H. apply andb_prop in H as [_ H].
  induction d as [|[k v] d IH]; intros item Hin; [destruct Hin|].
  apply andb_prop in H as [Hkv H].
  destruct Hin as [<-|Hin]; [|now apply IH].
  simpl. destruct (dict_get k c) as [w|]; [|discriminate].
  now exists w.
Qed.

(** The same item, unless it is a not-a-number, is an equal value. *)
Lemma same_item_equal (x y : value) :
  is_nan x = false -> same_item x y = true -> py_eq x y = true.
Proof.
  unfold same_item. now intros ->.
Qed.

(** The loop over [expected.items()] adds up the key contributions. *)
Lemma dict_loop_sum (act exp : dict) (start : Q) :
  fold_left
    (fun matching_keys item =>
       let '(key, exp_value) := item in
       match dict_get key act with
       | Some act_value => matching_keys + compare_values exp_value act_value
       | None => matching_keys
       end) exp start
  == start + sum_of (map (key_contribution compare_values act) exp).
Proof.
  apply fold_left_sum_of. intros acc [key exp_value] _.
  unfold key_contribution; simpl.
  destruct (dict_get key act); lra.
Qed.

(** On two mappings that are not equal [compare_values] is the reference
    definition: the early returns after the first agree with it. *)
Lemma compare_values_mapping_unequal (exp act : dict) :
  py_eq (VDict exp) (VDict act) = false ->
  compare_values (VDict exp) (VDict act)
  == reference_mapping_similarity compare_values exp act.
Proof.
  intros Heq. unfold reference_mapping_similarity. cbn [compare_values].
  rewrite Heq. cbn [type_of pytype_eqb negb].
  destruct act as [|binding act]; cbn [is_empty].
  - destruct exp as [|item exp]; [discriminate Heq|]. cbn [is_empty].
    rewrite sum_of_all_zeros; [unfold Qdiv; lra|].
    intros x _. reflexivity.
  - destruct exp as [|item exp]; [reflexivity|].
    cbn [length Nat.eqb is_empty].
    rewrite dict_loop_sum.
    apply Qmult_comp; [lra|reflexivity].
Qed.

(** On two mappings [compare_values] is 1 when they are equal and the
    reference definition otherwise. *)
Lemma compare_values_mapping_cases (exp act : dict) :
  compare_values (VDict exp) (VDict act)
  == if py_eq (VDict exp) (VDict act) then 1
     else reference_mapping_similarity compare_values exp act.
Proof.
  destruct (py_eq (VDict exp) (VDict act)) eqn:Heq.
  - now rewrite (compare_values_equal _ _ Heq).
  - now apply compare_values_mapping_unequal.
Qed.

(** When no expected value is a not-a-number, the first early return
    agrees with the reference definition too. *)
Lemma compare_values_mapping (exp act : dict) :
  (forall item, In item exp -> is_nan (snd item) = false) ->
  compare_values (VDict exp) (VDict act)
  == reference_mapping_similarity compare_values exp act.
Proof.
  intros Hnan. rewrite compare_values_mapping_cases.
  destruct (py_eq (VDict exp) (VDict act)) eqn:Heq; [|reflexivity].
  unfold reference_mapping_similarity.
  destruct exp as [|item exp]; [reflexivity|]. cbn [is_empty].
  rewrite sum_of_all_ones.
  - symmetry. apply whole_over_itself. now apply len_pos.
  - intros x Hx. destruct (py_eq_dict_items _ _ Heq x Hx) as (w & Hw & E).
    unfold key_contribution. rewrite Hw.
    apply same_item_equal in E; [|now apply Hnan].
    now rewrite (compare_values_equal _ _ E).
Qed.

(** The reference definition looks the actual mapping up at expected keys
    only. *)
Lemma reference_mapping_similarity_ext (sim : value -> value -> Q)
    (exp act act' : dict) :
  (forall key, In key (map fst exp) -> dict_get key act' = dict_get key act) ->
  reference_mapping_similarity sim exp act'
  = reference_mapping_similarity sim exp act.
Proof.
  intros H. unfold reference_mapping_similarity.
  destruct (is_empty exp); [reflexivity|].
  f_equal. f_equal. apply map_ext_in. intros item Hin.
  unfold key_contribution. rewrite H; [reflexivity|].
  now apply in_map.
Qed.

(** The loops over two sequences: best match of each expected item. *)
Lemma list_loop_sum (act exp : list value) (start : Q) :
  fold_left
    (fun matches exp_item =>
       matches +
       fold_left
         (fun best_match act_item =>
            py_max best_match (compare_values exp_item act_item)) act 0)
    exp start
  == start +
     sum_of
       (map (fun exp_item =>
               fold_left
                 (fun best_match act_item =>
                    py_max best_match (compare_values exp_item act_item))
                 act 0) exp).
Proof.
  apply fold_left_sum_of. intros; reflexivity.
Qed.

(** [compare_values] returns a proportion. *)
Lemma compare_values_bounds (e : value) :
  forall a, 0 <= compare_values e a <= 1.
Proof.
  induction e as [| b | n | f | s | l IH | d IH] using value_ind; intros a;
    try (cbn [compare_values];
         destruct (py_eq _ a); [lra|];
         destruct (negb _); lra).
  - (* sequences *)
    cbn [compare_values]. destruct (py_eq _ a); [lra|].
    destruct (negb _); [lra|].
    destruct a as [| | | | | act |]; try lra.
    destruct (is_empty act); [destruct (is_empty l); lra|].
    destruct (is_empty l) eqn:Hl; [lra|].
    rewrite list_loop_sum. rewrite Qplus_0_l.
    apply proportion_bounds; [now apply len_pos|].
    apply sum_of_bounds. intros x Hx.
    rewrite List.Forall_forall in IH.
    apply (fold_left_py_max_bounds (compare_values x) act 1); [|lra].
    intros y _. apply IH. exact Hx.
  - (* mappings *)
    destruct a as [| | | | | | act];
      try (cbn [compare_values];
           destruct (py_eq _ _); [lra|];
           cbn [type_of pytype_eqb negb]; lra).
    rewrite compare_values_mapping_cases.
    destruct (py_eq (VDict d) (VDict act)); [lra|].
    unfold reference_mapping_similarity.
    destruct (is_empty d) eqn:Hd; [lra|].
    apply proportion_bounds; [now apply len_pos|].
    apply sum_of_bounds. intros item Hin.
    rewrite List.Forall_forall in IH.
    unfold key_contribution. destruct (dict_get _ act); [|lra].
    apply IH. exact Hin.
Qed.

End CompareValues.

(** ** The scorer of the tau-bench-repo script *)

Section PartialScore.

Import Repo.

Lemma candidate_score_bounds (expected : ExpectedAction)
    (actual : ToolInvocation) :
  0 <= candidate_score expected actual <= 1.
Proof.
  unfold candidate_score.
  destruct (String.eqb _ _); [|lra].
  pose proof (compare_values_bounds (VDict (kwargs expected))
                (VDict (arguments actual))).
  lra.
Qed.

(** A call under another name scores nothing, whatever its arguments. *)
Lemma candidate_score_wrong_name (expected : ExpectedAction)
    (actual : ToolInvocation) :
  name expected <> tool_name actual -> candidate_score expected actual = 0.
Proof.
  intros H. unfold candidate_score.
  destruct (String.eqb_spec (name expected) (tool_name actual)) as [E|_];
    [contradiction|reflexivity].
Qed.

Lemma best_score_from_bounds (expected : ExpectedAction)
    (actual_calls : list ToolInvocation) (start : Q) :
  start <= 1 ->
  start <=
  fold_left
    (fun best_score actual => py_max best_score (candidate_score expected actual))
    actual_calls start <= 1.
Proof.
  intros H.
  apply (fold_left_py_max_bounds (candidate_score expected) actual_calls 1);
    [|exact H].
  intros x _. apply candidate_score_bounds.
Qed.

Lemma best_score_bounds (expected : ExpectedAction)
    (actual_calls : list ToolInvocation) :
  0 <= best_score expected actual_calls <= 1.
Proof.
  unfold best_score. apply best_score_from_bounds. lra.
Qed.

(** A call that scores 0 leaves the running maximum as it is. *)
Lemma best_score_skips_zero (expected : ExpectedAction)
    (before after : list ToolInvocation) (actual : ToolInvocation) :
  candidate_score expected actual = 0 ->
  best_score expected (before ++ actual :: after)
  = best_score expected (before ++ after).
Proof.
  intros H. unfold best_score. rewrite !fold_left_app. cbn [fold_left].
  rewrite H. rewrite py_max_zero; [reflexivity|].
  apply (best_score_from_bounds expected before 0). lra.
Qed.

(** The outer loop adds up the best scores. *)
Lemma total_score_sum (expected_actions : list ExpectedAction)
    (actual_calls : list ToolInvocation) (start : Q) :
  fold_left
    (fun total_score expected => total_score + best_score expected actual_calls)
    expected_actions start
  == start +
     sum_of (map (fun expected => best_score expected actual_calls)
                 expected_actions).
Proof.
  apply fold_left_sum_of. intros; reflexivity.
Qed.

Lemma calculate_partial_score_mean (expected : ExpectedAction)
    (rest : list ExpectedAction) (actual_calls : list ToolInvocation) :
  calculate_partial_score (expected :: rest) actual_calls
  == mean (map (fun e => best_score e actual_calls) (expected :: rest)).
Proof.
  unfold calculate_partial_score, mean. cbn [is_empty].
  rewrite total_score_sum, Qplus_0_l.
  unfold len. rewrite length_map. reflexivity.
Qed.

Lemma calculate_partial_score_bounds (expected_actions : list ExpectedAction)
    (actual_calls : list ToolInvocation) :
  0 <= calculate_partial_score expected_actions actual_calls <= 1.
Proof.
  destruct expected_actions as [|expected rest].
  - unfold calculate_partial_score. cbn [is_empty].
    destruct (is_empty actual_calls); lra.
  - rewrite calculate_partial_score_mean. unfold mean.
    set (scores := map _ _).
    assert (Hlen : len scores == len (expected :: rest))
      by (unfold scores, len; now rewrite length_map).
    rewrite Hlen.
    apply proportion_bounds; [now apply len_pos|].
    unfold scores. apply sum_of_bounds. intros e _. apply best_score_bounds.
Qed.

End PartialScore.

(** ** The argument comparison of the improvements script *)

Section CompareArguments.

Import Improvements.

Variable py_repr : value -> string.

Lemma normalize_args_keys (args : dict) :
  map fst (normalize_args py_repr args) = map fst args.
Proof.
  unfold normalize_args. rewrite map_map. apply map_ext.
  intros [key v]. reflexivity.
Qed.

Lemma normalize_value_plain (v : value) :
  normalize_value py_repr v = if is_plain v then v else VStr (py_str py_repr v).
Proof.
  destruct v; reflexivity.
Qed.

(** The normalized mapping binds a key to the normalized value. *)
Lemma normalize_args_get (args : dict) (key : string) :
  dict_get key (normalize_args py_repr args)
  = option_map (normalize_value py_repr) (dict_get key args).
Proof.
  induction args as [|[k v] args IH]; [reflexivity|].
  simpl. destruct (String.eqb key k); [reflexivity|exact IH].
Qed.

(** The counting loop adds up the credits of the keys. *)
Lemma matches_loop_sum (expected_args actual_args : dict)
    (keys : list string) (start : Q) :
  fold_left
    (fun matches key =>
       let expected_val :=
         get_or_none (normalize_args py_repr expected_args) key in
       let actual_val :=
         get_or_none (normalize_args py_repr actual_args) key in
       if py_eq expected_val actual_val then matches + 1 else matches)
    keys start
  == start + sum_of (map (key_credit py_repr expected_args actual_args) keys).
Proof.
  apply fold_left_sum_of. intros acc key _. unfold key_credit.
  destruct (py_eq _ _); lra.
Qed.

Lemma key_credit_bounds (expected_args actual_args : dict) (key : string) :
  0 <= key_credit py_repr expected_args actual_args key <= 1.
Proof.
  unfold key_credit. destruct (py_eq _ _); lra.
Qed.

(** [compare_arguments] as credits per key over the keys of both
    mappings. *)
Lemma compare_arguments_credits (expected_args actual_args : dict) :
  compare_arguments py_repr expected_args actual_args
  == if is_empty expected_args && is_empty actual_args then 1
     else
       sum_of (map (key_credit py_repr expected_args actual_args)
                   (elements (keys_of_both expected_args actual_args)))
       / len (elements (keys_of_both expected_args actual_args)).
Proof.
  unfold compare_arguments.
  destruct (is_empty expected_args && is_empty actual_args) eqn:Hempty;
    [reflexivity|].
  rewrite !normalize_args_keys. fold (keys_of_both expected_args actual_args).
  destruct (decide (keys_of_both expected_args actual_args = ∅)) as [E|_].
  - exfalso. unfold keys_of_both in E.
    destruct expected_args as [|[k v] ?]; [|set_solver].
    destruct actual_args as [|[k v] ?]; [discriminate|set_solver].
  - rewrite matches_loop_sum, Qplus_0_l. reflexivity.
Qed.

Lemma keys_of_both_nonempty (expected_args actual_args : dict) :
  is_empty expected_args && is_empty actual_args = false ->
  is_empty (elements (keys_of_both expected_args actual_args)) = false.
Proof.
  intros H.
  destruct (elements (keys_of_both expected_args actual_args)) eqn:E;
    [|reflexivity].
  apply elements_empty_inv in E. apply leibniz_equiv in E.
  unfold keys_of_both in E.
  destruct expected_args as [|[k v] ?]; [|set_solver].
  destruct actual_args as [|[k v] ?]; [discriminate|set_solver].
Qed.

Lemma compare_arguments_bounds (expected_args actual_args : dict) :
  0 <= compare_arguments py_repr expected_args actual_args <= 1.
Proof.
  rewrite compare_arguments_credits.
  destruct (is_empty expected_args && is_empty actual_args) eqn:Hempty;
    [lra|].
  apply proportion_bounds.
  - apply len_pos. now apply keys_of_both_nonempty.
  - apply sum_of_bounds. intros key _. apply key_credit_bounds.
Qed.

Lemma dict_get_app (key : string) (d c : dict) :
  dict_get key (d ++ c)
  = match dict_get key d with
    | Some v => Some v
    | None => dict_get key c
    end.
Proof.
  induction d as [|[k v] d IH]; [reflexivity|].
  cbn [app dict_get]. destruct (String.eqb key k); [reflexivity|exact IH].
Qed.

Lemma dict_get_absent (key : string) (d : dict) :
  ~ In key (map fst d) -> dict_get key d = None.
Proof.
  induction d as [|[k v] d IH]; intros Hkey; [reflexivity|].
  cbn [dict_get]. destruct (String.eqb_spec key k) as [->|_].
  - exfalso. apply Hkey. now left.
  - apply IH. intros Hin. apply Hkey. now right.
Qed.

(** A key that neither mapping has, added to the actual mapping, is one
    more key to count: a match when its value is null, a mismatch when it
    is not. *)
Lemma compare_arguments_extra_key (expected_args actual_args : dict)
    (key : string) (v : value) :
  ~ In key (map fst expected_args) ->
  ~ In key (map fst actual_args) ->
  compare_arguments py_repr expected_args (actual_args ++ [(key, v)])
  * (len (elements (keys_of_both expected_args actual_args)) + 1)
  == compare_arguments py_repr expected_args actual_args
     * len (elements (keys_of_both expected_args actual_args))
     + match v with VNone => 1 | _ => 0 end.
Proof.
  intros Hexpected Hactual.
  set (keys := keys_of_both expected_args actual_args).
  assert (Hfresh : key ∉ keys).
  { unfold keys, keys_of_both. rewrite elem_of_union, !elem_of_list_to_set.
    rewrite !list_elem_of_In. tauto. }
  assert (Hkeys : keys_of_both expected_args (actual_args ++ [(key, v)])
                  = {[ key ]} ∪ keys).
  { unfold keys, keys_of_both. rewrite map_app, list_to_set_app_L. cbn.
    apply set_eq. intros k. set_unfold. tauto. }
  pose proof (elements_union_singleton keys key Hfresh) as Hperm.
  assert (Hold : forall k, In k (elements keys) ->
                   key_credit py_repr expected_args
                     (actual_args ++ [(key, v)]) k
                   = key_credit py_repr expected_args actual_args k).
  { intros k Hk. unfold key_credit, get_or_none.
    rewrite !normalize_args_get, dict_get_app.
    destruct (dict_get k actual_args) as [w|] eqn:Hw; [reflexivity|].
    cbn [dict_get]. destruct (String.eqb_spec k key) as [->|_]; [|reflexivity].
    exfalso. apply Hfresh. apply elem_of_elements. now apply list_elem_of_In. }
  assert (Hnew : key_credit py_repr expected_args
                   (actual_args ++ [(key, v)]) key
                 = match v with VNone => 1 | _ => 0 end).
  { unfold key_credit, get_or_none.
    rewrite !normalize_args_get, dict_get_app.
    rewrite (dict_get_absent key expected_args Hexpected).
    rewrite (dict_get_absent key actual_args Hactual).
    cbn [dict_get]. rewrite String.eqb_refl. now destruct v. }
  assert (Hsum : sum_of (map (key_credit py_repr expected_args
                                (actual_args ++ [(key, v)]))
                             (elements ({[ key ]} ∪ keys)))
                 == match v with VNone => 1 | _ => 0 end
                    + sum_of (map (key_credit py_repr expected_args actual_args)
                                  (elements keys))).
  { rewrite (sum_of_permutation _ _ (Permutation_map _ Hperm)).
    cbn [map]. rewrite Hnew. unfold sum_of at 1. cbn [fold_right].
    apply Qplus_comp; [reflexivity|].
    apply sum_of_ext. intros k Hk. now rewrite Hold. }
  assert (Hlen : len (elements ({[ key ]} ∪ keys)) == len (elements keys) + 1).
  { unfold len. rewrite (Permutation_length Hperm). cbn [length].
    rewrite Nat2Z.inj_succ. unfold Z.succ. now rewrite inject_Z_plus. }
  rewrite !compare_arguments_credits, Hkeys.
  replace (is_empty expected_args && is_empty (actual_args ++ [(key, v)]))
    with false by (destruct actual_args; now rewrite andb_false_r).
  rewrite Hsum. fold keys.
  pose proof (len_nonneg (elements keys)) as Hnonneg.
  destruct (is_empty expected_args && is_empty actual_args) eqn:Hempty.
  - assert (Hnone : elements keys = []).
    { apply andb_prop in Hempty as [He Ha].
      destruct expected_args; [|discriminate He].
      destruct actual_args; [|discriminate Ha]. reflexivity. }
    rewrite Hlen, Hnone. unfold sum_of, len. cbn. field.
  - assert (Hpos : 0 < len (elements keys))
      by (apply len_pos; now apply keys_of_both_nonempty).
    rewrite Hlen. field. lra.
Qed.

End CompareArguments.

(** ** The greedy matcher of the improvements script *)

Section Matcher.

Import Improvements.

Variable py_repr : value -> string.

Lemma improvements_candidate_score_bounds (gold_action : ExpectedAction)
    (tool_call : ToolInvocation) :
  0 <= candidate_score py_repr gold_action tool_call <= 1.
Proof.
  unfold candidate_score.
  pose proof (compare_arguments_bounds py_repr (kwargs gold_action)
                (arguments tool_call)).
  destruct (String.eqb _ _); lra.
Qed.

(** Under another name a tool call keeps half of its argument score. *)
Lemma improvements_candidate_score_wrong_name (gold_action : ExpectedAction)
    (tool_call : ToolInvocation) :
  name gold_action <> tool_name tool_call ->
  candidate_score py_repr gold_action tool_call
  == (1 # 2) * compare_arguments py_repr (kwargs gold_action)
                 (arguments tool_call).
Proof.
  intros H. unfold candidate_score.
  destruct (String.eqb_spec (name gold_action) (tool_name tool_call)) as [E|_];
    [contradiction|lra].
Qed.

Lemma enumerate_from_app (start : Z) (l r : list ToolInvocation) :
  enumerate_from start (l ++ r)
  = enumerate_from start l ++ enumerate_from (start + Z.of_nat (length l)) r.
Proof.
  revert start. induction l as [|x l IH]; intros start.
  - simpl. now rewrite Z.add_0_r.
  - simpl app. simpl enumerate_from. rewrite IH. simpl length.
    do 3 f_equal. lia.
Qed.

Lemma enumerate_from_In (start idx : Z) (x : ToolInvocation)
    (l : list ToolInvocation) :
  In (idx, x) (enumerate_from start l) -> In x l.
Proof.
  revert start. induction l as [|y l IH]; intros start; simpl; [tauto|].
  intros [E|H]; [left; congruence|right; eauto].
Qed.

(** The inner loop keeps its invariant. *)
Lemma scan_from_invariant (gold_action : ExpectedAction)
    (used_tool_calls : gset Z) (tool_calls : list ToolInvocation) :
  forall (later earlier : list ToolInvocation) (st : best),
  tool_calls = earlier ++ later ->
  scan_invariant py_repr gold_action used_tool_calls tool_calls st ->
  scan_invariant py_repr gold_action used_tool_calls tool_calls
    (fold_left (scan_step py_repr gold_action used_tool_calls)
               (enumerate_from (Z.of_nat (length earlier)) later) st).
Proof.
  induction later as [|x rest IH]; intros earlier st Hfull Hinv; [exact Hinv|].
  cbn [enumerate_from fold_left].
  replace (Z.of_nat (length earlier) + 1)%Z
    with (Z.of_nat (length (earlier ++ [x])))
    by (rewrite length_app; simpl; lia).
  apply IH; [now rewrite <- app_assoc|].
  destruct st as [[best_match best_score] best_idx]. unfold scan_step.
  destruct (decide (Z.of_nat (length earlier) ∈ used_tool_calls)) as [|Hfree];
    [exact Hinv|].
  destruct (negb (Qle_bool _ best_score)) eqn:Hgt; [|exact Hinv].
  apply negb_true_iff in Hgt.
  assert (Hlt : best_score < candidate_score py_repr gold_action x).
  { apply Qnot_le_lt. intros H. apply Qle_bool_iff in H. congruence. }
  assert (Hnonneg : 0 <= best_score).
  { unfold scan_invariant in Hinv. destruct best_match.
    - destruct Hinv as (_ & _ & _ & _ & H). lra.
    - destruct Hinv as [-> _]. lra. }
  unfold scan_invariant. repeat split; try assumption; try lia; try lra.
  rewrite Nat2Z.id, Hfull. apply list_lookup_middle. reflexivity.
Qed.

Lemma scan_invariant_holds (gold_action : ExpectedAction)
    (used_tool_calls : gset Z) (tool_calls : list ToolInvocation) :
  scan_invariant py_repr gold_action used_tool_calls tool_calls
    (scan py_repr gold_action used_tool_calls tool_calls).
Proof.
  unfold scan.
  apply (scan_from_invariant gold_action used_tool_calls tool_calls
           tool_calls [] (None, 0, (-1)%Z)); [reflexivity|].
  split; reflexivity.
Qed.

(** A tool call that is used, or that scores 0, is passed over. *)
Lemma scan_passes_over (gold_action : ExpectedAction)
    (used_tool_calls : gset Z) (items : list (Z * ToolInvocation))
    (best_match : option ToolInvocation) (best_score : Q) (best_idx : Z) :
  0 <= best_score ->
  (forall idx x, In (idx, x) items ->
     idx ∈ used_tool_calls \/ candidate_score py_repr gold_action x == 0) ->
  fold_left (scan_step py_repr gold_action used_tool_calls) items
            (best_match, best_score, best_idx)
  = (best_match, best_score, best_idx).
Proof.
  intros Hs. induction items as [|[idx x] items IH]; intros H; [reflexivity|].
  assert (Hstep : scan_step py_repr gold_action used_tool_calls
                    (best_match, best_score, best_idx) (idx, x)
                  = (best_match, best_score, best_idx)).
  { unfold scan_step.
    destruct (decide (idx ∈ used_tool_calls)) as [|Hfree]; [reflexivity|].
    destruct (H idx x (or_introl eq_refl)) as [|Hzero]; [contradiction|].
    assert (Hle : Qle_bool (candidate_score py_repr gold_action x) best_score
                  = true)
      by (apply Qle_bool_iff; lra).
    now rewrite Hle. }
  cbn [fold_left]. rewrite Hstep.
  apply IH. intros; apply H; now right.
Qed.

End Matcher.

(** ** The reward of the improvements script *)

Section Reward.

Import Improvements.

Variable json_loads : string -> option dict.
Variable py_repr : value -> string.

Lemma match_step_scores (tool_calls : list ToolInvocation)
    (matches : list match_tuple) (used_tool_calls : gset Z)
    (gold_action : ExpectedAction) :
  Forall (fun entry : match_tuple => 0 <= snd entry <= 1) matches ->
  Forall (fun entry : match_tuple => 0 <= snd entry <= 1)
         (fst (match_step py_repr tool_calls (matches, used_tool_calls)
                          gold_action)).
Proof.
  intros H. unfold match_step.
  pose proof (scan_invariant_holds py_repr gold_action used_tool_calls
                tool_calls) as Hinv.
  destruct (scan py_repr gold_action used_tool_calls tool_calls)
    as [[best_match best_score] best_idx].
  unfold scan_invariant in Hinv.
  destruct best_match as [matched|]; cbn [fst];
    apply Forall_app; (split; [exact H|]); apply Forall_singleton; cbn [snd].
  - destruct Hinv as (_ & _ & _ & -> & _).
    apply improvements_candidate_score_bounds.
  - lra.
Qed.

Lemma match_loop_scores (tool_calls : list ToolInvocation)
    (gold_actions : list ExpectedAction) :
  forall st : list match_tuple * gset Z,
  Forall (fun entry : match_tuple => 0 <= snd entry <= 1) (fst st) ->
  Forall (fun entry : match_tuple => 0 <= snd entry <= 1)
         (fst (match_loop py_repr tool_calls gold_actions st)).
Proof.
  unfold match_loop.
  induction gold_actions as [|gold_action rest IH]; intros st H; [exact H|].
  cbn [fold_left]. apply IH. destruct st as [matches used_tool_calls].
  now apply match_step_scores.
Qed.

Lemma sum_is_sum_of (scores : list Q) : sum scores == sum_of scores.
Proof.
  unfold sum.
  rewrite (fold_left_sum_of Qplus (fun score => score)) by (intros; reflexivity).
  rewrite map_id. lra.
Qed.

(** The reward, when the extraction returns, is a proportion. *)
Lemma calculate_tool_call_reward_bounds (t : task) (reward : Q)
    (details : detailed_info) :
  calculate_tool_call_reward json_loads py_repr t = Return (reward, details) ->
  0 <= reward <= 1.
Proof.
  unfold calculate_tool_call_reward.
  destruct (gold_actions_of t) as [gold_actions|];
    [|intros [= <- _]; lra].
  destruct (extract_tool_calls_from_trajectory json_loads (traj t))
    as [tool_calls|e]; [|discriminate].
  cbn [bind]. intros [= <- _].
  pose proof (match_loop_scores tool_calls gold_actions ([], ∅)
                (Forall_nil_2 _)) as Hscores.
  fold (match_actions_to_tool_calls py_repr gold_actions tool_calls)
    in Hscores.
  destruct (is_empty (match_actions_to_tool_calls py_repr gold_actions
                        tool_calls)) eqn:Hempty; [lra|].
  rewrite sum_is_sum_of.
  set (matches := match_actions_to_tool_calls py_repr gold_actions tool_calls)
    in *.
  assert (Hlen : len (map snd matches) == len matches)
    by (unfold len; now rewrite length_map).
  rewrite Hlen.
  apply proportion_bounds; [now apply len_pos|].
  apply sum_of_bounds. intros entry Hin.
  rewrite List.Forall_forall in Hscores. now apply Hscores.
Qed.

End Reward.

(** ** The claims *)

(** C7. The similarity functions return a result in [0,1], and the task
    score, which is the arithmetic mean of the per-action scores, lies in
    [0,1] too: for [compare_values] and [calculate_partial_score] of the
    tau-bench-repo script, and likewise for [compare_arguments] of the
    improvements script. *)
Theorem scores_in_unit_interval :
  (forall expected actual : value,
     0 <= Repo.compare_values expected actual <= 1) /\
  (forall (expected : ExpectedAction) (rest : list ExpectedAction)
          (actual_calls : list ToolInvocation),
     Repo.calculate_partial_score (expected :: rest) actual_calls
     == mean (map (fun e => Repo.best_score e actual_calls)
                  (expected :: rest))) /\
  (forall (expected_actions : list ExpectedAction)
          (actual_calls : list ToolInvocation),
     0 <= Repo.calculate_partial_score expected_actions actual_calls <= 1) /\
  (forall (py_repr : value -> string) (expected_args actual_args : dict),
     0 <= Improvements.compare_arguments py_repr expected_args actual_args
       <= 1).
Proof.
  split; [|split; [|split]].
  - intros expected actual. apply compare_values_bounds.
  - apply calculate_partial_score_mean.
  - apply calculate_partial_score_bounds.
  - intros py_repr. apply compare_arguments_bounds.
Qed.

(** C4, as it is stated, fails at both scripts.  At [compare_arguments]
    of the improvements script an empty expected mapping scores 0 against
    [{a: 1}], and the extra key [b] of the actual mapping halves the score
    of [{a: 1}].  At [compare_values] of the tau-bench-repo script the
    mapping [{limit: NaN}] scores 1 against [{limit: NaN}], where the
    reference definition gives 0, and 0 against
    [{limit: NaN, extra: 1}]: there the extra key is penalized. *)
Lemma mapping_similarity_off_the_reference :
  (~ Improvements.compare_arguments example_repr [] [("a", VInt 1)] == 1 /\
   Improvements.compare_arguments example_repr [] [("a", VInt 1)] == 0 /\
   ~ Improvements.compare_arguments example_repr
       [("a", VInt 1)] [("a", VInt 1); ("b", VInt 2)]
     == Improvements.compare_arguments example_repr
          [("a", VInt 1)] [("a", VInt 1)] /\
   Improvements.compare_arguments example_repr
     [("a", VInt 1)] [("a", VInt 1); ("b", VInt 2)] == 1 # 2) /\
  (Repo.compare_values (VDict [("limit", VFloat FNan)])
                       (VDict [("limit", VFloat FNan)]) == 1 /\
   reference_mapping_similarity Repo.compare_values
     [("limit", VFloat FNan)] [("limit", VFloat FNan)] == 0 /\
   Repo.compare_values (VDict [("limit", VFloat FNan)])
                       (VDict [("limit", VFloat FNan); ("extra", VInt 1)])
   == 0 /\
   ~ Repo.compare_values (VDict [("limit", VFloat FNan)])
                         (VDict [("limit", VFloat FNan); ("extra", VInt 1)])
     == Repo.compare_values (VDict [("limit", VFloat FNan)])
                            (VDict [("limit", VFloat FNan)])).
Proof.
  split; [split; [|split; [|split]]|split; [|split; [|split]]].
  - intros H. vm_compute in H. discriminate H.
  - vm_compute. reflexivity.
  - intros H. vm_compute in H. discriminate H.
  - vm_compute. reflexivity.
  - vm_compute. reflexivity.
  - vm_compute. reflexivity.
  - vm_compute. reflexivity.
  - intros H. vm_compute in H. discriminate H.
Qed.

(** C4, amended.  On two mappings [compare_values] of the tau-bench-repo
    script returns 1 when they are equal, and otherwise the reference
    definition: each expected key adds 0 when it is absent from the actual
    mapping and the similarity of the two values when it is present, the
    sum is divided by the number of expected keys, and an empty expected
    mapping scores 1.  When no expected value is a not-a-number the two
    cases agree: the result is the reference definition throughout, and
    the actual mapping is consulted at expected keys only.
    [compare_arguments] of the improvements script is another measure:
    over the keys of both mappings it gives a key the credit 1 when the two
    normalized values are equal and 0 otherwise, and it divides by the
    number of those keys; a key that only the actual mapping has is one
    more key to count, a match when its value is null and a mismatch
    otherwise. *)
Theorem mapping_similarity_by_variant :
  (forall exp act : dict,
     Repo.compare_values (VDict exp) (VDict act)
     == if py_eq (VDict exp) (VDict act) then 1
        else reference_mapping_similarity Repo.compare_values exp act) /\
  (forall exp act : dict,
     (forall item, In item exp -> is_nan (snd item) = false) ->
     Repo.compare_values (VDict exp) (VDict act)
     == reference_mapping_similarity Repo.compare_values exp act) /\
  (forall act : dict, Repo.compare_values (VDict []) (VDict act) == 1) /\
  (forall exp act act' : dict,
     (forall item, In item exp -> is_nan (snd item) = false) ->
     (forall key, In key (map fst exp) ->
        dict_get key act' = dict_get key act) ->
     Repo.compare_values (VDict exp) (VDict act')
     == Repo.compare_values (VDict exp) (VDict act)) /\
  (forall (py_repr : value -> string) (expected_args actual_args : dict),
     Improvements.compare_arguments py_repr expected_args actual_args
     == if is_empty expected_args && is_empty actual_args then 1
        else
          sum_of (map (key_credit py_repr expected_args actual_args)
                      (elements (keys_of_both expected_args actual_args)))
          / len (elements (keys_of_both expected_args actual_args))) /\
  (forall (py_repr : value -> string) (expected_args actual_args : dict)
          (key : string) (v : value),
     ~ In key (map fst expected_args) ->
     ~ In key (map fst actual_args) ->
     Improvements.compare_arguments py_repr expected_args
       (actual_args ++ [(key, v)])
     * (len (elements (keys_of_both expected_args actual_args)) + 1)
     == Improvements.compare_arguments py_repr expected_args actual_args
        * len (elements (keys_of_both expected_args actual_args))
        + match v with VNone => 1 | _ => 0 end).
Proof.
  split; [|split; [|split; [|split; [|split]]]].
  - apply compare_values_mapping_cases.
  - apply compare_values_mapping.
  - intros act. rewrite compare_values_mapping; [reflexivity|].
    intros item [].
  - intros exp act act' Hnan H. rewrite !compare_values_mapping by exact Hnan.
    now rewrite (reference_mapping_similarity_ext _ exp act act' H).
  - intros py_repr. apply compare_arguments_credits.
  - intros py_repr. apply compare_arguments_extra_key.
Qed.

(** C4 (amended) at the expected mapping [{a: 1, b: 2}]: against
    [{a: 1, b: 3}] it scores one half, with or without the extra key [c];
    and at [compare_arguments], where the extra key [b] takes [{a: 1}]
    against [{a: 1}] from 1 over one key to 1 over two keys. *)
Lemma mapping_similarity_by_variant_witness :
  (Repo.compare_values (VDict [("a", VInt 1); ("b", VInt 2)])
     (VDict [("a", VInt 1); ("b", VInt 3); ("c", VInt 9)])
   == Repo.compare_values (VDict [("a", VInt 1); ("b", VInt 2)])
        (VDict [("a", VInt 1); ("b", VInt 3)]) /\
   Repo.compare_values (VDict [("a", VInt 1); ("b", VInt 2)])
     (VDict [("a", VInt 1); ("b", VInt 3)])
   == 1 # 2) /\
  Improvements.compare_arguments example_repr [("a", VInt 1)]
    ([("a", VInt 1)] ++ [("b", VInt 2)])
  * (len (elements (keys_of_both [("a", VInt 1)] [("a", VInt 1)])) + 1)
  == Improvements.compare_arguments example_repr [("a", VInt 1)]
       [("a", VInt 1)]
     * len (elements (keys_of_both [("a", VInt 1)] [("a", VInt 1)]))
     + 0.
Proof.
  split; [split|].
  - apply (proj1 (proj2 (proj2 (proj2 mapping_similarity_by_variant)))).
    + intros item [<-|[<-|[]]]; reflexivity.
    + intros key [<-|[<-|[]]]; reflexivity.
  - vm_compute. reflexivity.
  - apply (proj2 (proj2 (proj2 (proj2 (proj2 mapping_similarity_by_variant))))
             example_repr [("a", VInt 1)] [("a", VInt 1)] "b" (VInt 2)).
    + intros [H|[]]. discriminate H.
    + intros [H|[]]. discriminate H.
Defined.

(** C1, as it is stated, at [match_actions_to_tool_calls] of the
    improvements script: the call [cancel_flight] with the arguments of the
    expected [book_flight] scores one half, and is bound to it. *)
Lemma wrong_tool_keeps_argument_credit :
  String.eqb "book_flight" "cancel_flight" = false /\
  ~ Improvements.candidate_score example_repr
      {| name := "book_flight"; kwargs := [("seat", VStr "A1")] |}
      {| tool_name := "cancel_flight"; arguments := [("seat", VStr "A1")] |}
    == 0 /\
  Improvements.match_actions_to_tool_calls example_repr
    [{| name := "book_flight"; kwargs := [("seat", VStr "A1")] |}]
    [{| tool_name := "cancel_flight"; arguments := [("seat", VStr "A1")] |}]
  = [({| name := "book_flight"; kwargs := [("seat", VStr "A1")] |},
      Some {| tool_name := "cancel_flight";
              arguments := [("seat", VStr "A1")] |},
      Improvements.candidate_score example_repr
        {| name := "book_flight"; kwargs := [("seat", VStr "A1")] |}
        {| tool_name := "cancel_flight";
           arguments := [("seat", VStr "A1")] |})] /\
  Improvements.candidate_score example_repr
    {| name := "book_flight"; kwargs := [("seat", VStr "A1")] |}
    {| tool_name := "cancel_flight"; arguments := [("seat", VStr "A1")] |}
  == 1 # 2.
Proof.
  split; [|split; [|split]].
  - reflexivity.
  - intros H. vm_compute in H. discriminate H.
  - vm_compute. reflexivity.
  - vm_compute. reflexivity.
Qed.

(** C1, amended. In [calculate_partial_score] of the tau-bench-repo script
    a call whose name differs from the expected action's scores exactly 0
    whatever its arguments, and the best score is the same with and without
    it.  In [match_actions_to_tool_calls] of the improvements script such a
    call scores half of the argument similarity. *)
Theorem wrong_tool_credit_by_variant :
  (forall (expected : ExpectedAction) (actual : ToolInvocation),
     name expected <> tool_name actual ->
     Repo.candidate_score expected actual = 0 /\
     forall before after : list ToolInvocation,
       Repo.best_score expected (before ++ actual :: after)
       = Repo.best_score expected (before ++ after)) /\
  (forall (py_repr : value -> string) (gold_action : ExpectedAction)
          (tool_call : ToolInvocation),
     name gold_action <> tool_name tool_call ->
     Improvements.candidate_score py_repr gold_action tool_call
     == (1 # 2) * Improvements.compare_arguments py_repr (kwargs gold_action)
                    (arguments tool_call)).
Proof.
  split.
  - intros expected actual H.
    pose proof (candidate_score_wrong_name expected actual H) as Hzero.
    split; [exact Hzero|].
    intros before after. now apply best_score_skips_zero.
  - intros py_repr gold_action tool_call H.
    now apply improvements_candidate_score_wrong_name.
Qed.

(** C1 (amended) at the expected [book_flight] and the call
    [cancel_flight] with the same arguments. *)
Lemma wrong_tool_credit_by_variant_witness :
  Repo.candidate_score
    {| name := "book_flight"; kwargs := [("seat", VStr "A1")] |}
    {| tool_name := "cancel_flight"; arguments := [("seat", VStr "A1")] |}
  = 0 /\
  Improvements.candidate_score example_repr
    {| name := "book_flight"; kwargs := [("seat", VStr "A1")] |}
    {| tool_name := "cancel_flight"; arguments := [("seat", VStr "A1")] |}
  == (1 # 2) * Improvements.compare_arguments example_repr
                 [("seat", VStr "A1")] [("seat", VStr "A1")].
Proof.
  split.
  - apply (proj1 wrong_tool_credit_by_variant). discriminate.
  - apply (proj2 wrong_tool_credit_by_variant example_repr
             {| name := "book_flight"; kwargs := [("seat", VStr "A1")] |}
             {| tool_name := "cancel_flight";
                arguments := [("seat", VStr "A1")] |}).
    discriminate.
Defined.

(** C6. Under the 0.4 / 0.6 weights of [calculate_partial_score], the
    expected [update_user] with [email] and [age 30] against the call
    [update_user] with the same [email] and [age 99] scores
    [0.4 + 0.6 * 0.5 = 0.7]: one of the two argument keys matches. *)
Theorem update_user_scores_seven_tenths :
  Repo.compare_values
    (VDict [("email", VStr "a@b.com"); ("age", VInt 30)])
    (VDict [("email", VStr "a@b.com"); ("age", VInt 99)])
  == 1 # 2 /\
  Repo.calculate_partial_score
    [{| name := "update_user";
        kwargs := [("email", VStr "a@b.com"); ("age", VInt 30)] |}]
    [{| tool_name := "update_user";
        arguments := [("email", VStr "a@b.com"); ("age", VInt 99)] |}]
  == (4 # 10) + (6 # 10) * (1 # 2) /\
  Repo.calculate_partial_score
    [{| name := "update_user";
        kwargs := [("email", VStr "a@b.com"); ("age", VInt 30)] |}]
    [{| tool_name := "update_user";
        arguments := [("email", VStr "a@b.com"); ("age", VInt 99)] |}]
  == 7 # 10.
Proof.
  split; [|split]; vm_compute; reflexivity.
Qed.

(** C9. [compare_values] tests equality before it tests the types: values
    that are equal under [==] score 1 whatever their types, and only unequal
    values of different types score 0.  So the integer [1] against the
    float [1.0], and [True] against the integer [1], which differ in type
    and are equal under [==], score 1. *)
Theorem equality_precedes_type_check :
  (forall expected actual : value,
     py_eq expected actual = true ->
     Repo.compare_values expected actual = 1) /\
  (forall expected actual : value,
     py_eq expected actual = false ->
     pytype_eqb (type_of expected) (type_of actual) = false ->
     Repo.compare_values expected actual = 0) /\
  pytype_eqb (type_of (VInt 1)) (type_of (VFloat (FFin 1 0))) = false /\
  py_eq (VInt 1) (VFloat (FFin 1 0)) = true /\
  Repo.compare_values (VInt 1) (VFloat (FFin 1 0)) = 1 /\
  pytype_eqb (type_of (VBool true)) (type_of (VInt 1)) = false /\
  py_eq (VBool true) (VInt 1) = true /\
  Repo.compare_values (VBool true) (VInt 1) = 1.
Proof.
  split; [exact compare_values_equal|].
  split; [|repeat split].
  intros expected actual Hneq Htypes.
  destruct expected; cbn [Repo.compare_values];
    rewrite Hneq, Htypes; reflexivity.
Qed.

(** C9 at the integer [1] against the float [1.0], which are equal, and
    against the string [1], which is not. *)
Lemma equality_precedes_type_check_witness :
  Repo.compare_values (VInt 1) (VFloat (FFin 1 0)) = 1 /\
  Repo.compare_values (VInt 1) (VStr "1") = 0.
Proof.
  split.
  - apply (proj1 equality_precedes_type_check). reflexivity.
  - apply (proj1 (proj2 equality_precedes_type_check)); reflexivity.
Defined.

(** C3, as it is stated, at [calculate_tool_call_reward] of the
    improvements script: no gold action and no tool call give the reward 0,
    not 1. *)
Lemma empty_task_rewarded_zero :
  match
    Improvements.calculate_tool_call_reward example_loads example_repr
      {| Improvements.info :=
           Some {| Improvements.reward_info :=
                     Some {| Improvements.actions := Some [] |} |};
         Improvements.traj := [] |}
  with
  | Return (tool_call_reward, _) =>
      tool_call_reward == 0 /\ ~ tool_call_reward == 1
  | Raise _ => False
  end.
Proof.
  cbn. split; [reflexivity|]. intros H. discriminate H.
Qed.

(** The matcher has nothing to match without gold actions. *)
Lemma match_no_gold_actions (py_repr : value -> string)
    (tool_calls : list ToolInvocation) :
  Improvements.match_actions_to_tool_calls py_repr [] tool_calls = [].
Proof.
  reflexivity.
Qed.

(** C3, amended. With no expected action [calculate_partial_score] of the
    tau-bench-repo script returns 1 when there is no call either and 0 when
    there is one.  [calculate_tool_call_reward] of the improvements script
    returns the reward 0 for an empty list of gold actions, whatever the
    tool calls of the trajectory are. *)
Theorem empty_expected_by_variant :
  Repo.calculate_partial_score [] [] = 1 /\
  (forall (actual : ToolInvocation) (rest : list ToolInvocation),
     Repo.calculate_partial_score [] (actual :: rest) = 0) /\
  (forall (json_loads : string -> option dict) (py_repr : value -> string)
          (t : Improvements.task) (tool_calls : list ToolInvocation),
     Improvements.gold_actions_of t = Some [] ->
     Improvements.extract_tool_calls_from_trajectory json_loads
       (Improvements.traj t) = Return tool_calls ->
     exists details,
       Improvements.calculate_tool_call_reward json_loads py_repr t
       = Return (0, details)).
Proof.
  split; [reflexivity|split; [reflexivity|]].
  intros json_loads py_repr t tool_calls Hgold Hcalls.
  unfold Improvements.calculate_tool_call_reward.
  rewrite Hgold, Hcalls. cbn [bind].
  rewrite match_no_gold_actions. cbn [is_empty].
  eexists. reflexivity.
Qed.

(** C3 (amended) at a task with no gold action whose trajectory holds one
    tool call. *)
Lemma empty_expected_by_variant_witness :
  exists details,
    Improvements.calculate_tool_call_reward example_loads example_repr
      {| Improvements.info :=
           Some {| Improvements.reward_info :=
                     Some {| Improvements.actions := Some [] |} |};
         Improvements.traj :=
           [{| role := Some "assistant";
               tool_calls :=
                 ToolCalls
                   [{| tc_function :=
                         Some {| fn_name := Some "book_flight";
                                 fn_arguments := Some (ArgText "{}") |} |}]
            |}] |}
    = Return (0, details).
Proof.
  apply (proj2 (proj2 empty_expected_by_variant) example_loads example_repr _
           [{| tool_name := "book_flight"; arguments := [] |}]);
    reflexivity.
Defined.

(** ** One-to-one matching *)

Section OneToOne.

Import Improvements.

Variable py_repr : value -> string.

(** The outer loop never forgets a used tool call. *)
Lemma match_step_used_grows (tool_calls : list ToolInvocation)
    (st : list match_tuple * gset Z) (gold_action : ExpectedAction) :
  snd st ⊆ snd (match_step py_repr tool_calls st gold_action).
Proof.
  destruct st as [matches used_tool_calls]. unfold match_step.
  destruct (scan py_repr gold_action used_tool_calls tool_calls)
    as [[[matched|] best_score] best_idx]; cbn [snd]; set_solver.
Qed.

Lemma match_loop_used_grows (tool_calls : list ToolInvocation)
    (gold_actions : list ExpectedAction) :
  forall st : list match_tuple * gset Z,
  snd st ⊆ snd (match_loop py_repr tool_calls gold_actions st).
Proof.
  unfold match_loop.
  induction gold_actions as [|gold_action rest IH]; intros st; [done|].
  cbn [fold_left]. etrans; [|apply IH]. apply match_step_used_grows.
Qed.

(** The step that selects a tool call marks its index as used. *)
Lemma match_step_marks (tool_calls : list ToolInvocation)
    (matches : list match_tuple) (used_tool_calls : gset Z)
    (gold_action : ExpectedAction) (matched : ToolInvocation)
    (best_score : Q) (best_idx : Z) :
  scan py_repr gold_action used_tool_calls tool_calls
  = (Some matched, best_score, best_idx) ->
  match_step py_repr tool_calls (matches, used_tool_calls) gold_action
  = (matches ++ [(gold_action, Some matched, best_score)],
     used_tool_calls ∪ {[ best_idx ]}).
Proof.
  intros H. unfold match_step. now rewrite H.
Qed.

(** The only tool call with a positive score is selected when it is
    free. *)
Lemma scan_selects_the_only_candidate (gold_action : ExpectedAction)
    (used_tool_calls : gset Z) (before after : list ToolInvocation)
    (candidate : ToolInvocation) :
  Z.of_nat (length before) ∉ used_tool_calls ->
  0 < candidate_score py_repr gold_action candidate ->
  (forall x, In x (before ++ after) ->
     candidate_score py_repr gold_action x == 0) ->
  scan py_repr gold_action used_tool_calls (before ++ candidate :: after)
  = (Some candidate, candidate_score py_repr gold_action candidate,
     Z.of_nat (length before)).
Proof.
  intros Hfree Hpos Hzero. unfold scan.
  rewrite enumerate_from_app, fold_left_app.
  rewrite scan_passes_over; [|lra|].
  - cbn [enumerate_from fold_left]. rewrite Z.add_0_l.
    unfold scan_step at 2.
    destruct (decide (Z.of_nat (length before) ∈ used_tool_calls));
      [contradiction|].
    assert (Hgt : Qle_bool (candidate_score py_repr gold_action candidate) 0
                  = false).
    { apply not_true_is_false. intros H. apply Qle_bool_iff in H. lra. }
    rewrite Hgt. cbn [negb].
    apply scan_passes_over; [lra|].
    intros idx x Hin. right. apply Hzero, in_or_app. right.
    eapply enumerate_from_In, Hin.
  - intros idx x Hin. right. apply Hzero, in_or_app. left.
    eapply enumerate_from_In, Hin.
Qed.

(** Once it is used, nothing is selected. *)
Lemma scan_finds_nothing_left (gold_action : ExpectedAction)
    (used_tool_calls : gset Z) (before after : list ToolInvocation)
    (candidate : ToolInvocation) :
  Z.of_nat (length before) ∈ used_tool_calls ->
  (forall x, In x (before ++ after) ->
     candidate_score py_repr gold_action x == 0) ->
  scan py_repr gold_action used_tool_calls (before ++ candidate :: after)
  = (None, 0, (-1)%Z).
Proof.
  intros Hused Hzero. unfold scan. apply scan_passes_over; [lra|].
  intros idx x. rewrite enumerate_from_app. intros Hin.
  apply in_app_or in Hin as [Hin|Hin].
  - right. apply Hzero, in_or_app. left. eapply enumerate_from_In, Hin.
  - cbn [enumerate_from] in Hin. destruct Hin as [E|Hin].
    + left. injection E as <- _. now rewrite Z.add_0_l.
    + right. apply Hzero, in_or_app. right. eapply enumerate_from_In, Hin.
Qed.

End OneToOne.

(** C2, as it is stated, at [calculate_partial_score] of the tau-bench-repo
    script: of two identical expected actions with one matching call,
    neither scores 0; both take the score of that call, and the task score
    is 1. *)
Lemma repo_scorer_reuses_calls :
  ~ Repo.best_score
      {| name := "book_flight"; kwargs := [("seat", VStr "A1")] |}
      [{| tool_name := "book_flight"; arguments := [("seat", VStr "A1")] |}]
    == 0 /\
  Repo.calculate_partial_score
    [{| name := "book_flight"; kwargs := [("seat", VStr "A1")] |};
     {| name := "book_flight"; kwargs := [("seat", VStr "A1")] |}]
    [{| tool_name := "book_flight"; arguments := [("seat", VStr "A1")] |}]
  == 1.
Proof.
  split.
  - intros H. vm_compute in H. discriminate H.
  - vm_compute. reflexivity.
Qed.

(** C2, amended. [match_actions_to_tool_calls] of the improvements script
    matches one-to-one: a selected tool call is an unused one, and no later
    gold action selects its index again; so of two identical gold actions
    with exactly one tool call of positive score, the first is bound to
    that call and the second to none, with score 0.
    [calculate_partial_score] of the tau-bench-repo script keeps no record
    of the calls it has used: two identical expected actions both take the
    best score over all calls. *)
Theorem one_to_one_by_variant :
  (forall (py_repr : value -> string) (tool_calls : list ToolInvocation)
          (matches : list Improvements.match_tuple)
          (used_tool_calls : gset Z) (gold_action : ExpectedAction)
          (matched : ToolInvocation) (best_score : Q) (best_idx : Z),
     Improvements.scan py_repr gold_action used_tool_calls tool_calls
     = (Some matched, best_score, best_idx) ->
     (best_idx ∉ used_tool_calls) /\
     (tool_calls !! Z.to_nat best_idx = Some matched) /\
     forall (later : list ExpectedAction) (gold_action' : ExpectedAction)
            (matched' : ToolInvocation) (best_score' : Q) (best_idx' : Z),
       Improvements.scan py_repr gold_action'
         (snd (Improvements.match_loop py_repr tool_calls later
                 (Improvements.match_step py_repr tool_calls
                    (matches, used_tool_calls) gold_action)))
         tool_calls
       = (Some matched', best_score', best_idx') ->
       best_idx' <> best_idx) /\
  (forall (py_repr : value -> string) (gold_action : ExpectedAction)
          (before after : list ToolInvocation) (candidate : ToolInvocation),
     0 < Improvements.candidate_score py_repr gold_action candidate ->
     (forall x, In x (before ++ after) ->
        Improvements.candidate_score py_repr gold_action x == 0) ->
     Improvements.match_actions_to_tool_calls py_repr
       [gold_action; gold_action] (before ++ candidate :: after)
     = [(gold_action, Some candidate,
         Improvements.candidate_score py_repr gold_action candidate);
        (gold_action, None, 0)]) /\
  (forall (expected : ExpectedAction) (actual_calls : list ToolInvocation),
     Repo.calculate_partial_score [expected; expected] actual_calls
     == Repo.best_score expected actual_calls).
Proof.
  split; [|split].
  - intros py_repr tool_calls matches used_tool_calls gold_action matched
           best_score best_idx Hscan.
    pose proof (scan_invariant_holds py_repr gold_action used_tool_calls
                  tool_calls) as Hinv.
    rewrite Hscan in Hinv. destruct Hinv as (Hfree & _ & Hlookup & _).
    split; [exact Hfree|split; [exact Hlookup|]].
    intros later gold_action' matched' best_score' best_idx' Hscan' ->.
    assert (Hused : best_idx ∈
              snd (Improvements.match_loop py_repr tool_calls later
                     (Improvements.match_step py_repr tool_calls
                        (matches, used_tool_calls) gold_action))).
    { apply (match_loop_used_grows py_repr tool_calls later).
      rewrite (match_step_marks py_repr _ _ _ _ _ _ _ Hscan). cbn [snd].
      set_solver. }
    revert Hscan' Hused.
    generalize (snd (Improvements.match_loop py_repr tool_calls later
                       (Improvements.match_step py_repr tool_calls
                          (matches, used_tool_calls) gold_action))).
    intros used' Hscan' Hused.
    pose proof (scan_invariant_holds py_repr gold_action' used' tool_calls)
      as Hinv'.
    rewrite Hscan' in Hinv'. destruct Hinv' as (Hfree' & _).
    now apply Hfree'.
  - intros py_repr gold_action before after candidate Hpos Hzero.
    unfold Improvements.match_actions_to_tool_calls, Improvements.match_loop.
    cbn [fold_left].
    rewrite (match_step_marks py_repr _ _ _ _ candidate
               (Improvements.candidate_score py_repr gold_action candidate)
               (Z.of_nat (length before)))
      by (apply scan_selects_the_only_candidate;
          [set_solver|assumption|assumption]).
    unfold Improvements.match_step.
    rewrite scan_finds_nothing_left by (set_solver || assumption).
    reflexivity.
  - intros expected actual_calls.
    rewrite calculate_partial_score_mean.
    unfold mean, len. cbn [map sum_of fold_right length].
    change (inject_Z (Z.of_nat 2)) with 2. field.
Qed.

(** C2 (amended) at two gold actions [book_flight] and a pool of two tool
    calls, of which [book_flight] alone scores above zero. *)
Lemma one_to_one_by_variant_witness :
  Improvements.match_actions_to_tool_calls example_repr
    [{| name := "book_flight"; kwargs := [("seat", VStr "A1")] |};
     {| name := "book_flight"; kwargs := [("seat", VStr "A1")] |}]
    [{| tool_name := "get_user"; arguments := [("id", VInt 7)] |};
     {| tool_name := "book_flight"; arguments := [("seat", VStr "A1")] |}]
  = [({| name := "book_flight"; kwargs := [("seat", VStr "A1")] |},
      Some {| tool_name := "book_flight";
              arguments := [("seat", VStr "A1")] |},
      Improvements.candidate_score example_repr
        {| name := "book_flight"; kwargs := [("seat", VStr "A1")] |}
        {| tool_name := "book_flight";
           arguments := [("seat", VStr "A1")] |});
     ({| name := "book_flight"; kwargs := [("seat", VStr "A1")] |},
      None, 0)].
Proof.
  apply (proj1 (proj2 one_to_one_by_variant) example_repr
           {| name := "book_flight"; kwargs := [("seat", VStr "A1")] |}
           [{| tool_name := "get_user"; arguments := [("id", VInt 7)] |}]
           []
           {| tool_name := "book_flight";
              arguments := [("seat", VStr "A1")] |}).
  - vm_compute. reflexivity.
  - intros x [<-|[]]. vm_compute. reflexivity.
Defined.

(** ** Extraction of the tool calls *)

Lemma bind_ext {A B : Type} (m : result A) (k k' : A -> result B) :
  (forall a, k a = k' a) -> bind m k = bind m k'.
Proof.
  intros H. destruct m; [apply H|reflexivity].
Qed.

Section RepoExtraction.

Import Repo.

Variable json_loads : string -> option dict.

Lemma repo_calls_loop (calls : list tool_call_record) :
  forall collected : list ToolInvocation,
  fold_left (fun tool_calls call => tool_calls ++ [extract_call json_loads call])
            calls collected
  = collected ++ map (extract_call json_loads) calls.
Proof.
  induction calls as [|call calls IH]; intros collected; cbn [fold_left map].
  - now rewrite app_nil_r.
  - rewrite IH, <- app_assoc. reflexivity.
Qed.

Lemma repo_messages_loop (trajectory : list turn) :
  forall collected : list ToolInvocation,
  fold_left
    (fun tool_calls message =>
       fold_left
         (fun tool_calls call => tool_calls ++ [extract_call json_loads call])
         (truthy_tool_calls message) tool_calls)
    trajectory collected
  = collected ++
    flat_map (fun message =>
                map (extract_call json_loads) (truthy_tool_calls message))
             trajectory.
Proof.
  induction trajectory as [|message trajectory IH]; intros collected;
    cbn [fold_left flat_map].
  - now rewrite app_nil_r.
  - rewrite IH, repo_calls_loop, <- app_assoc. reflexivity.
Qed.

(** [extract_tool_calls] turns every record of every truthy [tool_calls]
    list into a tool call of its own, in order. *)
Lemma extract_tool_calls_flat_map (trajectory : list turn) :
  extract_tool_calls json_loads trajectory
  = flat_map (fun message =>
                map (extract_call json_loads) (truthy_tool_calls message))
             trajectory.
Proof.
  unfold extract_tool_calls. now rewrite repo_messages_loop.
Qed.

End RepoExtraction.

Section ImprovementsExtraction.

Import Improvements.

Variable json_loads : string -> option dict.

Lemma extract_calls_app (calls calls' : list tool_call_record) :
  forall collected : list ToolInvocation,
  extract_calls json_loads (calls ++ calls') collected
  = bind (extract_calls json_loads calls collected)
         (extract_calls json_loads calls').
Proof.
  induction calls as [|call calls IH]; intros collected; [reflexivity|].
  cbn [app extract_calls].
  destruct (extract_call json_loads call) as [extracted|e];
    [|reflexivity].
  cbn [bind]. apply IH.
Qed.

Lemma extract_entries_app (traj traj' : list turn) :
  forall collected : list ToolInvocation,
  extract_entries json_loads (traj ++ traj') collected
  = bind (extract_entries json_loads traj collected)
         (extract_entries json_loads traj').
Proof.
  induction traj as [|entry traj IH]; intros collected; [reflexivity|].
  cbn [app extract_entries].
  destruct (is_assistant entry); [|apply IH].
  destruct (tool_calls entry) as [| |calls]; try apply IH.
  destruct (extract_calls json_loads calls collected) as [collected'|e];
    [|reflexivity].
  cbn [bind]. apply IH.
Qed.

(** An entry that is not relevant is skipped. *)
Lemma extract_skips_entry (earlier later : list turn) (entry : turn) :
  (forall collected,
     extract_entries json_loads (entry :: later) collected
     = extract_entries json_loads later collected) ->
  extract_tool_calls_from_trajectory json_loads (earlier ++ entry :: later)
  = extract_tool_calls_from_trajectory json_loads (earlier ++ later).
Proof.
  intros H. unfold extract_tool_calls_from_trajectory.
  rewrite !extract_entries_app. apply bind_ext. exact H.
Qed.

(** A tool call whose extraction raises makes the whole extraction raise. *)
Lemma extract_raises (earlier later : list turn) (entry : turn)
    (calls_before calls_after : list tool_call_record)
    (bad : tool_call_record) (e : exn) :
  is_assistant entry = true ->
  tool_calls entry = ToolCalls (calls_before ++ bad :: calls_after) ->
  extract_call json_loads bad = Raise e ->
  exists e',
    extract_tool_calls_from_trajectory json_loads (earlier ++ entry :: later)
    = Raise e'.
Proof.
  intros Hrole Hcalls Hbad. unfold extract_tool_calls_from_trajectory.
  rewrite extract_entries_app.
  destruct (extract_entries json_loads earlier []) as [collected|e0];
    [|now exists e0].
  cbn [bind extract_entries]. rewrite Hrole, Hcalls, extract_calls_app.
  destruct (extract_calls json_loads calls_before collected)
    as [collected'|e1]; [|now exists e1].
  cbn [bind extract_calls]. rewrite Hbad. now exists e.
Qed.

End ImprovementsExtraction.

(** C5, as it is stated, at [extract_tool_calls_from_trajectory] of the
    improvements script: the arguments text of the second tool call does
    not decode, the extraction raises, and the first tool call is lost
    with it. *)
Lemma undecodable_arguments_abort_extraction :
  example_loads "not json" = None /\
  Improvements.extract_tool_calls_from_trajectory example_loads
    [{| role := Some "assistant";
        tool_calls :=
          ToolCalls
            [{| tc_function :=
                  Some {| fn_name := Some "book_flight";
                          fn_arguments := Some (ArgText "{}") |} |};
             {| tc_function :=
                  Some {| fn_name := Some "cancel_flight";
                          fn_arguments := Some (ArgText "not json") |} |}]
     |}]
  = Raise JSONDecodeError.
Proof.
  split; reflexivity.
Qed.

(** C5, amended. In [extract_tool_calls] of the tau-bench-repo script a
    tool call whose arguments text does not decode is extracted with the
    empty mapping, and every tool-call record of the trajectory is
    extracted on its own, so the other tool calls are as they would be
    without it; the function returns a list on every trajectory.  In
    [extract_tool_calls_from_trajectory] of the improvements script
    [json.loads] is unguarded: such a tool call, in a relevant turn, makes
    the extraction raise. *)
Theorem undecodable_arguments_by_variant :
  (forall (json_loads : string -> option dict) (call : tool_call_record)
          (func : function_record) (text : string),
     tc_function call = Some func ->
     fn_arguments func = Some (ArgText text) ->
     json_loads text = None ->
     Repo.extract_call json_loads call
     = {| tool_name := default EmptyString (fn_name func);
          arguments := [] |}) /\
  (forall (json_loads : string -> option dict) (trajectory : list turn),
     Repo.extract_tool_calls json_loads trajectory
     = flat_map (fun message =>
                   map (Repo.extract_call json_loads)
                       (Repo.truthy_tool_calls message))
                trajectory) /\
  (forall (json_loads : string -> option dict) (earlier later : list turn)
          (entry : turn) (calls_before calls_after : list tool_call_record)
          (bad : tool_call_record) (func : function_record)
          (called : string) (text : string),
     Improvements.is_assistant entry = true ->
     tool_calls entry = ToolCalls (calls_before ++ bad :: calls_after) ->
     tc_function bad = Some func ->
     fn_name func = Some called ->
     fn_arguments func = Some (ArgText text) ->
     json_loads text = None ->
     Improvements.extract_call json_loads bad = Raise JSONDecodeError /\
     exists e,
       Improvements.extract_tool_calls_from_trajectory json_loads
         (earlier ++ entry :: later)
       = Raise e).
Proof.
  split; [|split].
  - intros json_loads call func text Hfunc Hargs Hloads.
    unfold Repo.extract_call. rewrite Hfunc. simpl.
    rewrite Hargs. simpl. now rewrite Hloads.
  - intros json_loads trajectory. apply extract_tool_calls_flat_map.
  - intros json_loads earlier later entry calls_before calls_after bad func
           called text Hrole Hcalls Hfunc Hname Hargs Hloads.
    assert (Hbad : Improvements.extract_call json_loads bad
                   = Raise JSONDecodeError).
    { unfold Improvements.extract_call. rewrite Hfunc. cbn [subscript bind].
      rewrite Hname. cbn [subscript bind]. rewrite Hargs.
      cbn [subscript bind Improvements.loads]. now rewrite Hloads. }
    split; [exact Hbad|].
    now apply (extract_raises json_loads earlier later entry calls_before
                 calls_after bad JSONDecodeError).
Qed.

(** C5 (amended) at a turn with the tool call [cancel_flight], whose
    arguments text is [not json]. *)
Lemma undecodable_arguments_by_variant_witness :
  Repo.extract_call example_loads
    {| tc_function :=
         Some {| fn_name := Some "cancel_flight";
                 fn_arguments := Some (ArgText "not json") |} |}
  = {| tool_name := "cancel_flight"; arguments := [] |} /\
  (Improvements.extract_call example_loads
     {| tc_function :=
          Some {| fn_name := Some "cancel_flight";
                  fn_arguments := Some (ArgText "not json") |} |}
   = Raise JSONDecodeError /\
   exists e,
     Improvements.extract_tool_calls_from_trajectory example_loads
       [{| role := Some "assistant";
           tool_calls :=
             ToolCalls
               [{| tc_function :=
                     Some {| fn_name := Some "cancel_flight";
                             fn_arguments := Some (ArgText "not json") |} |}]
        |}]
     = Raise e).
Proof.
  split.
  - apply (proj1 undecodable_arguments_by_variant example_loads _
             {| fn_name := Some "cancel_flight";
                fn_arguments := Some (ArgText "not json") |} "not json");
      reflexivity.
  - apply (proj2 (proj2 undecodable_arguments_by_variant) example_loads
             [] []
             {| role := Some "assistant";
                tool_calls :=
                  ToolCalls
                    [{| tc_function :=
                          Some {| fn_name := Some "cancel_flight";
                                  fn_arguments := Some (ArgText "not json")
                               |} |}] |}
             [] []
             {| tc_function :=
                  Some {| fn_name := Some "cancel_flight";
                          fn_arguments := Some (ArgText "not json") |} |}
             {| fn_name := Some "cancel_flight";
                fn_arguments := Some (ArgText "not json") |}
             "cancel_flight" "not json");
      reflexivity.
Defined.

(** C8, as it is stated, at [extract_tool_calls] of the tau-bench-repo
    script: the tool call of a turn whose role is [user] is extracted. *)
Lemma repo_extracts_from_any_role :
  Repo.extract_tool_calls example_loads
    [{| role := Some "user";
        tool_calls :=
          ToolCalls
            [{| tc_function :=
                  Some {| fn_name := Some "book_flight";
                          fn_arguments := Some (ArgText "{}") |} |}] |}]
  = [{| tool_name := "book_flight"; arguments := [] |}].
Proof.
  reflexivity.
Qed.

(** C8, amended. [extract_tool_calls_from_trajectory] of the improvements
    script extracts nothing from a turn whose role is not [assistant], nor
    from a turn whose [tool_calls] is absent or null.  [extract_tool_calls]
    of the tau-bench-repo script does not read the role: a turn of any role
    adds the tool calls of its list. *)
Theorem relevant_turns_by_variant :
  (forall (json_loads : string -> option dict) (earlier later : list turn)
          (entry : turn),
     Improvements.is_assistant entry = false ->
     Improvements.extract_tool_calls_from_trajectory json_loads
       (earlier ++ entry :: later)
     = Improvements.extract_tool_calls_from_trajectory json_loads
         (earlier ++ later)) /\
  (forall (json_loads : string -> option dict) (earlier later : list turn)
          (entry : turn),
     tool_calls entry = NoToolCalls \/ tool_calls entry = NullToolCalls ->
     Improvements.extract_tool_calls_from_trajectory json_loads
       (earlier ++ entry :: later)
     = Improvements.extract_tool_calls_from_trajectory json_loads
         (earlier ++ later)) /\
  (forall (json_loads : string -> option dict) (earlier later : list turn)
          (author : option string) (calls : list tool_call_record),
     Repo.extract_tool_calls json_loads
       (earlier ++ {| role := author; tool_calls := ToolCalls calls |}
                :: later)
     = Repo.extract_tool_calls json_loads earlier
       ++ map (Repo.extract_call json_loads) calls
       ++ Repo.extract_tool_calls json_loads later).
Proof.
  split; [|split].
  - intros json_loads earlier later entry Hrole.
    apply extract_skips_entry. intros collected.
    cbn [Improvements.extract_entries]. now rewrite Hrole.
  - intros json_loads earlier later entry Hcalls.
    apply extract_skips_entry. intros collected.
    cbn [Improvements.extract_entries].
    destruct (Improvements.is_assistant entry); [|reflexivity].
    destruct Hcalls as [-> | ->]; reflexivity.
  - intros json_loads earlier later author calls.
    rewrite !extract_tool_calls_flat_map, flat_map_app.
    reflexivity.
Qed.

(** C8 (amended) at a turn of the role [user] with one tool call. *)
Lemma relevant_turns_by_variant_witness :
  Improvements.extract_tool_calls_from_trajectory example_loads
    [{| role := Some "user";
        tool_calls :=
          ToolCalls
            [{| tc_function :=
                  Some {| fn_name := Some "book_flight";
                          fn_arguments := Some (ArgText "{}") |} |}] |}]
  = Improvements.extract_tool_calls_from_trajectory example_loads [].
Proof.
  apply (proj1 relevant_turns_by_variant example_loads [] []
           {| role := Some "user";
              tool_calls :=
                ToolCalls
                  [{| tc_function :=
                        Some {| fn_name := Some "book_flight";
                                fn_arguments := Some (ArgText "{}") |} |}]
           |}).
  reflexivity.
Defined.

(** ** Normalized arguments *)

Section Normalization.

Import Improvements.

Variable py_repr : value -> string.

(** A value that is not kept as it is meets only strings, by their text. *)
Lemma normalized_equality (ev av : value) :
  is_plain ev = false ->
  py_eq (normalize_value py_repr ev) (normalize_value py_repr av)
  = negb (is_plain av) && String.eqb (py_str py_repr ev) (py_str py_repr av).
Proof.
  intros H. rewrite !normalize_value_plain, H.
  destruct av; reflexivity.
Qed.

Lemma key_credit_all_or_nothing (expected_args actual_args : dict)
    (key : string) :
  key_credit py_repr expected_args actual_args key = 0 \/
  key_credit py_repr expected_args actual_args key = 1.
Proof.
  unfold key_credit. destruct (py_eq _ _); [now right|now left].
Qed.

(** The credit of a key whose expected value is a string, a list or a
    mapping. *)
Lemma key_credit_of_text (expected_args actual_args : dict) (key : string)
    (ev : value) :
  dict_get key expected_args = Some ev ->
  is_plain ev = false ->
  key_credit py_repr expected_args actual_args key
  = match dict_get key actual_args with
    | Some av =>
        if negb (is_plain av)
           && String.eqb (py_str py_repr ev) (py_str py_repr av)
        then 1 else 0
    | None => 0
    end.
Proof.
  intros Hget Hplain. unfold key_credit, get_or_none.
  rewrite !normalize_args_get, Hget.
  destruct (dict_get key actual_args) as [av|];
    cbn [option_map from_option id].
  - now rewrite normalized_equality.
  - rewrite normalize_value_plain, Hplain. reflexivity.
Qed.

End Normalization.

(** ** The display of a list of integers *)

Section IntegerDisplays.

Lemma uint_digits_comma_free (d : Decimal.uint) :
  comma_free (NilEmpty.string_of_uint d).
Proof.
  unfold comma_free.
  induction d; cbn; [intros []|..]; intros [H|H];
    try discriminate H; now apply IHd.
Qed.

Lemma repr_int_comma_free (n : Z) : comma_free (repr_int n).
Proof.
  unfold repr_int, NilZero.string_of_int, NilZero.string_of_uint.
  destruct (Z.to_int n) as [d|d].
  - destruct d; try apply (uint_digits_comma_free (_ _)).
    cbn. intros [H|[]]. discriminate H.
  - unfold comma_free. cbn [list_ascii_of_string]. intros [H|H].
    + discriminate H.
    + revert H. destruct d; try apply (uint_digits_comma_free (_ _)).
      cbn. intros [H|[]]. discriminate H.
Qed.

Lemma repr_int_nonempty (n : Z) : repr_int n <> EmptyString.
Proof.
  unfold repr_int, NilZero.string_of_int, NilZero.string_of_uint.
  destruct (Z.to_int n) as [d|d]; [|discriminate].
  destruct d; discriminate.
Qed.

Lemma to_int_not_nil (n : Z) :
  Z.to_int n <> Decimal.Pos Decimal.Nil /\ Z.to_int n <> Decimal.Neg Decimal.Nil.
Proof.
  split; intros H;
    assert (E : n = 0%Z) by (now rewrite <- (DecimalZ.of_to n), H);
    subst n; vm_compute in H; discriminate H.
Qed.

Lemma repr_int_inj (n n' : Z) : repr_int n = repr_int n' -> n = n'.
Proof.
  unfold repr_int. intros H.
  apply (f_equal NilZero.int_of_string) in H.
  destruct (to_int_not_nil n) as [Hp Hn].
  destruct (to_int_not_nil n') as [Hp' Hn'].
  rewrite !NilZero.isi in H by assumption.
  injection H as H. now apply DecimalZ.to_int_inj.
Qed.

(** Two texts without a comma that are followed by nothing or by a comma
    are the same text when the whole texts are. *)
Lemma comma_free_prefix (s t rest rest' : string) :
  comma_free s -> comma_free t ->
  (rest = EmptyString \/ exists r, rest = String "," r) ->
  (rest' = EmptyString \/ exists r, rest' = String "," r) ->
  (s ++ rest = t ++ rest')%string -> s = t /\ rest = rest'.
Proof.
  unfold comma_free. revert t.
  induction s as [|c s IH]; intros [|c' t] Hs Ht Hrest Hrest' H;
    unfold String.append in H; fold String.append in H;
    cbn [list_ascii_of_string In] in Hs, Ht.
  - now split.
  - exfalso. subst rest. destruct Hrest as [E|[r E]]; [discriminate E|].
    injection E as -> _. apply Ht. now left.
  - exfalso. subst rest'. destruct Hrest' as [E|[r E]]; [discriminate E|].
    injection E as -> _. apply Hs. now left.
  - injection H as -> H.
    destruct (IH t) with (5 := H) as [-> ->]; try assumption; tauto.
Qed.

Lemma append_empty (s : string) : (s ++ EmptyString)%string = s.
Proof.
  induction s as [|c s IH]; [reflexivity|].
  unfold String.append; fold String.append. now rewrite IH.
Qed.

Lemma list_ascii_of_append (s u : string) :
  list_ascii_of_string (s ++ u)%string
  = list_ascii_of_string s ++ list_ascii_of_string u.
Proof.
  induction s as [|c s IH]; [reflexivity|].
  unfold String.append; fold String.append.
  cbn [list_ascii_of_string app]. now rewrite IH.
Qed.

Lemma append_cancel_r (s t u : string) :
  (s ++ u = t ++ u)%string -> s = t.
Proof.
  intros H. apply (f_equal list_ascii_of_string) in H.
  rewrite !list_ascii_of_append in H. apply app_inv_tail in H.
  apply (f_equal string_of_list_ascii) in H.
  now rewrite !string_of_list_ascii_of_string in H.
Qed.

Lemma display_of_integers_inj (l r : list Z) :
  String.concat ", " (map repr_int l) = String.concat ", " (map repr_int r) ->
  l = r.
Proof.
  revert r. induction l as [|n l IH]; intros [|n' r] H.
  - reflexivity.
  - exfalso. cbn in H. destruct (map repr_int r).
    + now apply (repr_int_nonempty n').
    + destruct (repr_int n') eqn:E; [now apply (repr_int_nonempty n')|].
      discriminate H.
  - exfalso. cbn in H. destruct (map repr_int l).
    + now apply (repr_int_nonempty n).
    + destruct (repr_int n) eqn:E; [now apply (repr_int_nonempty n)|].
      discriminate H.
  - assert (Hsplit :
              forall (x : Z) (xs : list Z),
                String.concat ", " (map repr_int (x :: xs))
                = (repr_int x
                   ++ match xs with
                      | [] => EmptyString
                      | _ :: _ => ", " ++ String.concat ", " (map repr_int xs)
                      end)%string).
    { intros x [|y xs]; cbn [map String.concat].
      - now rewrite append_empty.
      - reflexivity. }
    rewrite !Hsplit in H.
    apply comma_free_prefix in H as [Hn Hrest];
      try apply repr_int_comma_free.
    + apply repr_int_inj in Hn as ->. f_equal.
      apply IH. destruct l as [|m l], r as [|m' r]; try discriminate Hrest.
      * reflexivity.
      * cbn [append] in Hrest. now injection Hrest.
    + destruct l; [now left|right; now eexists].
    + destruct r; [now left|right; now eexists].
Qed.

End IntegerDisplays.

(** C10. In the improvements script [normalize_args] keeps a null, a
    boolean and a number as they are and replaces every other value, a
    nested mapping or sequence included, by its [str]: a string by itself,
    a list or a mapping by its display.  Such a value then agrees only with
    a value that is replaced too and has the same string.
    [compare_arguments] gives every key the credit 0 or 1 and divides the
    sum by the number of keys: a key with a nested value earns all or
    nothing.  So two lists of integers earn the credit 1 when they are the
    same list and 0 otherwise, whatever items they share, and a list or a
    mapping agrees with the string that spells its display. *)
Theorem nested_arguments_all_or_nothing :
  (forall (py_repr : value -> string) (v : value),
     Improvements.normalize_value py_repr v
     = if is_plain v then v else VStr (Improvements.py_str py_repr v)) /\
  (forall (py_repr : value -> string) (args : dict) (key : string),
     dict_get key (Improvements.normalize_args py_repr args)
     = option_map (Improvements.normalize_value py_repr) (dict_get key args)) /\
  (forall (py_repr : value -> string) (ev av : value),
     is_plain ev = false ->
     py_eq (Improvements.normalize_value py_repr ev)
           (Improvements.normalize_value py_repr av)
     = negb (is_plain av)
       && String.eqb (Improvements.py_str py_repr ev)
                     (Improvements.py_str py_repr av)) /\
  (forall (py_repr : value -> string) (expected_args actual_args : dict)
          (key : string),
     key_credit py_repr expected_args actual_args key = 0 \/
     key_credit py_repr expected_args actual_args key = 1) /\
  (forall (py_repr : value -> string) (expected_args actual_args : dict)
          (key : string) (ev : value),
     dict_get key expected_args = Some ev ->
     is_plain ev = false ->
     key_credit py_repr expected_args actual_args key
     = match dict_get key actual_args with
       | Some av =>
           if negb (is_plain av)
              && String.eqb (Improvements.py_str py_repr ev)
                            (Improvements.py_str py_repr av)
           then 1 else 0
       | None => 0
       end) /\
  (forall (py_repr : value -> string) (expected_args actual_args : dict),
     Improvements.compare_arguments py_repr expected_args actual_args
     == if is_empty expected_args && is_empty actual_args then 1
        else
          sum_of (map (key_credit py_repr expected_args actual_args)
                      (elements (keys_of_both expected_args actual_args)))
          / len (elements (keys_of_both expected_args actual_args))) /\
  (forall (py_repr : value -> string) (s : string),
     Improvements.py_str py_repr (VStr s) = s) /\
  (forall (py_repr : value -> string) (l : list value),
     Improvements.py_str py_repr (VList l) = py_repr (VList l)) /\
  (forall (py_repr : value -> string) (d : dict),
     Improvements.py_str py_repr (VDict d) = py_repr (VDict d)) /\
  (forall (repr_finite : Z -> Z -> string) (l : list value),
     python_repr repr_finite (VList l)
     = ("[" ++ String.concat ", " (map (python_repr repr_finite) l)
        ++ "]")%string) /\
  (forall (repr_finite : Z -> Z -> string) (d : dict),
     python_repr repr_finite (VDict d)
     = ("{"
        ++ String.concat ", "
             (map (fun item : string * value =>
                     repr_str (fst item) ++ ": "
                     ++ python_repr repr_finite (snd item)) d)
        ++ "}")%string) /\
  (forall (repr_finite : Z -> Z -> string),
     python_repr repr_finite VNone = "None"%string /\
     python_repr repr_finite (VBool true) = "True"%string /\
     python_repr repr_finite (VBool false) = "False"%string /\
     python_repr repr_finite (VInt 42) = "42"%string /\
     python_repr repr_finite (VInt (-7)) = "-7"%string /\
     python_repr repr_finite (VStr "A1") = "'A1'"%string) /\
  (forall (repr_finite : Z -> Z -> string) (expected_args actual_args : dict)
          (key : string) (l r : list Z),
     dict_get key expected_args = Some (VList (map VInt l)) ->
     dict_get key actual_args = Some (VList (map VInt r)) ->
     (l = r ->
      key_credit (python_repr repr_finite) expected_args actual_args key = 1) /\
     (l <> r ->
      key_credit (python_repr repr_finite) expected_args actual_args key
      = 0)) /\
  (forall (repr_finite : Z -> Z -> string) (expected_args actual_args : dict)
          (key : string) (ev : value),
     dict_get key expected_args = Some ev ->
     pytype_eqb (type_of ev) TList || pytype_eqb (type_of ev) TDict = true ->
     dict_get key actual_args = Some (VStr (python_repr repr_finite ev)) ->
     key_credit (python_repr repr_finite) expected_args actual_args key = 1).
Proof.
  split; [|split; [|split; [|split; [|split; [|split; [|split; [|split;
    [|split; [|split; [|split; [|split; [|split]]]]]]]]]]]].
  - intros py_repr v. apply normalize_value_plain.
  - intros py_repr args key. apply normalize_args_get.
  - intros py_repr ev av. apply normalized_equality.
  - intros py_repr expected_args actual_args key.
    apply key_credit_all_or_nothing.
  - intros py_repr expected_args actual_args key ev.
    apply key_credit_of_text.
  - intros py_repr expected_args actual_args.
    apply compare_arguments_credits.
  - reflexivity.
  - reflexivity.
  - reflexivity.
  - reflexivity.
  - reflexivity.
  - intros repr_finite. repeat split.
  - intros repr_finite expected_args actual_args key l r He Ha.
    rewrite (key_credit_of_text _ _ _ _ _ He eq_refl), Ha.
    cbn [is_plain negb andb Improvements.py_str python_repr].
    split.
    + intros ->. now rewrite String.eqb_refl.
    + intros Hneq.
      destruct (String.eqb_spec
                  ("[" ++ String.concat ", "
                            (map (python_repr repr_finite) (map VInt l))
                   ++ "]")%string
                  ("[" ++ String.concat ", "
                            (map (python_repr repr_finite) (map VInt r))
                   ++ "]")%string) as [E|_]; [|reflexivity].
      exfalso. apply Hneq. apply display_of_integers_inj.
      rewrite !map_map in E. cbn [python_repr] in E.
      unfold String.append in E; fold String.append in E.
      injection E as E. now apply append_cancel_r in E.
  - intros repr_finite expected_args actual_args key ev He Hev Ha.
    assert (Hplain : is_plain ev = false) by (destruct ev; easy).
    rewrite (key_credit_of_text _ _ _ _ _ He Hplain), Ha.
    cbn [is_plain negb andb Improvements.py_str].
    assert (Hstr : Improvements.py_str (python_repr repr_finite) ev
                   = python_repr repr_finite ev) by (destruct ev; easy).
    now rewrite Hstr, String.eqb_refl.
Qed.

(** C10 at nested values: a list of two mappings earns nothing against a
    list that differs in one name, a mapping earns nothing against the
    same mapping with its keys in another order, and a list of integers
    earns nothing against a list that shares its first item. *)
Lemma nested_arguments_all_or_nothing_witness :
  Improvements.py_str (python_repr example_repr_finite)
    (VList [VDict [("name", VStr "Ann"); ("bags", VInt 2)]; VNone])
  = "[{'name': 'Ann', 'bags': 2}, None]"%string /\
  key_credit (python_repr example_repr_finite)
    [("passengers",
      VList [VDict [("name", VStr "Ann")]; VDict [("name", VStr "Bob")]])]
    [("passengers",
      VList [VDict [("name", VStr "Ann")]; VDict [("name", VStr "Bo")]])]
    "passengers"
  = 0 /\
  key_credit (python_repr example_repr_finite)
    [("seat", VDict [("row", VInt 1); ("letter", VStr "A")])]
    [("seat", VDict [("letter", VStr "A"); ("row", VInt 1)])]
    "seat"
  = 0 /\
  key_credit (python_repr example_repr_finite)
    [("rows", VList (map VInt [1; 2]%Z))]
    [("rows", VList (map VInt [1; 3]%Z))]
    "rows"
  = 0.
Proof.
  split; [|split; [|split]].
  - vm_compute. reflexivity.
  - etransitivity.
    + apply (proj1 (proj2 (proj2 (proj2 (proj2
               nested_arguments_all_or_nothing))))
               (python_repr example_repr_finite)
               [("passengers",
                 VList [VDict [("name", VStr "Ann")];
                        VDict [("name", VStr "Bob")]])]
               [("passengers",
                 VList [VDict [("name", VStr "Ann")];
                        VDict [("name", VStr "Bo")]])]
               "passengers"
               (VList [VDict [("name", VStr "Ann")];
                       VDict [("name", VStr "Bob")]]));
        reflexivity.
    + vm_compute. reflexivity.
  - etransitivity.
    + apply (proj1 (proj2 (proj2 (proj2 (proj2
               nested_arguments_all_or_nothing))))
               (python_repr example_repr_finite)
               [("seat", VDict [("row", VInt 1); ("letter", VStr "A")])]
               [("seat", VDict [("letter", VStr "A"); ("row", VInt 1)])]
               "seat"
               (VDict [("row", VInt 1); ("letter", VStr "A")]));
        reflexivity.
    + vm_compute. reflexivity.
  - apply (proj2
             (proj1 (proj2 (proj2 (proj2 (proj2 (proj2 (proj2 (proj2 (proj2
                (proj2 (proj2 (proj2 (proj2
                nested_arguments_all_or_nothing))))))))))))
                example_repr_finite
                [("rows", VList (map VInt [1; 2]%Z))]
                [("rows", VList (map VInt [1; 3]%Z))]
                "rows" [1; 2]%Z [1; 3]%Z eq_refl eq_refl)).
    discriminate.
Defined.

(** The scenario of C6 under the equal weights of the improvements script
    scores three quarters. *)
Lemma update_user_under_equal_weights :
  Improvements.candidate_score example_repr
    {| name := "update_user";
       kwargs := [("email", VStr "a@b.com"); ("age", VInt 30)] |}
    {| tool_name := "update_user";
       arguments := [("email", VStr "a@b.com"); ("age", VInt 99)] |}
  == 3 # 4.
Proof.
  vm_compute. reflexivity.
Qed.

(** ** More on the recursive similarity *)

Section MaximumLoop.

Context {A : Type}.

Lemma py_max_loop_ge_start (g : A -> Q) (l : list A) :
  forall start,
  start <= fold_left (fun best x => py_max best (g x)) l start.
Proof.
  induction l as [|x l IH]; intros start; cbn [fold_left]; [lra|].
  specialize (IH (py_max start (g x))).
  destruct (py_max_case start (g x)) as [[L E]|[L E]]; rewrite E in *; lra.
Qed.

(** The loop ends at or above every candidate. *)
Lemma py_max_loop_upper (g : A -> Q) (l : list A) :
  forall start x, In x l ->
  g x <= fold_left (fun best y => py_max best (g y)) l start.
Proof.
  induction l as [|y l IH]; intros start x Hin; [destruct Hin|].
  cbn [fold_left]. destruct Hin as [<-|Hin]; [|now apply IH].
  pose proof (py_max_loop_ge_start g l (py_max start (g y))) as H.
  destruct (py_max_case start (g y)) as [[L E]|[L E]]; rewrite E in *; lra.
Qed.

(** The loop ends at its start or at one of the candidates. *)
Lemma py_max_loop_attained (g : A -> Q) (l : list A) :
  forall start,
  fold_left (fun best y => py_max best (g y)) l start = start \/
  exists x, In x l /\
    fold_left (fun best y => py_max best (g y)) l start = g x.
Proof.
  induction l as [|y l IH]; intros start; cbn [fold_left]; [now left|].
  destruct (IH (py_max start (g y))) as [E|(x & Hin & E)].
  - rewrite E.
    destruct (py_max_case start (g y)) as [[_ E']|[_ E']]; rewrite E'.
    + now left.
    + right. exists y. split; [now left|reflexivity].
  - right. exists x. split; [now right|exact E].
Qed.

(** Two orders of the same candidates end at the same maximum. *)
Lemma py_max_loop_same_members (g : A -> Q) (l l' : list A) (start : Q) :
  (forall x, In x l -> In x l') ->
  fold_left (fun best y => py_max best (g y)) l start
  <= fold_left (fun best y => py_max best (g y)) l' start.
Proof.
  intros Hsub.
  destruct (py_max_loop_attained g l start) as [E|(x & Hin & E)]; rewrite E.
  - apply py_max_loop_ge_start.
  - apply py_max_loop_upper. now apply Hsub.
Qed.

End MaximumLoop.

Section EqualValues.

Lemma py_eq_list_elementwise (l r : list value) :
  py_eq (VList l) (VList r) = true <->
  Forall2 (fun x y => same_item x y = true) l r.
Proof.
  cbn [py_eq]. revert r.
  induction l as [|x l IH]; intros [|y r]; split; intros H;
    try discriminate; try (now constructor); try (now inversion H).
  - apply andb_prop in H as [Hxy H]. constructor; [exact Hxy|now apply IH].
  - inversion H as [|? ? ? ? Hxy Hrest]; subst.
    apply andb_true_intro. split; [exact Hxy|now apply IH].
Qed.

Lemma py_eq_dict_intro (d c : dict) :
  length d = length c ->
  (forall item, In item d ->
     exists w, dict_get (fst item) c = Some w /\
               same_item (snd item) w = true) ->
  py_eq (VDict d) (VDict c) = true.
Proof.
  intros Hlen H. cbn [py_eq]. apply andb_true_intro. split.
  - now apply Nat.eqb_eq.
  - clear Hlen. induction d as [|[k v] d IH]; [reflexivity|].
    destruct (H (k, v) (or_introl eq_refl)) as (w & Hw & E).
    cbn [fst snd] in Hw, E. rewrite Hw. unfold same_item in E. rewrite E.
    cbn [andb]. apply IH. intros item Hin. apply H. now right.
Qed.

Lemma existsb_eqb_false (key : string) (keys : list string) :
  existsb (String.eqb key) keys = false -> ~ In key keys.
Proof.
  intros H Hin. assert (existsb (String.eqb key) keys = true); [|congruence].
  apply existsb_exists. exists key. split; [exact Hin|apply String.eqb_refl].
Qed.

(** A mapping with distinct keys binds each of its keys to its value. *)
Lemma dict_get_own_item (d : dict) (key : string) (v : value) :
  distinct (map fst d) = true -> In (key, v) d -> dict_get key d = Some v.
Proof.
  induction d as [|[k w] d IH]; intros Hd Hin; [destruct Hin|].
  cbn [map fst distinct] in Hd. apply andb_prop in Hd as [Hfresh Hd].
  apply negb_true_iff, existsb_eqb_false in Hfresh.
  cbn [dict_get]. destruct Hin as [E|Hin].
  - injection E as -> ->. now rewrite String.eqb_refl.
  - destruct (String.eqb_spec key k) as [->|_]; [|now apply IH].
    exfalso. apply Hfresh. change k with (fst (k, v)). now apply in_map.
Qed.

Lemma number_eqb_refl_fin (m e : Z) : dyadic_eqb m e m e = true.
Proof.
  unfold dyadic_eqb. apply Z.eqb_refl.
Qed.

(** [v == v] holds of a value of distinct keys, unless it is itself a
    not-a-number; a not-a-number inside it is the same item on both
    sides. *)
Lemma py_eq_refl (v : value) :
  unique_keys v = true -> is_nan v = false -> py_eq v v = true.
Proof.
  induction v as [| b | n | f | s | l IH | d IH] using value_ind;
    intros Hkeys Hnan.
  - reflexivity.
  - destruct b; reflexivity.
  - cbn. apply number_eqb_refl_fin.
  - destruct f as [|negative|m e]; [discriminate Hnan| |].
    + cbn. now destruct negative.
    + cbn. apply number_eqb_refl_fin.
  - cbn. apply String.eqb_refl.
  - apply py_eq_list_elementwise.
    cbn [unique_keys] in Hkeys. clear Hnan.
    induction l as [|x l IHl]; [constructor|].
    cbn [forallb] in Hkeys.
    apply andb_prop in Hkeys as [Hx Hkeys].
    inversion IH as [|? ? IHx IHrest]; subst.
    constructor; [|now apply IHl].
    unfold same_item. destruct (is_nan x) eqn:Nx; [reflexivity|].
    now apply IHx.
  - cbn [unique_keys] in Hkeys. clear Hnan.
    apply andb_prop in Hkeys as [Hdistinct Hkeys].
    apply py_eq_dict_intro; [reflexivity|].
    intros [key v] Hin. exists v. cbn [fst snd]. split.
    + now apply dict_get_own_item.
    + rewrite List.Forall_forall in IH.
      rewrite forallb_forall in Hkeys.
      unfold same_item. destruct (is_nan v) eqn:Nv; [reflexivity|].
      apply (IH (key, v) Hin); [apply (Hkeys (key, v) Hin)|exact Nv].
Qed.

End EqualValues.

Section MoreCompareValues.

Import Repo.

Lemma best_match_of_bounds (act : list value) (exp_item : value) :
  0 <= best_match_of compare_values act exp_item <= 1.
Proof.
  unfold best_match_of.
  apply (fold_left_py_max_bounds (compare_values exp_item) act 1); [|lra].
  intros y _. apply compare_values_bounds.
Qed.

(** An expected item that equals an actual item has the best match 1. *)
Lemma best_match_of_equal (act : list value) (exp_item act_item : value) :
  In act_item act -> py_eq exp_item act_item = true ->
  best_match_of compare_values act exp_item == 1.
Proof.
  intros Hin Heq. apply Qle_antisym; [apply best_match_of_bounds|].
  rewrite <- (compare_values_equal _ _ Heq).
  unfold best_match_of.
  apply (py_max_loop_upper (compare_values exp_item) act 0 act_item Hin).
Qed.

Lemma covered_items_score_one (exp act : list value) :
  (forall x, In x exp -> exists y, In y act /\ py_eq x y = true) ->
  sequence_similarity compare_values exp act == 1.
Proof.
  intros H. unfold sequence_similarity.
  destruct exp as [|x exp]; [reflexivity|]. cbn [is_empty].
  destruct act as [|y act].
  - destruct (H x (or_introl eq_refl)) as (? & [] & _).
  - cbn [is_empty]. rewrite sum_of_all_ones.
    + apply whole_over_itself. now apply len_pos.
    + intros z Hz. destruct (H z Hz) as (w & Hw & E).
      now apply (best_match_of_equal _ z w).
Qed.

Lemma Forall2_partner {A B : Type} (P : A -> B -> Prop) (l : list A)
    (r : list B) :
  Forall2 P l r -> forall x, In x l -> exists y, In y r /\ P x y.
Proof.
  induction 1 as [|a b l r Hab _ IH]; intros x Hin; [destruct Hin|].
  destruct Hin as [<-|Hin].
  - exists b. split; [now left|exact Hab].
  - destruct (IH x Hin) as (y & Hy & Hxy). exists y. split; [now right|exact Hxy].
Qed.

(** On two sequences that are not equal [compare_values] is the
    similarity by cases. *)
Lemma compare_values_sequence_unequal (exp act : list value) :
  py_eq (VList exp) (VList act) = false ->
  compare_values (VList exp) (VList act)
  == sequence_similarity compare_values exp act.
Proof.
  intros Heq. cbn [compare_values]. rewrite Heq.
  cbn [type_of pytype_eqb negb]. unfold sequence_similarity.
  destruct act as [|y act]; cbn [is_empty].
  - destruct exp; reflexivity.
  - destruct exp as [|x exp]; [reflexivity|]. cbn [is_empty].
    rewrite list_loop_sum, Qplus_0_l. reflexivity.
Qed.

Lemma compare_values_sequence_cases (exp act : list value) :
  compare_values (VList exp) (VList act)
  == if py_eq (VList exp) (VList act) then 1
     else sequence_similarity compare_values exp act.
Proof.
  destruct (py_eq (VList exp) (VList act)) eqn:Heq.
  - now rewrite (compare_values_equal _ _ Heq).
  - now apply compare_values_sequence_unequal.
Qed.

(** When no expected item is a not-a-number, the first early return
    agrees with the similarity by cases too. *)
Lemma compare_values_sequence (exp act : list value) :
  (forall x, In x exp -> is_nan x = false) ->
  compare_values (VList exp) (VList act)
  == sequence_similarity compare_values exp act.
Proof.
  intros Hnan. rewrite compare_values_sequence_cases.
  destruct (py_eq (VList exp) (VList act)) eqn:Heq; [|reflexivity].
  symmetry. apply covered_items_score_one.
  apply py_eq_list_elementwise in Heq.
  intros x Hx. destruct (Forall2_partner _ _ _ Heq x Hx) as (y & Hy & E).
  exists y. split; [exact Hy|].
  apply same_item_equal; [now apply Hnan|exact E].
Qed.

(** X1. [compare_values] scores a value against itself 1 when its mappings
    have distinct keys, unless the value is itself a not-a-number, which
    scores 0 against itself.  A not-a-number inside a list or a mapping
    does not prevent the score 1: the two containers are equal, their
    items being the same object; it is only when the containers differ
    elsewhere that the not-a-number is compared by itself and earns 0. *)
Theorem identical_values_score_one :
  (forall v : value,
     unique_keys v = true -> is_nan v = false -> compare_values v v = 1) /\
  compare_values (VFloat FNan) (VFloat FNan) = 0 /\
  compare_values (VList [VFloat FNan]) (VList [VFloat FNan]) = 1 /\
  compare_values (VDict [("limit", VFloat FNan)])
                 (VDict [("limit", VFloat FNan)]) = 1 /\
  compare_values (VList [VFloat FNan]) (VList [VFloat FNan; VInt 1]) == 0.
Proof.
  split; [|split; [|split; [|split]]].
  - intros v Hkeys Hnan. apply compare_values_equal. now apply py_eq_refl.
  - reflexivity.
  - reflexivity.
  - reflexivity.
  - vm_compute. reflexivity.
Qed.

(** X1 at a nested mapping with a not-a-number in a list. *)
Lemma identical_values_score_one_witness :
  compare_values
    (VDict [("seat", VStr "A1"); ("bags", VList [VInt 1; VFloat FNan])])
    (VDict [("seat", VStr "A1"); ("bags", VList [VInt 1; VFloat FNan])])
  = 1.
Proof.
  apply (proj1 identical_values_score_one); reflexivity.
Defined.

(** X2. On two sequences [compare_values] returns 1 when they are equal,
    and otherwise 1 for an empty expected sequence, 0 for a non-empty
    expected sequence against an empty actual one, and else the mean over
    the expected items of their best match among the actual items.  When
    no expected item is a not-a-number these cases give the result for
    equal sequences too.  So the result is 1 whenever every expected item
    equals some actual item, in any order and with repetition. *)
Theorem sequence_similarity_by_cases :
  (forall exp act : list value,
     compare_values (VList exp) (VList act)
     == if py_eq (VList exp) (VList act) then 1
        else sequence_similarity compare_values exp act) /\
  (forall exp act : list value,
     (forall x, In x exp -> is_nan x = false) ->
     compare_values (VList exp) (VList act)
     == sequence_similarity compare_values exp act) /\
  (forall exp act : list value,
     (forall x, In x exp -> exists y, In y act /\ py_eq x y = true) ->
     compare_values (VList exp) (VList act) == 1).
Proof.
  split; [|split].
  - apply compare_values_sequence_cases.
  - apply compare_values_sequence.
  - intros exp act H. rewrite compare_values_sequence_cases.
    destruct (py_eq (VList exp) (VList act)); [reflexivity|].
    now apply covered_items_score_one.
Qed.

(** X2 at three expected items covered by two actual items, and at two
    sequences with one common item out of two. *)
Lemma sequence_similarity_by_cases_witness :
  compare_values (VList [VStr "b"; VStr "a"; VStr "b"])
                 (VList [VStr "a"; VStr "b"])
  == 1 /\
  compare_values (VList [VStr "a"; VStr "c"]) (VList [VStr "a"; VStr "b"])
  == sequence_similarity compare_values [VStr "a"; VStr "c"]
       [VStr "a"; VStr "b"].
Proof.
  split.
  - apply (proj2 (proj2 sequence_similarity_by_cases)).
    intros x [<-|[<-|[<-|[]]]].
    + exists (VStr "b"). split; [right; now left|reflexivity].
    + exists (VStr "a"). split; [now left|reflexivity].
    + exists (VStr "b"). split; [right; now left|reflexivity].
  - apply (proj1 (proj2 sequence_similarity_by_cases)).
    intros x [<-|[<-|[]]]; reflexivity.
Defined.

(** X3. An actual mapping that binds every expected key to an equal value
    scores 1 in [compare_values], whatever else it binds. *)
Theorem extended_mapping_scores_one (exp act : dict) :
  (forall item, In item exp ->
     exists w, dict_get (fst item) act = Some w /\ py_eq (snd item) w = true) ->
  compare_values (VDict exp) (VDict act) == 1.
Proof.
  intros H. rewrite compare_values_mapping_cases.
  destruct (py_eq (VDict exp) (VDict act)); [reflexivity|].
  unfold reference_mapping_similarity.
  destruct (is_empty exp) eqn:Hexp; [reflexivity|].
  rewrite sum_of_all_ones.
  - apply whole_over_itself. now apply len_pos.
  - intros item Hin. destruct (H item Hin) as (w & Hw & E).
    unfold key_contribution. rewrite Hw.
    now rewrite (compare_values_equal _ _ E).
Qed.

(** X3 at an actual mapping with one more key. *)
Lemma extended_mapping_scores_one_witness :
  compare_values (VDict [("seat", VStr "A1")])
                 (VDict [("meal", VStr "veg"); ("seat", VStr "A1")])
  == 1.
Proof.
  apply extended_mapping_scores_one.
  intros item [<-|[]]. exists (VStr "A1"). split; reflexivity.
Defined.

(** X4. [compare_values] gives no partial credit outside sequences and
    mappings: an expected value of another type scores 1 when it equals the
    actual value and 0 otherwise; and an expected value that is no number
    scores 0 against every value of another type. *)
Theorem scalars_all_or_nothing :
  (forall expected actual : value,
     pytype_eqb (type_of expected) TList = false ->
     pytype_eqb (type_of expected) TDict = false ->
     compare_values expected actual = if py_eq expected actual then 1 else 0) /\
  (forall expected actual : value,
     number_of expected = None ->
     pytype_eqb (type_of expected) (type_of actual) = false ->
     compare_values expected actual = 0).
Proof.
  split.
  - intros expected actual HL HD.
    destruct expected; try discriminate; cbn [compare_values];
      destruct (py_eq _ actual); try reflexivity;
      destruct (negb _); reflexivity.
  - intros expected actual Hnum Htypes.
    assert (Hneq : py_eq expected actual = false)
      by (destruct expected as [| | |f| | |]; try discriminate Hnum;
          try (destruct f; discriminate Hnum);
          destruct actual; try discriminate Htypes; reflexivity).
    destruct expected; cbn [compare_values]; rewrite Hneq, Htypes;
      reflexivity.
Qed.

(** X4 at two strings, and at a mapping against a string. *)
Lemma scalars_all_or_nothing_witness :
  compare_values (VStr "A1") (VStr "A2")
  = (if py_eq (VStr "A1") (VStr "A2") then 1 else 0) /\
  compare_values (VDict [("seat", VStr "A1")]) (VStr "A1") = 0.
Proof.
  split.
  - apply (proj1 scalars_all_or_nothing); reflexivity.
  - apply (proj2 scalars_all_or_nothing); reflexivity.
Defined.

End MoreCompareValues.

(** ** More on the scorer of the tau-bench-repo script *)

Section MorePartialScore.

Import Repo.

Lemma best_score_upper (expected : ExpectedAction)
    (actual_calls : list ToolInvocation) (actual : ToolInvocation) :
  In actual actual_calls ->
  candidate_score expected actual <= best_score expected actual_calls.
Proof.
  intros Hin. unfold best_score.
  apply (py_max_loop_upper (candidate_score expected) actual_calls 0 actual Hin).
Qed.

Lemma best_score_attained (expected : ExpectedAction)
    (actual_calls : list ToolInvocation) :
  best_score expected actual_calls = 0 \/
  exists actual, In actual actual_calls /\
    best_score expected actual_calls = candidate_score expected actual.
Proof.
  unfold best_score.
  apply (py_max_loop_attained (candidate_score expected) actual_calls 0).
Qed.

Lemma best_score_more_calls (expected : ExpectedAction)
    (actual_calls actual_calls' : list ToolInvocation) :
  (forall actual, In actual actual_calls -> In actual actual_calls') ->
  best_score expected actual_calls <= best_score expected actual_calls'.
Proof.
  intros H. unfold best_score.
  now apply (py_max_loop_same_members (candidate_score expected)).
Qed.

Lemma calculate_partial_score_more_calls (expected : ExpectedAction)
    (rest : list ExpectedAction)
    (actual_calls actual_calls' : list ToolInvocation) :
  (forall actual, In actual actual_calls -> In actual actual_calls') ->
  calculate_partial_score (expected :: rest) actual_calls
  <= calculate_partial_score (expected :: rest) actual_calls'.
Proof.
  intros H. rewrite !calculate_partial_score_mean. unfold mean.
  assert (Hlen : forall calls,
             len (map (fun e => best_score e calls) (expected :: rest))
             == len (expected :: rest))
    by (intros; unfold len; now rewrite length_map).
  rewrite !Hlen.
  assert (Hpos : 0 < len (expected :: rest)) by now apply len_pos.
  apply Qmult_le_compat_r.
  - apply sum_of_le. intros e _. now apply best_score_more_calls.
  - apply Qlt_le_weak, Qinv_lt_0_compat, Hpos.
Qed.

(** X5. The inner loop of [calculate_partial_score] ends at the maximum of
    the candidate scores: at or above the score of every call, and equal to
    the score of one of them unless it is 0; over no call at all it is 0. *)
Theorem best_score_is_the_maximum (expected : ExpectedAction)
    (actual_calls : list ToolInvocation) :
  (forall actual, In actual actual_calls ->
     candidate_score expected actual <= best_score expected actual_calls) /\
  (best_score expected actual_calls = 0 \/
   exists actual, In actual actual_calls /\
     best_score expected actual_calls = candidate_score expected actual) /\
  best_score expected [] = 0.
Proof.
  split; [|split].
  - intros actual. apply best_score_upper.
  - apply best_score_attained.
  - reflexivity.
Qed.

(** X5 at one expected action and two calls of its name. *)
Lemma best_score_is_the_maximum_witness :
  candidate_score
    {| name := "book_flight"; kwargs := [("seat", VStr "A1")] |}
    {| tool_name := "book_flight"; arguments := [("seat", VStr "A1")] |}
  <= best_score
       {| name := "book_flight"; kwargs := [("seat", VStr "A1")] |}
       [{| tool_name := "book_flight"; arguments := [("seat", VStr "B2")] |};
        {| tool_name := "book_flight"; arguments := [("seat", VStr "A1")] |}].
Proof.
  apply (proj1 (best_score_is_the_maximum _ _)). right. now left.
Defined.

(** X6. With at least one expected action, [calculate_partial_score]
    never falls when calls are added: if every call of one list is in the
    other the score of the first is at most that of the second, and two
    lists with the same calls, in any order and with any repetition, score
    the same. *)
Theorem more_calls_never_lower_the_score (expected : ExpectedAction)
    (rest : list ExpectedAction)
    (actual_calls actual_calls' : list ToolInvocation) :
  (forall actual, In actual actual_calls -> In actual actual_calls') ->
  calculate_partial_score (expected :: rest) actual_calls
  <= calculate_partial_score (expected :: rest) actual_calls' /\
  ((forall actual, In actual actual_calls' -> In actual actual_calls) ->
   calculate_partial_score (expected :: rest) actual_calls
   == calculate_partial_score (expected :: rest) actual_calls').
Proof.
  intros H. split.
  - now apply calculate_partial_score_more_calls.
  - intros H'. apply Qle_antisym;
      now apply calculate_partial_score_more_calls.
Qed.

(** X6 at a pool and the same pool with one more call in front. *)
Lemma more_calls_never_lower_the_score_witness :
  calculate_partial_score
    [{| name := "book_flight"; kwargs := [("seat", VStr "A1")] |}]
    [{| tool_name := "book_flight"; arguments := [("seat", VStr "B2")] |}]
  <= calculate_partial_score
       [{| name := "book_flight"; kwargs := [("seat", VStr "A1")] |}]
       [{| tool_name := "book_flight"; arguments := [("seat", VStr "A1")] |};
        {| tool_name := "book_flight"; arguments := [("seat", VStr "B2")] |}].
Proof.
  apply (more_calls_never_lower_the_score _ [] _ _).
  intros actual Hin. now right.
Defined.

End MorePartialScore.

Section NamesAndPerfectMatches.

Import Repo.

(** A call of the expected name scores at least the name weight. *)
Lemma candidate_score_right_name (expected : ExpectedAction)
    (actual : ToolInvocation) :
  name expected = tool_name actual ->
  4 # 10 <= candidate_score expected actual.
Proof.
  intros H. unfold candidate_score. rewrite H, String.eqb_refl.
  pose proof (compare_values_bounds (VDict (kwargs expected))
                (VDict (arguments actual))).
  lra.
Qed.

(** A call of the expected name with equal arguments scores 1. *)
Lemma candidate_score_exact (expected : ExpectedAction)
    (actual : ToolInvocation) :
  name expected = tool_name actual ->
  py_eq (VDict (kwargs expected)) (VDict (arguments actual)) = true ->
  candidate_score expected actual == 1.
Proof.
  intros Hname Hargs. unfold candidate_score.
  rewrite Hname, String.eqb_refl, (compare_values_equal _ _ Hargs). lra.
Qed.

(** X8. The best score of an expected action is 0 when no call carries
    its name, and at least 0.4 when some call does, whatever the
    arguments. *)
Theorem name_match_decides_zero (expected : ExpectedAction)
    (actual_calls : list ToolInvocation) :
  ((forall actual, In actual actual_calls ->
      name expected <> tool_name actual) ->
   best_score expected actual_calls = 0) /\
  (forall actual, In actual actual_calls ->
     name expected = tool_name actual ->
     4 # 10 <= best_score expected actual_calls).
Proof.
  split.
  - intros H.
    destruct (best_score_attained expected actual_calls)
      as [E|(actual & Hin & E)]; [exact E|].
    rewrite E. apply candidate_score_wrong_name. now apply H.
  - intros actual Hin Hname.
    pose proof (best_score_upper expected actual_calls actual Hin).
    pose proof (candidate_score_right_name expected actual Hname).
    lra.
Qed.

(** X8 at a pool without the expected name, and at one with it. *)
Lemma name_match_decides_zero_witness :
  best_score
    {| name := "book_flight"; kwargs := [("seat", VStr "A1")] |}
    [{| tool_name := "cancel_flight"; arguments := [("seat", VStr "A1")] |}]
  = 0 /\
  4 # 10
  <= best_score
       {| name := "book_flight"; kwargs := [("seat", VStr "A1")] |}
       [{| tool_name := "book_flight"; arguments := [("seat", VStr "B2")] |}].
Proof.
  split.
  - apply (proj1 (name_match_decides_zero _ _)).
    intros actual [<-|[]]. discriminate.
  - apply (proj2 (name_match_decides_zero _ _)
             {| tool_name := "book_flight";
                arguments := [("seat", VStr "B2")] |}); [now left|reflexivity].
Defined.

(** X9. When every expected action has a call of its name with equal
    arguments, [calculate_partial_score] is 1; one call may serve several
    expected actions, and other calls do no harm. *)
Theorem exact_calls_score_one (expected : ExpectedAction)
    (rest : list ExpectedAction) (actual_calls : list ToolInvocation) :
  (forall e, In e (expected :: rest) ->
     exists actual, In actual actual_calls /\
       name e = tool_name actual /\
       py_eq (VDict (kwargs e)) (VDict (arguments actual)) = true) ->
  calculate_partial_score (expected :: rest) actual_calls == 1.
Proof.
  intros H. rewrite calculate_partial_score_mean. unfold mean.
  assert (Hlen : len (map (fun e => best_score e actual_calls)
                          (expected :: rest))
                 == len (expected :: rest))
    by (unfold len; now rewrite length_map).
  rewrite Hlen, sum_of_all_ones.
  - apply whole_over_itself. now apply len_pos.
  - intros e Hin. destruct (H e Hin) as (actual & Hcall & Hname & Hargs).
    apply Qle_antisym; [apply best_score_bounds|].
    rewrite <- (candidate_score_exact e actual Hname Hargs).
    now apply best_score_upper.
Qed.

(** X9 at two expected actions served by one call, whose arguments are in
    another order. *)
Lemma exact_calls_score_one_witness :
  calculate_partial_score
    [{| name := "book_flight";
        kwargs := [("seat", VStr "A1"); ("bags", VInt 1)] |};
     {| name := "book_flight";
        kwargs := [("seat", VStr "A1"); ("bags", VInt 1)] |}]
    [{| tool_name := "get_user"; arguments := [] |};
     {| tool_name := "book_flight";
        arguments := [("bags", VInt 1); ("seat", VStr "A1")] |}]
  == 1.
Proof.
  apply exact_calls_score_one.
  intros e Hin.
  exists {| tool_name := "book_flight";
            arguments := [("bags", VInt 1); ("seat", VStr "A1")] |}.
  split; [right; now left|].
  destruct Hin as [<-|[<-|[]]]; split; reflexivity.
Defined.

End NamesAndPerfectMatches.

(** ** More on the extraction of the tool calls *)

Section MoreRepoExtraction.

Import Repo.

Variable json_loads : string -> option dict.

(** X10. [extract_tool_calls] of the tau-bench-repo script works turn by
    turn: the tool calls of two trajectories in a row are those of the
    first followed by those of the second, there is one tool call per
    record of the truthy [tool_calls] lists, and the names are those of the
    records, the empty string standing for an absent function or name. *)
Theorem repo_extraction_is_turn_by_turn :
  (forall earlier later : list turn,
     extract_tool_calls json_loads (earlier ++ later)
     = extract_tool_calls json_loads earlier
       ++ extract_tool_calls json_loads later) /\
  (forall trajectory : list turn,
     length (extract_tool_calls json_loads trajectory)
     = length (flat_map truthy_tool_calls trajectory)) /\
  (forall trajectory : list turn,
     map tool_name (extract_tool_calls json_loads trajectory)
     = map (fun call =>
              match tc_function call with
              | Some func => default EmptyString (fn_name func)
              | None => EmptyString
              end)
           (flat_map truthy_tool_calls trajectory)).
Proof.
  split; [|split].
  - intros earlier later.
    rewrite !extract_tool_calls_flat_map. apply flat_map_app.
  - intros trajectory. rewrite extract_tool_calls_flat_map.
    induction trajectory as [|message trajectory IH]; [reflexivity|].
    cbn [flat_map]. rewrite !length_app, length_map, IH. reflexivity.
  - intros trajectory. rewrite extract_tool_calls_flat_map.
    induction trajectory as [|message trajectory IH]; [reflexivity|].
    cbn [flat_map]. rewrite !map_app, IH, map_map. f_equal.
    apply map_ext. intros call. unfold extract_call.
    destruct (tc_function call); reflexivity.
Qed.

End MoreRepoExtraction.

Section MoreImprovementsExtraction.

Import Improvements.

Variable json_loads : string -> option dict.

Lemma extract_entries_relevant (traj : list turn) :
  forall collected : list ToolInvocation,
  extract_entries json_loads traj collected
  = extract_calls json_loads (relevant_calls traj) collected.
Proof.
  induction traj as [|entry traj IH]; intros collected; [reflexivity|].
  cbn [extract_entries relevant_calls flat_map].
  fold (relevant_calls traj).
  destruct (is_assistant entry); [|apply IH].
  destruct (tool_calls entry) as [| |calls]; try apply IH.
  rewrite extract_calls_app. apply bind_ext. exact IH.
Qed.

Lemma extract_calls_returns (calls : list tool_call_record) :
  forall collected extracted : list ToolInvocation,
  extract_calls json_loads calls collected = Return extracted <->
  exists invocations,
    Forall2 (fun call invocation =>
               extract_call json_loads call = Return invocation)
            calls invocations /\
    extracted = collected ++ invocations.
Proof.
  induction calls as [|call calls IH]; intros collected extracted;
    cbn [extract_calls].
  - split.
    + intros [= <-]. exists []. split; [constructor|now rewrite app_nil_r].
    + intros (invocations & H & ->). inversion H. now rewrite app_nil_r.
  - destruct (extract_call json_loads call) as [invocation|e] eqn:Hcall;
      cbn [bind].
    + rewrite IH. split.
      * intros (invocations & H & ->). exists (invocation :: invocations).
        split; [now constructor|now rewrite <- app_assoc].
      * intros (invocations & H & ->).
        inversion H as [|? i ? rest Hi Hrest]; subst.
        exists rest. split; [exact Hrest|].
        rewrite <- app_assoc. cbn. congruence.
    + split; [discriminate|].
      intros (invocations & H & _). inversion H; subst. congruence.
Qed.

Lemma extract_calls_first_failure (before after : list tool_call_record)
    (bad : tool_call_record) (e : exn) :
  forall collected : list ToolInvocation,
  (forall call, In call before ->
     exists invocation, extract_call json_loads call = Return invocation) ->
  extract_call json_loads bad = Raise e ->
  extract_calls json_loads (before ++ bad :: after) collected = Raise e.
Proof.
  induction before as [|call before IH]; intros collected Hok Hbad.
  - cbn [app extract_calls]. now rewrite Hbad.
  - cbn [app extract_calls].
    destruct (Hok call (or_introl eq_refl)) as (invocation & ->).
    cbn [bind]. apply IH; [|exact Hbad].
    intros c Hc. apply Hok. now right.
Qed.

(** X11. [extract_tool_calls_from_trajectory] of the improvements script
    returns a list exactly when every tool-call record of the relevant
    turns is extracted, and the list holds their tool calls in order. *)
Theorem extraction_returns_record_by_record (traj : list turn)
    (extracted : list ToolInvocation) :
  extract_tool_calls_from_trajectory json_loads traj = Return extracted <->
  Forall2 (fun call invocation =>
             extract_call json_loads call = Return invocation)
          (relevant_calls traj) extracted.
Proof.
  unfold extract_tool_calls_from_trajectory.
  rewrite extract_entries_relevant, extract_calls_returns.
  split.
  - intros (invocations & H & ->). exact H.
  - intros H. exists extracted. split; [exact H|reflexivity].
Qed.

(** X12. When the tool-call records of the relevant turns are extracted
    up to one that raises, [extract_tool_calls_from_trajectory] raises the
    exception of that record. *)
Theorem extraction_raises_the_first_failure (traj : list turn)
    (before after : list tool_call_record) (bad : tool_call_record)
    (e : exn) :
  relevant_calls traj = before ++ bad :: after ->
  (forall call, In call before ->
     exists invocation, extract_call json_loads call = Return invocation) ->
  extract_call json_loads bad = Raise e ->
  extract_tool_calls_from_trajectory json_loads traj = Raise e.
Proof.
  intros Hcalls Hok Hbad. unfold extract_tool_calls_from_trajectory.
  rewrite extract_entries_relevant, Hcalls.
  now apply extract_calls_first_failure.
Qed.

(** X13. One tool-call record of the improvements script is extracted
    exactly when its function, its name and its arguments text are present
    and the text decodes; an absent function, name or arguments raises the
    [KeyError] of that key, in this order, and arguments that are already a
    mapping raise a [TypeError]. *)
Theorem extract_call_outcomes (tool_call : tool_call_record) :
  (forall invocation : ToolInvocation,
     extract_call json_loads tool_call = Return invocation <->
     exists func text,
       tc_function tool_call = Some func /\
       fn_name func = Some (tool_name invocation) /\
       fn_arguments func = Some (ArgText text) /\
       json_loads text = Some (arguments invocation)) /\
  (tc_function tool_call = None ->
   extract_call json_loads tool_call = Raise (KeyError "function")) /\
  (forall func, tc_function tool_call = Some func -> fn_name func = None ->
   extract_call json_loads tool_call = Raise (KeyError "name")) /\
  (forall func called, tc_function tool_call = Some func ->
   fn_name func = Some called -> fn_arguments func = None ->
   extract_call json_loads tool_call = Raise (KeyError "arguments")) /\
  (forall func called d, tc_function tool_call = Some func ->
   fn_name func = Some called -> fn_arguments func = Some (ArgMapping d) ->
   extract_call json_loads tool_call = Raise TypeError).
Proof.
  split; [|split; [|split; [|split]]].
  - intros invocation. split.
    + unfold extract_call.
      destruct (tc_function tool_call) as [func|]; [|discriminate].
      cbn [subscript bind].
      destruct (fn_name func) as [called|] eqn:Hname; [|discriminate].
      cbn [subscript bind].
      destruct (fn_arguments func) as [[text|d]|] eqn:Hargs;
        try discriminate.
      cbn [subscript bind loads].
      destruct (json_loads text) as [decoded|] eqn:Hloads; [|discriminate].
      cbn [bind]. intros [= <-]. exists func, text. cbn. auto.
    + intros (func & text & Hfunc & Hname & Hargs & Hloads).
      unfold extract_call. rewrite Hfunc. cbn [subscript bind].
      rewrite Hname. cbn [subscript bind]. rewrite Hargs.
      cbn [subscript bind loads]. rewrite Hloads. cbn [bind].
      now destruct invocation.
  - intros Hfunc. unfold extract_call. now rewrite Hfunc.
  - intros func Hfunc Hname. unfold extract_call. rewrite Hfunc.
    cbn [subscript bind]. now rewrite Hname.
  - intros func called Hfunc Hname Hargs. unfold extract_call. rewrite Hfunc.
    cbn [subscript bind]. rewrite Hname. cbn [subscript bind].
    now rewrite Hargs.
  - intros func called d Hfunc Hname Hargs. unfold extract_call.
    rewrite Hfunc. cbn [subscript bind]. rewrite Hname. cbn [subscript bind].
    now rewrite Hargs.
Qed.

End MoreImprovementsExtraction.

(** X11 at a turn of the assistant with one tool call. *)
Lemma extraction_returns_record_by_record_witness :
  Improvements.extract_tool_calls_from_trajectory example_loads
    [{| role := Some "user"; tool_calls := NoToolCalls |};
     {| role := Some "assistant";
        tool_calls :=
          ToolCalls
            [{| tc_function :=
                  Some {| fn_name := Some "get_user";
                          fn_arguments := Some (ArgText "{}") |} |}] |}]
  = Return [{| tool_name := "get_user"; arguments := [] |}].
Proof.
  apply (proj2 (extraction_returns_record_by_record example_loads _ _)).
  repeat constructor.
Defined.

(** X12 at a tool call that is extracted and one whose name is absent. *)
Lemma extraction_raises_the_first_failure_witness :
  Improvements.extract_tool_calls_from_trajectory example_loads
    [{| role := Some "assistant";
        tool_calls :=
          ToolCalls
            [{| tc_function :=
                  Some {| fn_name := Some "get_user";
                          fn_arguments := Some (ArgText "{}") |} |};
             {| tc_function :=
                  Some {| fn_name := None;
                          fn_arguments := Some (ArgText "{}") |} |}] |}]
  = Raise (KeyError "name").
Proof.
  apply (extraction_raises_the_first_failure example_loads _
           [{| tc_function :=
                 Some {| fn_name := Some "get_user";
                         fn_arguments := Some (ArgText "{}") |} |}]
           []
           {| tc_function :=
                Some {| fn_name := None;
                        fn_arguments := Some (ArgText "{}") |} |}).
  - reflexivity.
  - intros call [<-|[]]. eexists. reflexivity.
  - reflexivity.
Defined.

(** X13 at a record whose arguments are already a mapping, and at one
    without a function. *)
Lemma extract_call_outcomes_witness :
  Improvements.extract_call example_loads
    {| tc_function :=
         Some {| fn_name := Some "get_user";
                 fn_arguments := Some (ArgMapping [("id", VInt 7)]) |} |}
  = Raise TypeError /\
  Improvements.extract_call example_loads {| tc_function := None |}
  = Raise (KeyError "function").
Proof.
  split.
  - apply (proj2 (proj2 (proj2 (proj2
             (extract_call_outcomes example_loads _))))
             {| fn_name := Some "get_user";
                fn_arguments := Some (ArgMapping [("id", VInt 7)]) |}
             "get_user" [("id", VInt 7)]); reflexivity.
  - apply (proj1 (proj2 (extract_call_outcomes example_loads _))).
    reflexivity.
Defined.

(** X14. In [extract_tool_calls] of the tau-bench-repo script the arguments
    of a tool call are the decoded text of the record when it decodes and
    the empty mapping when it does not; arguments that are already a
    mapping are not kept: the tool call gets the empty mapping. *)
Theorem repo_arguments_are_decoded_or_empty
    (json_loads : string -> option dict) (call : tool_call_record)
    (func : function_record) :
  tc_function call = Some func ->
  (forall text, fn_arguments func = Some (ArgText text) ->
     arguments (Repo.extract_call json_loads call)
     = default [] (json_loads text)) /\
  (forall d, fn_arguments func = Some (ArgMapping d) ->
     arguments (Repo.extract_call json_loads call) = []).
Proof.
  intros Hfunc. unfold Repo.extract_call. rewrite Hfunc. split.
  - intros text Hargs. simpl. rewrite Hargs. simpl.
    now destruct (json_loads text).
  - intros d Hargs. simpl. now rewrite Hargs.
Qed.

(** X14 at a record whose arguments are the mapping [{id: 7}]. *)
Lemma repo_arguments_are_decoded_or_empty_witness :
  arguments
    (Repo.extract_call example_loads
       {| tc_function :=
            Some {| fn_name := Some "get_user";
                    fn_arguments := Some (ArgMapping [("id", VInt 7)]) |} |})
  = [].
Proof.
  apply (proj2 (repo_arguments_are_decoded_or_empty example_loads
                  {| tc_function :=
                       Some {| fn_name := Some "get_user";
                               fn_arguments :=
                                 Some (ArgMapping [("id", VInt 7)]) |} |}
                  {| fn_name := Some "get_user";
                     fn_arguments := Some (ArgMapping [("id", VInt 7)]) |}
                  eq_refl)
           [("id", VInt 7)]).
  reflexivity.
Defined.

(** ** More on the argument comparison of the improvements script *)

Section MoreCompareArguments.

Import Improvements.

Variable py_repr : value -> string.

Lemma dyadic_eqb_sym (m1 e1 m2 e2 : Z) :
  dyadic_eqb m1 e1 m2 e2 = dyadic_eqb m2 e2 m1 e1.
Proof.
  unfold dyadic_eqb. rewrite (Z.min_comm e2 e1). apply Z.eqb_sym.
Qed.

Lemma number_eqb_sym (x y : number) : number_eqb x y = number_eqb y x.
Proof.
  destruct x as [|s|m1 e1], y as [|t|m2 e2]; try reflexivity.
  - cbn. now destruct s, t.
  - apply dyadic_eqb_sym.
Qed.

(** [==] is symmetric on the values that [normalize_args] stores. *)
Lemma py_eq_normalized_sym (u v : value) :
  py_eq (normalize_value py_repr u) (normalize_value py_repr v)
  = py_eq (normalize_value py_repr v) (normalize_value py_repr u).
Proof.
  rewrite !normalize_value_plain.
  destruct u as [|b|n|f|s|l|d], v as [|b'|n'|f'|s'|l'|d'];
    cbn [is_plain py_eq number_of];
    try reflexivity;
    try apply String.eqb_sym;
    try apply dyadic_eqb_sym;
    try (destruct f; reflexivity);
    try (destruct f'; reflexivity);
    try (destruct f; cbn; try reflexivity; apply dyadic_eqb_sym);
    try (destruct f'; cbn; try reflexivity; apply dyadic_eqb_sym).
  destruct f as [|s|m e], f' as [|t|m' e']; cbn; try reflexivity.
  - now destruct s, t.
  - apply dyadic_eqb_sym.
Qed.

(** What [.get(key)] finds in a normalized mapping. *)
Lemma get_or_none_normalized (args : dict) (key : string) :
  get_or_none (normalize_args py_repr args) key
  = normalize_value py_repr (default VNone (dict_get key args)).
Proof.
  unfold get_or_none. rewrite normalize_args_get.
  now destruct (dict_get key args).
Qed.

Lemma key_credit_sym (expected_args actual_args : dict) (key : string) :
  key_credit py_repr expected_args actual_args key
  = key_credit py_repr actual_args expected_args key.
Proof.
  unfold key_credit. rewrite !get_or_none_normalized.
  now rewrite py_eq_normalized_sym.
Qed.

Lemma keys_of_both_sym (expected_args actual_args : dict) :
  keys_of_both expected_args actual_args
  = keys_of_both actual_args expected_args.
Proof.
  unfold keys_of_both. apply union_comm_L.
Qed.

(** A normalized value equals itself unless it is not-a-number. *)
Lemma py_eq_normalized_refl (v : value) :
  v <> VFloat FNan ->
  py_eq (normalize_value py_repr v) (normalize_value py_repr v) = true.
Proof.
  intros H. rewrite normalize_value_plain.
  destruct v as [|b|n|f|s|l|d]; cbn [is_plain py_eq number_of].
  - reflexivity.
  - destruct b; reflexivity.
  - apply Z.eqb_refl.
  - destruct f as [|s|m e]; [contradiction| |]; cbn.
    + now destruct s.
    + apply Z.eqb_refl.
  - apply String.eqb_refl.
  - apply String.eqb_refl.
  - apply String.eqb_refl.
Qed.

Lemma keys_of_both_elements (expected_args actual_args : dict)
    (key : string) :
  In key (elements (keys_of_both expected_args actual_args)) <->
  In key (map fst expected_args) \/ In key (map fst actual_args).
Proof.
  rewrite <- list_elem_of_In, elem_of_elements. unfold keys_of_both.
  rewrite elem_of_union, !elem_of_list_to_set, !list_elem_of_In.
  reflexivity.
Qed.

(** A sum of credits reaches the number of keys only if every credit
    is 1. *)
Lemma full_sum_all_ones {A : Type} (g : A -> Q) (l : list A) :
  (forall x, In x l -> 0 <= g x <= 1) ->
  sum_of (map g l) == len l ->
  forall x, In x l -> g x == 1.
Proof.
  induction l as [|y l IH]; intros Hg Hsum x Hin; [destruct Hin|].
  cbn [map] in Hsum. rewrite len_cons in Hsum.
  change (sum_of (g y :: map g l)) with (g y + sum_of (map g l)) in Hsum.
  pose proof (Hg y (or_introl eq_refl)) as Hy.
  assert (Hrest : 0 <= sum_of (map g l) <= len l)
    by (apply sum_of_bounds; intros; apply Hg; now right).
  destruct Hin as [<-|Hin]; [lra|].
  apply IH; [intros; apply Hg; now right|lra|exact Hin].
Qed.

(** X15. [compare_arguments] is symmetric: exchanging the expected and the
    actual arguments leaves the score unchanged. *)
Theorem compare_arguments_is_symmetric (expected_args actual_args : dict) :
  compare_arguments py_repr expected_args actual_args
  == compare_arguments py_repr actual_args expected_args.
Proof.
  rewrite !compare_arguments_credits.
  rewrite (andb_comm (is_empty actual_args)).
  destruct (is_empty expected_args && is_empty actual_args); [reflexivity|].
  rewrite (keys_of_both_sym actual_args expected_args).
  rewrite (sum_of_ext (key_credit py_repr actual_args expected_args)
             (key_credit py_repr expected_args actual_args)).
  - reflexivity.
  - intros key _. now rewrite key_credit_sym.
Qed.

(** X16. Unless both mappings are empty, [compare_arguments] is 1 exactly
    when every key of either mapping has the credit 1, that is, when the
    two normalized values under it are equal. *)
Theorem compare_arguments_full_score (expected_args actual_args : dict) :
  is_empty expected_args && is_empty actual_args = false ->
  (compare_arguments py_repr expected_args actual_args == 1 <->
   forall key,
     In key (map fst expected_args) \/ In key (map fst actual_args) ->
     key_credit py_repr expected_args actual_args key = 1).
Proof.
  intros Hempty. rewrite compare_arguments_credits, Hempty.
  pose proof (keys_of_both_nonempty py_repr _ _ Hempty) as Hkeys.
  apply len_pos in Hkeys.
  set (keys := elements (keys_of_both expected_args actual_args)) in *.
  split.
  - intros Hone key Hkey.
    assert (Hsum : sum_of (map (key_credit py_repr expected_args actual_args)
                               keys) == len keys).
    { set (credits := sum_of _) in *.
      assert (E : credits == credits / len keys * len keys)
        by (field; lra).
      rewrite E, Hone. lra. }
    assert (In key keys) by now apply keys_of_both_elements.
    pose proof (full_sum_all_ones _ keys
                  (fun k _ => key_credit_bounds py_repr _ _ k) Hsum key H)
      as Hcredit.
    destruct (key_credit_all_or_nothing py_repr expected_args actual_args key)
      as [E|E]; [|exact E].
    cbv beta in Hcredit. rewrite E in Hcredit. discriminate Hcredit.
  - intros Hall. rewrite sum_of_all_ones.
    + now apply whole_over_itself.
    + intros key Hkey. rewrite Hall; [reflexivity|].
      now apply keys_of_both_elements.
Qed.

(** X17. [compare_arguments] scores a mapping against itself 1 unless one
    of its values is the float not-a-number; values nested in lists and
    mappings do not matter, as these are compared by their strings. *)
Theorem identical_arguments_score_one (args : dict) :
  (forall key, dict_get key args <> Some (VFloat FNan)) ->
  compare_arguments py_repr args args == 1.
Proof.
  intros Hnan. rewrite compare_arguments_credits.
  destruct (is_empty args && is_empty args) eqn:Hempty; [reflexivity|].
  rewrite sum_of_all_ones.
  - apply whole_over_itself, len_pos. now apply keys_of_both_nonempty.
  - intros key _. unfold key_credit. rewrite !get_or_none_normalized.
    rewrite py_eq_normalized_refl; [reflexivity|].
    destruct (dict_get key args) as [v|] eqn:Hget; [|discriminate].
    cbn. intros ->. now apply (Hnan key).
Qed.

(** X18. In [compare_arguments] a key that one mapping binds to null and
    the other lacks counts as agreeing, since [.get] answers [None] for the
    missing key; a key that the expected mapping binds to anything else and
    the actual mapping lacks earns nothing. *)
Theorem null_argument_equals_missing (expected_args actual_args : dict)
    (key : string) :
  (dict_get key expected_args = Some VNone ->
   dict_get key actual_args = None ->
   key_credit py_repr expected_args actual_args key = 1) /\
  (dict_get key expected_args = None ->
   dict_get key actual_args = Some VNone ->
   key_credit py_repr expected_args actual_args key = 1) /\
  (forall v, dict_get key expected_args = Some v -> v <> VNone ->
   dict_get key actual_args = None ->
   key_credit py_repr expected_args actual_args key = 0).
Proof.
  unfold key_credit. rewrite !get_or_none_normalized.
  split; [|split].
  - intros -> ->. reflexivity.
  - intros -> ->. reflexivity.
  - intros v -> Hv ->. cbn [default from_option id].
    rewrite normalize_value_plain.
    destruct v as [|b|n|f|s|l|d]; try reflexivity; [contradiction|].
    destruct f; reflexivity.
Qed.

End MoreCompareArguments.

(** X16 at two mappings that agree on their only key. *)
Lemma compare_arguments_full_score_witness :
  Improvements.compare_arguments example_repr
    [("seat", VStr "A1")] [("seat", VStr "A1")] == 1.
Proof.
  apply (compare_arguments_full_score example_repr
           [("seat", VStr "A1")] [("seat", VStr "A1")] eq_refl).
  intros key [[<-|[]]|[<-|[]]]; reflexivity.
Defined.

(** X17 at a mapping with a string and a number. *)
Lemma identical_arguments_score_one_witness :
  Improvements.compare_arguments example_repr
    [("seat", VStr "A1"); ("bags", VInt 2)]
    [("seat", VStr "A1"); ("bags", VInt 2)] == 1.
Proof.
  apply identical_arguments_score_one.
  intros key. cbn [dict_get].
  destruct (String.eqb key "seat"); [discriminate|].
  destruct (String.eqb key "bags"); discriminate.
Defined.

(** X18 at an expected null that the actual mapping omits, and at an
    expected string that it omits. *)
Lemma null_argument_equals_missing_witness :
  key_credit example_repr [("note", VNone)] [] "note" = 1 /\
  key_credit example_repr [("seat", VStr "A1")] [] "seat" = 0.
Proof.
  split.
  - apply (proj1 (null_argument_equals_missing example_repr
                    [("note", VNone)] [] "note")); reflexivity.
  - apply (proj2 (proj2 (null_argument_equals_missing example_repr
                           [("seat", VStr "A1")] [] "seat"))
             (VStr "A1")); [reflexivity|discriminate|reflexivity].
Defined.

(** ** More on the greedy matcher of the improvements script *)

Section MoreMatcher.

Import Improvements.

Variable py_repr : value -> string.

(** The inner loop keeps the best unused tool call seen so far, the
    earliest one among equals. *)
Lemma scan_from_optimal (gold_action : ExpectedAction)
    (used_tool_calls : gset Z) :
  forall (later earlier : list ToolInvocation) (st : best),
  scan_optimal py_repr gold_action used_tool_calls earlier st ->
  scan_optimal py_repr gold_action used_tool_calls (earlier ++ later)
    (fold_left (scan_step py_repr gold_action used_tool_calls)
               (enumerate_from (Z.of_nat (length earlier)) later) st).
Proof.
  induction later as [|x rest IH]; intros earlier st Hopt.
  - now rewrite app_nil_r.
  - cbn [enumerate_from fold_left].
    replace (Z.of_nat (length earlier) + 1)%Z
      with (Z.of_nat (length (earlier ++ [x])))
      by (rewrite length_app; simpl; lia).
    replace (earlier ++ x :: rest) with ((earlier ++ [x]) ++ rest)
      by now rewrite <- app_assoc.
    apply IH.
    destruct st as [[best_match best_score] best_idx].
    destruct Hopt as (Hnonneg & Hidx & Hle & Hlt).
    unfold scan_step.
    assert (Hlookup : forall (j : nat) (y : ToolInvocation),
               (earlier ++ [x]) !! j = Some y ->
               earlier !! j = Some y \/ (j = length earlier /\ y = x)).
    { intros j y Hj. apply lookup_app_Some in Hj as [Hj|[Hge Hj]].
      - now left.
      - right. destruct (j - length earlier)%nat as [|n] eqn:E;
          [|now destruct n].
        cbn in Hj. injection Hj as <-. split; [lia|reflexivity]. }
    destruct (decide (Z.of_nat (length earlier) ∈ used_tool_calls))
      as [Hused|Hfree].
    + unfold scan_optimal. rewrite length_app. cbn [length].
      split; [exact Hnonneg|]. split; [lia|]. split.
      * intros j y Hj Hfreej.
        destruct (Hlookup j y Hj) as [Hj'|[-> _]]; [eauto|contradiction].
      * intros j y Hbefore Hj Hfreej.
        destruct (Hlookup j y Hj) as [Hj'|[-> _]]; [eauto|contradiction].
    + destruct (negb (Qle_bool _ best_score)) eqn:Hgt.
      * apply negb_true_iff in Hgt.
        assert (Hmore : best_score
                        < candidate_score py_repr gold_action x).
        { apply Qnot_le_lt. intros H. apply Qle_bool_iff in H. congruence. }
        unfold scan_optimal. rewrite length_app. cbn [length].
        split; [lra|]. split; [lia|]. split.
        -- intros j y Hj Hfreej.
           destruct (Hlookup j y Hj) as [Hj'|[_ ->]]; [|lra].
           pose proof (Hle j y Hj' Hfreej). lra.
        -- intros j y Hbefore Hj Hfreej.
           destruct (Hlookup j y Hj) as [Hj'|[-> _]]; [|lia].
           pose proof (Hle j y Hj' Hfreej). lra.
      * apply negb_false_iff, Qle_bool_iff in Hgt.
        unfold scan_optimal. rewrite length_app. cbn [length].
        split; [exact Hnonneg|]. split; [lia|]. split.
        -- intros j y Hj Hfreej.
           destruct (Hlookup j y Hj) as [Hj'|[_ ->]]; [eauto|exact Hgt].
        -- intros j y Hbefore Hj Hfreej.
           destruct (Hlookup j y Hj) as [Hj'|[-> _]]; [eauto|lia].
Qed.

Lemma scan_is_optimal (gold_action : ExpectedAction)
    (used_tool_calls : gset Z) (tool_calls : list ToolInvocation) :
  scan_optimal py_repr gold_action used_tool_calls tool_calls
    (scan py_repr gold_action used_tool_calls tool_calls).
Proof.
  unfold scan.
  apply (scan_from_optimal gold_action used_tool_calls tool_calls []
           (None, 0, (-1)%Z)).
  unfold scan_optimal. cbn [length].
  split; [lra|]. split; [lia|]. split; intros j x; now rewrite lookup_nil.
Qed.

(** X19. For one gold action the inner loop of
    [match_actions_to_tool_calls] selects a best unused tool call: no
    unused tool call scores more than the selected score, none at an
    earlier index scores as much, and when nothing is selected every
    unused tool call scores 0. *)
Theorem scan_selects_the_best_unused_call (gold_action : ExpectedAction)
    (used_tool_calls : gset Z) (tool_calls : list ToolInvocation)
    (best_match : option ToolInvocation) (best_score : Q) (best_idx : Z) :
  scan py_repr gold_action used_tool_calls tool_calls
  = (best_match, best_score, best_idx) ->
  (forall (j : nat) (x : ToolInvocation),
     tool_calls !! j = Some x -> Z.of_nat j ∉ used_tool_calls ->
     candidate_score py_repr gold_action x <= best_score) /\
  (forall (j : nat) (x : ToolInvocation),
     (Z.of_nat j < best_idx)%Z ->
     tool_calls !! j = Some x -> Z.of_nat j ∉ used_tool_calls ->
     candidate_score py_repr gold_action x < best_score) /\
  (best_match = None ->
   forall (j : nat) (x : ToolInvocation),
     tool_calls !! j = Some x -> Z.of_nat j ∉ used_tool_calls ->
     candidate_score py_repr gold_action x == 0).
Proof.
  intros Hscan.
  pose proof (scan_is_optimal gold_action used_tool_calls tool_calls) as Hopt.
  pose proof (scan_invariant_holds py_repr gold_action used_tool_calls
                tool_calls) as Hinv.
  rewrite Hscan in Hopt, Hinv.
  destruct Hopt as (_ & _ & Hle & Hlt).
  split; [exact Hle|]. split; [exact Hlt|].
  intros -> j x Hj Hfree. destruct Hinv as [-> _].
  pose proof (Hle j x Hj Hfree).
  pose proof (improvements_candidate_score_bounds py_repr gold_action x).
  lra.
Qed.

End MoreMatcher.

(** X19 at a pool of two tool calls, the second of which is the better. *)
Lemma scan_selects_the_best_unused_call_witness :
  Improvements.candidate_score example_repr
    {| name := "book_flight"; kwargs := [("seat", VStr "A1")] |}
    {| tool_name := "book_flight"; arguments := [("seat", VStr "B2")] |}
  < Improvements.candidate_score example_repr
      {| name := "book_flight"; kwargs := [("seat", VStr "A1")] |}
      {| tool_name := "book_flight"; arguments := [("seat", VStr "A1")] |}.
Proof.
  assert (Hscan :
            Improvements.scan example_repr
              {| name := "book_flight"; kwargs := [("seat", VStr "A1")] |}
              ∅
              [{| tool_name := "book_flight";
                  arguments := [("seat", VStr "B2")] |};
               {| tool_name := "book_flight";
                  arguments := [("seat", VStr "A1")] |}]
            = (Some {| tool_name := "book_flight";
                       arguments := [("seat", VStr "A1")] |},
               Improvements.candidate_score example_repr
                 {| name := "book_flight";
                    kwargs := [("seat", VStr "A1")] |}
                 {| tool_name := "book_flight";
                    arguments := [("seat", VStr "A1")] |},
               1%Z))
    by (vm_compute; reflexivity).
  exact (proj1 (proj2 (scan_selects_the_best_unused_call example_repr
                         _ _ _ _ _ _ Hscan))
           0%nat
           {| tool_name := "book_flight";
              arguments := [("seat", VStr "B2")] |}
           eq_refl eq_refl (not_elem_of_empty _)).
Defined.

Section MatchResults.

Import Improvements.

Variable py_repr : value -> string.

(** One step of the outer loop appends one entry for its gold action:
    a tool call of the pool with its own positive score, or none with 0. *)
Lemma match_step_entry (tool_calls : list ToolInvocation)
    (matches : list match_tuple) (used_tool_calls : gset Z)
    (gold_action : ExpectedAction) :
  exists (best_match : option ToolInvocation) (best_score : Q),
    fst (match_step py_repr tool_calls (matches, used_tool_calls) gold_action)
    = matches ++ [(gold_action, best_match, best_score)] /\
    match best_match with
    | Some matched =>
        In matched tool_calls /\
        best_score = candidate_score py_repr gold_action matched /\
        0 < best_score
    | None => best_score = 0
    end.
Proof.
  unfold match_step.
  pose proof (scan_invariant_holds py_repr gold_action used_tool_calls
                tool_calls) as Hinv.
  destruct (scan py_repr gold_action used_tool_calls tool_calls)
    as [[[matched|] best_score] best_idx]; cbn [fst].
  - exists (Some matched), best_score. split; [reflexivity|].
    destruct Hinv as (_ & _ & Hlookup & Hscore & Hpos).
    split; [|split; assumption].
    apply list_elem_of_In. eapply list_elem_of_lookup_2, Hlookup.
  - exists None, 0. split; reflexivity.
Qed.

Lemma match_loop_entries (tool_calls : list ToolInvocation)
    (gold_actions : list ExpectedAction) :
  forall st : list match_tuple * gset Z,
  exists added : list match_tuple,
    fst (match_loop py_repr tool_calls gold_actions st) = fst st ++ added /\
    map (fun entry : match_tuple => fst (fst entry)) added = gold_actions /\
    Forall (fun entry : match_tuple =>
              match snd (fst entry) with
              | Some matched =>
                  In matched tool_calls /\
                  snd entry
                  = candidate_score py_repr (fst (fst entry)) matched /\
                  0 < snd entry
              | None => snd entry = 0
              end) added.
Proof.
  unfold match_loop.
  induction gold_actions as [|gold_action rest IH]; intros st.
  - exists []. cbn. split; [now rewrite app_nil_r|]. split; constructor.
  - cbn [fold_left]. destruct st as [matches used_tool_calls].
    destruct (match_step_entry tool_calls matches used_tool_calls gold_action)
      as (best_match & best_score & Hstep & Hentry).
    destruct (IH (match_step py_repr tool_calls (matches, used_tool_calls)
                    gold_action)) as (added & Hadded & Hgold & Hall).
    exists ((gold_action, best_match, best_score) :: added).
    split; [|split].
    + rewrite Hadded, Hstep, <- app_assoc. reflexivity.
    + cbn. now rewrite Hgold.
    + constructor; [exact Hentry|exact Hall].
Qed.

(** X20. [match_actions_to_tool_calls] returns one entry per gold action,
    in the order of the gold actions; an entry that is bound holds a tool
    call of the pool with the score of that tool call for its gold action,
    which is positive, and an unbound entry has the score 0. *)
Theorem matches_follow_the_gold_actions
    (gold_actions : list ExpectedAction) (tool_calls : list ToolInvocation) :
  map (fun entry : match_tuple => fst (fst entry))
      (match_actions_to_tool_calls py_repr gold_actions tool_calls)
  = gold_actions /\
  Forall (fun entry : match_tuple =>
            match snd (fst entry) with
            | Some matched =>
                In matched tool_calls /\
                snd entry
                = candidate_score py_repr (fst (fst entry)) matched /\
                0 < snd entry
            | None => snd entry = 0
            end)
         (match_actions_to_tool_calls py_repr gold_actions tool_calls).
Proof.
  unfold match_actions_to_tool_calls.
  destruct (match_loop_entries tool_calls gold_actions ([], ∅))
    as (added & -> & Hgold & Hall).
  cbn [fst app]. split; assumption.
Qed.

(** The used indices are those of the bound gold actions, and they are
    indices of the pool. *)
Lemma match_loop_counts (tool_calls : list ToolInvocation)
    (gold_actions : list ExpectedAction) :
  forall st : list match_tuple * gset Z,
  matched_count (fst st) = size (snd st) ->
  (forall i, i ∈ snd st -> (0 <= i < Z.of_nat (length tool_calls))%Z) ->
  matched_count (fst (match_loop py_repr tool_calls gold_actions st))
  = size (snd (match_loop py_repr tool_calls gold_actions st)) /\
  (forall i, i ∈ snd (match_loop py_repr tool_calls gold_actions st) ->
     (0 <= i < Z.of_nat (length tool_calls))%Z).
Proof.
  unfold match_loop.
  induction gold_actions as [|gold_action rest IH]; intros st Hcount Hrange;
    [now split|].
  cbn [fold_left]. apply IH.
  - destruct st as [matches used_tool_calls]. unfold match_step.
    pose proof (scan_invariant_holds py_repr gold_action used_tool_calls
                  tool_calls) as Hinv.
    destruct (scan py_repr gold_action used_tool_calls tool_calls)
      as [[[matched|] best_score] best_idx]; cbn [fst snd] in *.
    + destruct Hinv as (Hfree & _).
      unfold matched_count in *. rewrite List.filter_app, length_app.
      cbn [List.filter snd fst length].
      rewrite size_union by (now apply disjoint_singleton_r).
      rewrite size_singleton. lia.
    + unfold matched_count in *. rewrite List.filter_app, length_app.
      cbn [List.filter snd fst length]. lia.
  - destruct st as [matches used_tool_calls]. unfold match_step.
    pose proof (scan_invariant_holds py_repr gold_action used_tool_calls
                  tool_calls) as Hinv.
    destruct (scan py_repr gold_action used_tool_calls tool_calls)
      as [[[matched|] best_score] best_idx]; cbn [fst snd] in *;
      [|exact Hrange].
    destruct Hinv as (_ & Hnonneg & Hlookup & _).
    intros i Hi. apply elem_of_union in Hi as [Hi|Hi]; [now apply Hrange|].
    apply elem_of_singleton in Hi as ->.
    apply lookup_lt_Some in Hlookup. lia.
Qed.

Lemma bounded_set_size (indices : gset Z) (n : nat) :
  (forall i, i ∈ indices -> (0 <= i < Z.of_nat n)%Z) ->
  (size indices <= n)%nat.
Proof.
  intros H.
  assert (Hsub : indices ⊆ list_to_set (map Z.of_nat (seq 0 n))).
  { intros i Hi. apply elem_of_list_to_set, list_elem_of_In, in_map_iff.
    exists (Z.to_nat i). specialize (H i Hi).
    split; [lia|]. apply in_seq. lia. }
  apply subseteq_size in Hsub.
  rewrite size_list_to_set in Hsub.
  - now rewrite length_map, length_seq in Hsub.
  - apply NoDup_fmap_2; [intros x y; lia|apply NoDup_seq].
Qed.

(** X21. [match_actions_to_tool_calls] binds at most as many gold actions
    as there are tool calls, and returns as many entries as there are gold
    actions. *)
Theorem matched_gold_actions_are_bounded
    (gold_actions : list ExpectedAction) (tool_calls : list ToolInvocation) :
  (matched_count (match_actions_to_tool_calls py_repr gold_actions tool_calls)
   <= length tool_calls)%nat /\
  (matched_count (match_actions_to_tool_calls py_repr gold_actions tool_calls)
   <= length gold_actions)%nat /\
  length (match_actions_to_tool_calls py_repr gold_actions tool_calls)
  = length gold_actions.
Proof.
  assert (Hlen : length (match_actions_to_tool_calls py_repr gold_actions
                           tool_calls) = length gold_actions).
  { unfold match_actions_to_tool_calls.
    destruct (match_loop_entries tool_calls gold_actions ([], ∅))
      as (added & -> & Hgold & _).
    cbn [fst app]. rewrite <- Hgold. now rewrite length_map. }
  split; [|split; [|exact Hlen]].
  - unfold match_actions_to_tool_calls.
    destruct (match_loop_counts tool_calls gold_actions ([], ∅))
      as [Hcount Hrange]; [reflexivity|set_solver|].
    rewrite Hcount. now apply bounded_set_size.
  - rewrite <- Hlen. unfold matched_count. apply filter_length_le.
Qed.

End MatchResults.

(** ** More on the reward of the improvements script *)

Section MoreReward.

Import Improvements.

Variable json_loads : string -> option dict.
Variable py_repr : value -> string.

(** X22. Without gold actions, because the [info], the [reward_info] or
    the [actions] of the task is missing or null,
    [calculate_tool_call_reward] returns the reward 0 with an error note
    and does not read the trajectory.  With gold actions, a tool-call
    record of a relevant turn that cannot be extracted, after records that
    can, makes the whole calculation raise the exception of that record:
    the task gets no reward, whatever its other tool calls are. *)
Theorem reward_errors (t : task) :
  (gold_actions_of t = None ->
   calculate_tool_call_reward json_loads py_repr t
   = Return (0, {| gold_actions_info := [];
                   extracted_tool_calls := [];
                   matches_info := [];
                   tool_call_reward_info := 0;
                   error := Some "No reward_info or actions available" |})) /\
  (forall (gold_actions : list ExpectedAction)
          (before after : list tool_call_record) (bad : tool_call_record)
          (e : exn),
     gold_actions_of t = Some gold_actions ->
     relevant_calls (traj t) = before ++ bad :: after ->
     (forall call, In call before ->
        exists invocation, extract_call json_loads call = Return invocation) ->
     extract_call json_loads bad = Raise e ->
     calculate_tool_call_reward json_loads py_repr t = Raise e).
Proof.
  unfold calculate_tool_call_reward. split.
  - intros ->. reflexivity.
  - intros gold_actions before after bad e -> Hcalls Hok Hbad.
    unfold extract_tool_calls_from_trajectory.
    rewrite extract_entries_relevant, Hcalls.
    now rewrite (extract_calls_first_failure json_loads before after bad e
                   [] Hok Hbad).
Qed.

(** X23. When [calculate_tool_call_reward] returns for a task with gold
    actions, the extraction of the tool calls has returned, the details
    hold the gold actions, the extracted tool calls and the matches,
    without an error note, and the reward lies between 0 and 1: it is the
    mean of the scores of the matches when there is a gold action, and 0
    when there is none. *)
Theorem reward_is_the_mean_of_the_matches (t : task)
    (gold_actions : list ExpectedAction) (reward : Q)
    (details : detailed_info) :
  gold_actions_of t = Some gold_actions ->
  calculate_tool_call_reward json_loads py_repr t = Return (reward, details) ->
  exists tool_calls : list ToolInvocation,
    extract_tool_calls_from_trajectory json_loads (traj t)
    = Return tool_calls /\
    details
    = {| gold_actions_info := gold_actions;
         extracted_tool_calls := tool_calls;
         matches_info :=
           match_actions_to_tool_calls py_repr gold_actions tool_calls;
         tool_call_reward_info := reward;
         error := None |} /\
    0 <= reward <= 1 /\
    (is_empty gold_actions = false ->
     reward
     == mean (map snd (match_actions_to_tool_calls py_repr gold_actions
                         tool_calls))) /\
    (is_empty gold_actions = true -> reward = 0).
Proof.
  intros Hgold Hreward.
  pose proof (calculate_tool_call_reward_bounds json_loads py_repr t reward
                details Hreward) as Hbounds.
  unfold calculate_tool_call_reward in Hreward. rewrite Hgold in Hreward.
  destruct (extract_tool_calls_from_trajectory json_loads (traj t))
    as [tool_calls|e]; cbn [bind] in Hreward; [|discriminate Hreward].
  injection Hreward as Hr Hd. exists tool_calls.
  split; [reflexivity|]. split; [now rewrite <- Hd, Hr|].
  split; [exact Hbounds|]. rewrite <- Hr. clear Hr Hd Hbounds.
  unfold match_actions_to_tool_calls.
  destruct (match_loop_entries py_repr tool_calls gold_actions ([], ∅))
    as (added & -> & Hadded & _).
  cbn [fst app]. split.
  - intros Hnonempty. destruct added as [|entry added].
    + destruct gold_actions; discriminate.
    + cbn [is_empty]. unfold mean. now rewrite sum_is_sum_of.
  - intros Hempty. destruct gold_actions; [|discriminate Hempty].
    destruct added; [reflexivity|discriminate Hadded].
Qed.

End MoreReward.

Lemma reward_errors_witness :
  Improvements.calculate_tool_call_reward example_loads example_repr
    {| Improvements.info := Some {| Improvements.reward_info := None |};
       Improvements.traj :=
         [{| role := Some "assistant";
             tool_calls :=
               ToolCalls
                 [{| tc_function :=
                       Some {| fn_name := Some "cancel_flight";
                               fn_arguments := Some (ArgText "not json") |}
                  |}] |}] |}
  = Return (0, {| Improvements.gold_actions_info := [];
                  Improvements.extracted_tool_calls := [];
                  Improvements.matches_info := [];
                  Improvements.tool_call_reward_info := 0;
                  Improvements.error :=
                    Some "No reward_info or actions available" |}) /\
  Improvements.calculate_tool_call_reward example_loads example_repr
    {| Improvements.info :=
         Some {| Improvements.reward_info :=
                   Some {| Improvements.actions :=
                             Some [{| name := "book_flight";
                                      kwargs := [] |}] |} |};
       Improvements.traj :=
         [{| role := Some "assistant";
             tool_calls :=
               ToolCalls
                 [{| tc_function :=
                       Some {| fn_name := Some "book_flight";
                               fn_arguments := Some (ArgText "{}") |} |};
                  {| tc_function :=
                       Some {| fn_name := Some "cancel_flight";
                               fn_arguments := Some (ArgText "not json") |}
                  |}] |}] |}
  = Raise JSONDecodeError.
Proof.
  split.
  - apply (proj1 (reward_errors example_loads example_repr _)). reflexivity.
  - apply (proj2 (reward_errors example_loads example_repr _))
      with (gold_actions := [{| name := "book_flight"; kwargs := [] |}])
           (before :=
              [{| tc_function :=
                    Some {| fn_name := Some "book_flight";
                            fn_arguments := Some (ArgText "{}") |} |}])
           (after := [])
           (bad :=
              {| tc_function :=
                   Some {| fn_name := Some "cancel_flight";
                           fn_arguments := Some (ArgText "not json") |} |}).
    + reflexivity.
    + reflexivity.
    + intros call [<-|[]]. eexists. reflexivity.
    + reflexivity.
Defined.

Lemma reward_is_the_mean_of_the_matches_witness :
  exists (reward : Q) (details : Improvements.detailed_info),
    Improvements.calculate_tool_call_reward example_loads example_repr
      {| Improvements.info :=
           Some {| Improvements.reward_info :=
                     Some {| Improvements.actions :=
                               Some [{| name := "book_flight"; kwargs := [] |};
                                     {| name := "get_user"; kwargs := [] |}]
                          |} |};
         Improvements.traj :=
           [{| role := Some "assistant";
               tool_calls :=
                 ToolCalls
                   [{| tc_function :=
                         Some {| fn_name := Some "book_flight";
                                 fn_arguments := Some (ArgText "{}") |} |}]
            |}] |}
    = Return (reward, details) /\
    Improvements.extracted_tool_calls details
    = [{| tool_name := "book_flight"; arguments := [] |}] /\
    Improvements.error details = None /\
    0 <= reward <= 1 /\
    reward
    == mean (map snd (Improvements.matches_info details)) /\
    reward == 1 # 2.
Proof.
  assert (Hreward :
            { rewarded : Q * Improvements.detailed_info |
              Improvements.calculate_tool_call_reward example_loads
                example_repr
                {| Improvements.info :=
                     Some {| Improvements.reward_info :=
                               Some {| Improvements.actions :=
                                         Some [{| name := "book_flight";
                                                  kwargs := [] |};
                                               {| name := "get_user";
                                                  kwargs := [] |}] |} |};
                   Improvements.traj :=
                     [{| role := Some "assistant";
                         tool_calls :=
                           ToolCalls
                             [{| tc_function :=
                                   Some {| fn_name := Some "book_flight";
                                           fn_arguments :=
                                             Some (ArgText "{}") |} |}]
                      |}] |}
              = Return rewarded /\ fst rewarded == 1 # 2 })
    by (eexists; split; vm_compute; reflexivity).
  destruct Hreward as [[reward details] [Hreward Hhalf]].
  exists reward, details.
  match type of Hreward with
  | Improvements.calculate_tool_call_reward _ _ ?t = _ =>
      destruct (reward_is_the_mean_of_the_matches example_loads example_repr
                  t
                  [{| name := "book_flight"; kwargs := [] |};
                   {| name := "get_user"; kwargs := [] |}]
                  reward details eq_refl Hreward)
        as (tool_calls & Hcalls & -> & Hbounds & Hmean & _)
  end.
  injection Hcalls as <-.
  split; [exact Hreward|]. split; [reflexivity|]. split; [reflexivity|].
  split; [exact Hbounds|]. split; [now apply Hmean|exact Hhalf].
Defined.

(** ** The driver of the tau-bench-repo script *)

Section RepoResults.

Import RepoDriver.

Variable json_loads : string -> option dict.

(** The lookups of the expected actions raise nothing but a [KeyError]. *)
Lemma expected_actions_of_cases (t : result_entry) :
  (exists expected, expected_actions_of t = Return expected) \/
  (exists key, expected_actions_of t = Raise (KeyError key)).
Proof.
  unfold expected_actions_of.
  destruct (info t) as [i|]; cbn; [|right; now eexists].
  destruct (task i) as [tk|]; cbn; [|right; now eexists].
  destruct (actions tk) as [expected|]; cbn; [left|right]; now eexists.
Qed.

(** What the loop body does with one entry. *)
Lemma process_task_cases (t : result_entry) :
  (lacks_trajectory t /\ process_task json_loads t = Raise (KeyError "traj")) \/
  (exists score,
     process_task json_loads t = Return (set_partial_score t score) /\
     0 <= score <= 1 /\
     (is_error_result t = true \/
      (exists key, expected_actions_of t = Raise (KeyError key)) ->
      score = 0) /\
     (forall expected trajectory,
        is_error_result t = false ->
        expected_actions_of t = Return expected ->
        traj t = Some trajectory ->
        score
        = Repo.calculate_partial_score expected
            (Repo.extract_tool_calls json_loads trajectory))).
Proof.
  unfold process_task, lacks_trajectory.
  destruct (is_error_result t) eqn:Herror.
  - right. exists 0. split; [reflexivity|]. split; [lra|].
    split; [reflexivity|]. intros ? ? H. discriminate H.
  - destruct (expected_actions_of_cases t) as [[expected He]|[key He]];
      rewrite He.
    + destruct (traj t) as [trajectory|] eqn:Htraj; cbn.
      * right. eexists. split; [reflexivity|].
        split; [apply calculate_partial_score_bounds|].
        split.
        -- intros [H|[key H]]; discriminate H.
        -- intros expected' trajectory' _ [= <-] [= <-]. reflexivity.
      * left. split; [|reflexivity].
        split; [reflexivity|]. split; [now exists expected|reflexivity].
    + right. exists 0. split; [reflexivity|]. split; [lra|].
      split; [reflexivity|]. intros ? ? _ H. discriminate H.
Qed.

Lemma process_task_lacks (t : result_entry) :
  lacks_trajectory t ->
  lacks_trajectory t /\ process_task json_loads t = Raise (KeyError "traj").
Proof.
  intros Hlacks. split; [exact Hlacks|].
  destruct Hlacks as (Herror & [expected He] & Htraj).
  unfold process_task. now rewrite Herror, He, Htraj.
Qed.

Lemma Forall2_each_left {A B : Type} (R : A -> B -> Prop) (l : list A)
    (r : list B) :
  Forall2 R l r -> Forall (fun x => exists y, R x y) l.
Proof.
  induction 1 as [|x y l r Hxy _ IH]; [constructor|].
  constructor; [now exists y|exact IH].
Qed.

Lemma process_tasks_returns (results : list result_entry) :
  forall enhanced_results enhanced,
  process_tasks json_loads results enhanced_results = Return enhanced ->
  exists added,
    enhanced = enhanced_results ++ added /\
    Forall2 (fun t t' => process_task json_loads t = Return t') results added.
Proof.
  induction results as [|t rest IH]; intros enhanced_results enhanced.
  - cbn. intros [= <-]. exists []. split; [now rewrite app_nil_r|constructor].
  - cbn [process_tasks].
    destruct (process_task json_loads t) as [t'|e] eqn:Ht; cbn [bind];
      [|discriminate].
    intros H. destruct (IH _ _ H) as (added & -> & Hall).
    exists (t' :: added). split; [now rewrite <- app_assoc|].
    constructor; [exact Ht|exact Hall].
Qed.

Lemma process_tasks_raises (results : list result_entry) :
  forall enhanced_results e,
  process_tasks json_loads results enhanced_results = Raise e ->
  Exists (fun t => process_task json_loads t = Raise e) results.
Proof.
  induction results as [|t rest IH]; intros enhanced_results e.
  - discriminate.
  - cbn [process_tasks].
    destruct (process_task json_loads t) as [t'|e'] eqn:Ht; cbn [bind].
    + intros H. apply Exists_cons_tl. exact (IH _ _ H).
    + intros [= <-]. now apply Exists_cons_hd.
Qed.

Lemma process_tasks_total (results : list result_entry) :
  forall enhanced_results,
  Forall (fun t => exists t', process_task json_loads t = Return t') results ->
  exists enhanced,
    process_tasks json_loads results enhanced_results = Return enhanced.
Proof.
  induction results as [|t rest IH]; intros enhanced_results Hall.
  - now eexists.
  - apply Forall_cons_1 in Hall as [[t' Ht] Hrest].
    cbn [process_tasks]. rewrite Ht. cbn [bind]. now apply IH.
Qed.

(** Every enhanced entry is an entry of the file with a partial score
    between 0 and 1. *)
Lemma process_tasks_scores (results enhanced : list result_entry) :
  process_results_file json_loads results = Return enhanced ->
  Forall2
    (fun t t' =>
       exists score, t' = set_partial_score t score /\ 0 <= score <= 1)
    results enhanced.
Proof.
  unfold process_results_file. intros H.
  destruct (process_tasks_returns _ _ _ H) as (added & -> & Hall).
  cbn [app]. clear H.
  induction Hall as [|t t' rest rest' Ht _ IH]; constructor; [|exact IH].
  destruct (process_task_cases t) as [[_ Hraise]|(score & Hscore & Hb & _)].
  - rewrite Hraise in Ht. discriminate Ht.
  - rewrite Hscore in Ht. injection Ht as <-. now exists score.
Qed.

(** X24. When [process_results_file] returns, the enhanced results are the
    entries of the file in their order, each with its partial score set and
    nothing else changed.  The partial score lies between 0 and 1; it is 0
    for an error result and for an entry without expected actions,
    whatever its trajectory holds, and otherwise it is the partial score
    of the tool calls of the trajectory for the expected actions. *)
Theorem enhanced_results_follow_the_entries
    (results enhanced : list result_entry) :
  process_results_file json_loads results = Return enhanced ->
  Forall2
    (fun t t' =>
       exists score,
         t' = set_partial_score t score /\
         0 <= score <= 1 /\
         (is_error_result t = true \/
          (exists key, expected_actions_of t = Raise (KeyError key)) ->
          score = 0) /\
         (forall expected trajectory,
            is_error_result t = false ->
            expected_actions_of t = Return expected ->
            traj t = Some trajectory ->
            score
            = Repo.calculate_partial_score expected
                (Repo.extract_tool_calls json_loads trajectory)))
    results enhanced.
Proof.
  unfold process_results_file. intros H.
  destruct (process_tasks_returns _ _ _ H) as (added & -> & Hall).
  cbn [app]. clear H.
  induction Hall as [|t t' rest rest' Ht _ IH]; constructor; [|exact IH].
  destruct (process_task_cases t) as [[_ Hraise]|(score & Hscore & Hrest)].
  - rewrite Hraise in Ht. discriminate Ht.
  - rewrite Hscore in Ht. injection Ht as <-. now exists score.
Qed.

(** X25. [process_results_file] raises exactly when an entry that is no
    error result and has expected actions has no trajectory, and then it
    raises the [KeyError] of the key [traj]; an error result and an entry
    without expected actions need no trajectory. *)
Theorem missing_trajectory_is_the_only_failure (results : list result_entry) :
  (forall e,
     process_results_file json_loads results = Raise e <->
     e = KeyError "traj" /\ Exists lacks_trajectory results) /\
  ((exists enhanced, process_results_file json_loads results = Return enhanced)
   <-> Forall (fun t => ~ lacks_trajectory t) results).
Proof.
  assert (Hreturns :
            (exists enhanced,
               process_results_file json_loads results = Return enhanced)
            <-> Forall (fun t => ~ lacks_trajectory t) results).
  { unfold process_results_file. split.
    - intros [enhanced H]. apply process_tasks_returns in H.
      destruct H as (added & _ & Hall).
      apply List.Forall_forall. intros t Hin [_ Hraise]%process_task_lacks.
      apply Forall2_each_left in Hall. rewrite List.Forall_forall in Hall.
      destruct (Hall t Hin) as [t' Ht]. rewrite Hraise in Ht. discriminate Ht.
    - intros Hall. apply process_tasks_total.
      eapply List.Forall_impl; [|exact Hall]. cbn beta. intros t Ht.
      destruct (process_task_cases t) as [[Hlacks _]|(score & Hscore & _)];
        [contradiction|eexists; exact Hscore]. }
  split; [|exact Hreturns].
  intros e. split.
  - intros H. apply process_tasks_raises in H.
    apply List.Exists_exists in H as (t & Hin & Ht).
    destruct (process_task_cases t) as [[Hlacks Hraise]|(score & Hscore & _)].
    + rewrite Hraise in Ht. injection Ht as <-. split; [reflexivity|].
      apply List.Exists_exists. now exists t.
    + rewrite Hscore in Ht. discriminate Ht.
  - intros [-> Hex].
    assert (Hnot : ~ exists enhanced,
                     process_results_file json_loads results = Return enhanced).
    { intros Hall%Hreturns. apply List.Exists_exists in Hex as (t & Hin & Ht).
      rewrite List.Forall_forall in Hall. exact (Hall t Hin Ht). }
    clear Hreturns.
    destruct (process_results_file json_loads results) as [enhanced|e] eqn:H.
    + exfalso. apply Hnot. now exists enhanced.
    + unfold process_results_file in H. apply process_tasks_raises in H.
      apply List.Exists_exists in H as (t & Hin & Ht).
      destruct (process_task_cases t)
        as [[Hlacks Hraise]|(score & Hscore & _)].
      * rewrite Hraise in Ht. now injection Ht as <-.
      * rewrite Hscore in Ht. discriminate Ht.
Qed.

End RepoResults.

Lemma enhanced_results_follow_the_entries_witness :
  exists enhanced,
    RepoDriver.process_results_file example_loads example_results
    = Return enhanced /\
    Forall2
      (fun t t' =>
         exists score,
           t' = RepoDriver.set_partial_score t score /\
           0 <= score <= 1 /\
           (RepoDriver.is_error_result t = true \/
            (exists key,
               RepoDriver.expected_actions_of t = Raise (KeyError key)) ->
            score = 0) /\
           (forall expected trajectory,
              RepoDriver.is_error_result t = false ->
              RepoDriver.expected_actions_of t = Return expected ->
              RepoDriver.traj t = Some trajectory ->
              score
              = Repo.calculate_partial_score expected
                  (Repo.extract_tool_calls example_loads trajectory)))
      example_results enhanced.
Proof.
  eexists. split; [vm_compute; reflexivity|].
  apply (enhanced_results_follow_the_entries example_loads).
  vm_compute; reflexivity.
Defined.

Lemma missing_trajectory_is_the_only_failure_witness :
  RepoDriver.process_results_file example_loads
    [{| RepoDriver.task_id := Some 0%Z;
        RepoDriver.reward := Some 0;
        RepoDriver.info :=
          Some {| RepoDriver.error := Some "timeout";
                  RepoDriver.task := None |};
        RepoDriver.traj := None;
        RepoDriver.partial_score := None |};
     {| RepoDriver.task_id := Some 1%Z;
        RepoDriver.reward := Some 1;
        RepoDriver.info :=
          Some {| RepoDriver.error := None;
                  RepoDriver.task :=
                    Some {| RepoDriver.actions :=
                              Some [{| name := "get_user";
                                       kwargs := [] |}] |} |};
        RepoDriver.traj := None;
        RepoDriver.partial_score := None |}]
  = Raise (KeyError "traj").
Proof.
  apply (proj1 (missing_trajectory_is_the_only_failure example_loads _)).
  split; [reflexivity|].
  apply Exists_cons_tl, Exists_cons_hd.
  split; [reflexivity|]. split; [|reflexivity].
  eexists. reflexivity.
Defined.

(** ** The statistics of the tau-bench-repo script *)

Section Comprehensions.

Context {A B : Type}.

Variable f : A -> result B.

Lemma comprehension_returns (l : list A) :
  forall ys, comprehension f l = Return ys ->
             Forall2 (fun x y => f x = Return y) l ys.
Proof.
  induction l as [|x rest IH]; intros ys.
  - cbn. intros [= <-]. constructor.
  - cbn [comprehension].
    destruct (f x) as [y|e] eqn:Hx; cbn [bind]; [|discriminate].
    destruct (comprehension f rest) as [ys'|e]; cbn [bind]; [|discriminate].
    intros [= <-]. constructor; [exact Hx|now apply IH].
Qed.

Lemma comprehension_raises (l : list A) (e : exn) :
  comprehension f l = Raise e -> Exists (fun x => f x = Raise e) l.
Proof.
  induction l as [|x rest IH].
  - discriminate.
  - cbn [comprehension].
    destruct (f x) as [y|e'] eqn:Hx; cbn [bind].
    + destruct (comprehension f rest) as [ys'|e']; cbn [bind];
        [discriminate|].
      intros [= <-]. apply Exists_cons_tl. now apply IH.
    + intros [= <-]. now apply Exists_cons_hd.
Qed.

Lemma comprehension_total (l : list A) :
  Forall (fun x => exists y, f x = Return y) l ->
  exists ys, comprehension f l = Return ys.
Proof.
  induction l as [|x rest IH]; intros Hall.
  - now eexists.
  - apply Forall_cons_1 in Hall as [[y Hx] Hrest].
    destruct (IH Hrest) as [ys Hys].
    exists (y :: ys). cbn [comprehension]. now rewrite Hx, Hys.
Qed.

End Comprehensions.

Lemma fold_left_Zadd (l : list Z) (start : Z) :
  fold_left Z.add l start = (start + fold_left Z.add l 0)%Z.
Proof.
  revert start. induction l as [|x l IH]; intros start; cbn [fold_left].
  - lia.
  - rewrite IH, (IH (0 + x)%Z). lia.
Qed.

Lemma count_of_cons (p : Q -> bool) (s : Q) (scores : list Q) :
  count_of p (s :: scores)
  = ((if p s then 1 else 0) + count_of p scores)%Z.
Proof.
  unfold count_of. cbn [List.filter].
  destruct (p s); [|lia].
  cbn [map fold_left]. rewrite fold_left_Zadd. lia.
Qed.

Lemma count_of_bounds (p : Q -> bool) (scores : list Q) :
  (0 <= count_of p scores <= Z.of_nat (length scores))%Z.
Proof.
  induction scores as [|s scores IH].
  - cbn. lia.
  - rewrite count_of_cons. cbn [length]. destruct (p s); lia.
Qed.

(** A score that is not negative falls in one bin of the distribution, or
    it is a perfect score. *)
Lemma score_in_one_bin (s : Q) :
  0 <= s ->
  (fold_right Z.add 0
     (map (fun bin : Q * Q =>
             if Qle_bool (fst bin) s && py_lt s (snd bin) then 1 else 0)
          RepoDriver.bins)
   + (if Qle_bool 1 s then 1 else 0))%Z = 1%Z.
Proof.
  intros Hs. unfold RepoDriver.bins, py_lt. cbn [map fold_right fst snd].
  destruct (Qle_bool 0 s) eqn:H0;
    [|apply not_true_iff_false in H0; rewrite Qle_bool_iff in H0; lra].
  destruct (Qle_bool (2 # 10) s) eqn:H2;
  destruct (Qle_bool (4 # 10) s) eqn:H4;
  destruct (Qle_bool (6 # 10) s) eqn:H6;
  destruct (Qle_bool (8 # 10) s) eqn:H8;
  destruct (Qle_bool 1 s) eqn:H1;
  cbn [andb negb]; try reflexivity; exfalso;
  repeat match goal with
         | H : Qle_bool _ _ = true |- _ => apply Qle_bool_iff in H
         | H : Qle_bool _ _ = false |- _ =>
             apply not_true_iff_false in H; rewrite Qle_bool_iff in H
         end; lra.
Qed.

Lemma distribution_counts (partial_scores : list Q) :
  map (fun line : Q * Q * Z * Q => snd (fst line))
      (map (RepoDriver.bin_line partial_scores) RepoDriver.bins)
  = map (fun bin : Q * Q =>
           count_of (fun s => Qle_bool (fst bin) s && py_lt s (snd bin))
                    partial_scores)
        RepoDriver.bins.
Proof.
  reflexivity.
Qed.

(** The bins and the perfect scores count every score that is not
    negative once. *)
Lemma bins_count_every_score (partial_scores : list Q) :
  Forall (fun s => 0 <= s) partial_scores ->
  (fold_right Z.add 0
     (map (fun bin : Q * Q =>
             count_of (fun s => Qle_bool (fst bin) s && py_lt s (snd bin))
                      partial_scores)
          RepoDriver.bins)
   + count_of (fun s => Qle_bool 1 s) partial_scores)%Z
  = Z.of_nat (length partial_scores).
Proof.
  induction 1 as [|s scores Hs _ IH].
  - reflexivity.
  - pose proof (score_in_one_bin s Hs) as Hone.
    revert IH Hone. unfold RepoDriver.bins.
    cbn [map fold_right fst snd length]. rewrite !count_of_cons.
    lia.
Qed.

Section Extremes.

Lemma py_min_loop_lower (others : list Q) :
  forall first,
  fold_left py_min others first <= first /\
  Forall (fun s => fold_left py_min others first <= s) others.
Proof.
  induction others as [|s others IH]; intros first; cbn [fold_left].
  - split; [lra|constructor].
  - destruct (IH (py_min first s)) as [Hfirst Hothers].
    assert (Hmin : py_min first s <= first /\ py_min first s <= s).
    { unfold py_min. destruct (Qle_bool first s) eqn:E.
      - apply Qle_bool_iff in E. lra.
      - apply not_true_iff_false in E. rewrite Qle_bool_iff in E. lra. }
    split; [lra|]. constructor; [lra|exact Hothers].
Qed.

Lemma py_max_loop_higher (others : list Q) :
  forall first,
  first <= fold_left py_max others first /\
  Forall (fun s => s <= fold_left py_max others first) others.
Proof.
  induction others as [|s others IH]; intros first; cbn [fold_left].
  - split; [lra|constructor].
  - destruct (IH (py_max first s)) as [Hfirst Hothers].
    assert (Hmax : first <= py_max first s /\ s <= py_max first s).
    { unfold py_max. destruct (Qle_bool s first) eqn:E.
      - apply Qle_bool_iff in E. lra.
      - apply not_true_iff_false in E. rewrite Qle_bool_iff in E. lra. }
    split; [lra|]. constructor; [lra|exact Hothers].
Qed.

Lemma py_min_loop_member (others : list Q) :
  forall first, In (fold_left py_min others first) (first :: others).
Proof.
  induction others as [|s others IH]; intros first; cbn [fold_left].
  - now left.
  - destruct (IH (py_min first s)) as [H|H].
    + unfold py_min in H at 1. destruct (Qle_bool first s).
      * left. exact H.
      * right. left. exact H.
    + right. right. exact H.
Qed.

Lemma py_max_loop_member (others : list Q) :
  forall first, In (fold_left py_max others first) (first :: others).
Proof.
  induction others as [|s others IH]; intros first; cbn [fold_left].
  - now left.
  - destruct (IH (py_max first s)) as [H|H].
    + unfold py_max in H at 1. destruct (Qle_bool s first).
      * left. exact H.
      * right. left. exact H.
    + right. right. exact H.
Qed.

End Extremes.

Section Statistics.

Import RepoDriver.

Lemma subscript_returns {A : Type} (key : string) (field : option A) (a : A) :
  subscript key field = Return a -> field = Some a.
Proof.
  destruct field; cbn; [now intros [= ->]|discriminate].
Qed.

Lemma subscript_raises {A : Type} (key : string) (field : option A) (e : exn) :
  subscript key field = Raise e -> field = None /\ e = KeyError key.
Proof.
  destruct field; cbn; [discriminate|now intros [= <-]].
Qed.

(** A comprehension of lookups returns the values of the fields, or raises
    the [KeyError] of the key at an entry that lacks it. *)
Lemma lookups_cases {A : Type} (key : string)
    (field : result_entry -> option A) (results : list result_entry) :
  (exists values,
     comprehension (fun r => subscript key (field r)) results = Return values /\
     map field results = map Some values) \/
  (comprehension (fun r => subscript key (field r)) results
   = Raise (KeyError key) /\
   Exists (fun r => field r = None) results).
Proof.
  destruct (comprehension (fun r => subscript key (field r)) results)
    as [values|e] eqn:H.
  - left. exists values. split; [reflexivity|].
    apply comprehension_returns in H.
    induction H as [|r y rest ys Hr _ IH]; [reflexivity|].
    cbn [map]. apply subscript_returns in Hr. now rewrite Hr, IH.
  - right. apply comprehension_raises in H.
    apply List.Exists_exists in H as (r & Hin & Hr).
    apply subscript_raises in Hr as [Hnone ->]. split; [reflexivity|].
    apply List.Exists_exists. now exists r.
Qed.

Lemma fields_present {A : Type} (field : result_entry -> option A)
    (results : list result_entry) (values : list A) :
  map field results = map Some values ->
  length values = length results /\
  Forall (fun r => field r <> None) results.
Proof.
  intros H. split.
  - apply (f_equal (@length _)) in H. now rewrite !length_map in H.
  - revert values H. induction results as [|r rest IH]; intros values H.
    + constructor.
    + destruct values as [|v values]; [discriminate|].
      cbn [map] in H. injection H as Hr Hrest.
      constructor; [congruence|now apply (IH values)].
Qed.

Lemma present_and_absent {A : Type} (field : result_entry -> option A)
    (results : list result_entry) :
  Forall (fun r => field r <> None) results ->
  Exists (fun r => field r = None) results -> False.
Proof.
  intros Hall Hex. apply List.Exists_exists in Hex as (r & Hin & Hr).
  rewrite List.Forall_forall in Hall. exact (Hall r Hin Hr).
Qed.

(** The report on a group of cases returns, or raises the [KeyError] of
    [task_id] at a case that lacks it. *)
Lemma report_cases_cases (cases : list (result_entry * (Q * Q))) :
  (exists report, report_cases cases = Return report) \/
  (report_cases cases = Raise (KeyError "task_id") /\
   Exists (fun case => task_id (fst case) = None) cases).
Proof.
  unfold report_cases. destruct (is_empty cases); [left; now eexists|].
  destruct (comprehension _ (firstn 3 cases)) as [shown|e] eqn:H; cbn [bind].
  - left. now eexists.
  - right. apply comprehension_raises in H.
    apply List.Exists_exists in H as (case & Hin & Hcase).
    destruct (task_id (fst case)) as [id|] eqn:Hid; [discriminate|].
    cbn in Hcase. injection Hcase as <-. split; [reflexivity|].
    apply List.Exists_exists. exists case. split; [|exact Hid].
    rewrite <- (firstn_skipn 3 cases). apply in_or_app. now left.
Qed.

Lemma selected_cases_lack_task_id (p : result_entry * (Q * Q) -> bool)
    (results : list result_entry) (scores : list (Q * Q)) :
  Exists (fun case => task_id (fst case) = None)
         (List.filter p (combine results scores)) ->
  Exists (fun r => task_id r = None) results.
Proof.
  intros H. apply List.Exists_exists in H as ([r score] & Hin & Hr).
  apply List.filter_In in Hin as [Hin _]. apply in_combine_l in Hin.
  apply List.Exists_exists. now exists r.
Qed.

(** How [print_statistics] ends, case by case, and the figures that it
    prints. *)
Lemma print_statistics_cases (results : list result_entry) :
  (print_statistics results = Raises (KeyError "reward") /\
   Exists (fun r => reward r = None) results) \/
  (print_statistics results = Raises (KeyError "partial_score") /\
   Forall (fun r => reward r <> None) results /\
   Exists (fun r => partial_score r = None) results) \/
  (print_statistics results = RaisesZeroDivisionError /\ results = []) \/
  (print_statistics results = Raises (KeyError "task_id") /\
   results <> [] /\
   Forall (fun r => reward r <> None) results /\
   Forall (fun r => partial_score r <> None) results /\
   Exists (fun r => task_id r = None) results) \/
  (exists s first others,
     print_statistics results = Prints s /\
     results <> [] /\
     Forall (fun r => reward r <> None) results /\
     map partial_score results = map Some (first :: others) /\
     total_tasks s = length results /\
     distribution s = map (bin_line (first :: others)) bins /\
     perfect s = count_of (fun score => Qle_bool 1 score) (first :: others) /\
     partial_average s
     = Improvements.sum (first :: others) / len (first :: others) /\
     partial_min s = fold_left py_min others first /\
     partial_max s = fold_left py_max others first).
Proof.
  unfold print_statistics.
  destruct (lookups_cases "reward" reward results)
    as [(binary_scores & -> & Hbinary)|[-> Hex]]; [|now left].
  right. apply fields_present in Hbinary as [_ Hrewards].
  destruct (lookups_cases "partial_score" partial_score results)
    as [(partial_scores & -> & Hpartial)|[-> Hex]]; [|now left].
  right. pose proof (fields_present _ _ _ Hpartial) as [Hlen Hpartials].
  destruct partial_scores as [|first others].
  { left. split; [reflexivity|]. now destruct results. }
  right.
  assert (Hnonempty : results <> []) by (intros ->; discriminate Hlen).
  match goal with
  | |- context [report_cases ?cases] =>
      destruct (report_cases_cases cases) as [[high_report ->]|[-> Hex]]
  end.
  - match goal with
    | |- context [report_cases ?cases] =>
        destruct (report_cases_cases cases) as [[low_report ->]|[-> Hex]]
    end.
    + right. eexists _, first, others.
      split; [reflexivity|]. cbn.
      repeat (split; [first [assumption|reflexivity]|]). reflexivity.
    + left. split; [reflexivity|]. repeat (split; [assumption|]).
      eapply selected_cases_lack_task_id, Hex.
  - left. split; [reflexivity|]. repeat (split; [assumption|]).
    eapply selected_cases_lack_task_id, Hex.
Qed.

(** X26. In the distribution that [print_statistics] prints, the bins are
    those from 0 to 1 in steps of 0.2 and, when no partial score is
    negative, every task is counted once: the counts of the five bins and
    the number of perfect scores add up to the number of tasks. *)
Theorem distribution_counts_every_task (results : list result_entry)
    (s : statistics) :
  print_statistics results = Prints s ->
  (forall r score,
     In r results -> partial_score r = Some score -> 0 <= score) ->
  map (fun line : Q * Q * Z * Q => fst (fst line)) (distribution s) = bins /\
  (fold_right Z.add 0
     (map (fun line : Q * Q * Z * Q => snd (fst line)) (distribution s))
   + perfect s)%Z
  = Z.of_nat (length results).
Proof.
  intros Hprints Hscores.
  destruct (print_statistics_cases results)
    as [[H _]|[[H _]|[[H _]|[[H _]|
        (s' & first & others & H & _ & _ & Hpartial & _ & Hd & Hp & _)]]]];
    rewrite H in Hprints; try discriminate Hprints.
  injection Hprints as <-. rewrite Hd, Hp. split; [reflexivity|].
  rewrite distribution_counts, bins_count_every_score.
  - apply (f_equal (@length _)) in Hpartial.
    rewrite !length_map in Hpartial. now rewrite Hpartial.
  - apply List.Forall_forall. intros score Hin.
    apply (in_map Some) in Hin. rewrite <- Hpartial in Hin.
    apply in_map_iff in Hin as (r & Hr & Hin). exact (Hscores r score Hin Hr).
Qed.

(** X27. [print_statistics] raises [ZeroDivisionError] exactly on the empty
    list of results, and the [KeyError] of [reward] exactly when an entry
    has no reward.  Any other exception that it raises is the [KeyError] of
    [partial_score] or of [task_id], and on a list that is not empty, of
    entries with a task id, a reward and a partial score, it prints all its
    figures. *)
Theorem statistics_failures (results : list result_entry) :
  (print_statistics results = RaisesZeroDivisionError <-> results = []) /\
  (print_statistics results = Raises (KeyError "reward") <->
   Exists (fun r => reward r = None) results) /\
  (forall e,
     print_statistics results = Raises e ->
     e = KeyError "reward" \/ e = KeyError "partial_score" \/
     e = KeyError "task_id") /\
  (results <> [] ->
   Forall (fun r => task_id r <> None /\ reward r <> None /\
                    partial_score r <> None) results ->
   exists s, print_statistics results = Prints s).
Proof.
  destruct (print_statistics_cases results)
    as [[H Hex]|[[H (Hrewards & Hex)]|[[H ->]|
        [(H & Hnonempty & Hrewards & Hpartials & Hex)|
         (s & first & others & H & Hnonempty & Hrewards & _)]]]];
    rewrite H.
  - split; [split; [discriminate|]|split; [now split|split]].
    + intros ->. inversion Hex.
    + intros e [= <-]. now left.
    + intros _ Hall. exfalso.
      eapply (present_and_absent reward), Hex.
      eapply List.Forall_impl, Hall. now intros r (_ & Hr & _).
  - split; [split; [discriminate|]|split; [split|split]].
    + intros ->. inversion Hex.
    + discriminate.
    + intros Hex'. exfalso. exact (present_and_absent reward _ Hrewards Hex').
    + intros e [= <-]. right. now left.
    + intros _ Hall. exfalso.
      eapply (present_and_absent partial_score), Hex.
      eapply List.Forall_impl, Hall. now intros r (_ & _ & Hr).
  - split; [now split|split; [split|split]].
    + discriminate.
    + intros Hex. inversion Hex.
    + discriminate.
    + intros Hnonempty. now contradiction Hnonempty.
  - split; [split; [discriminate|contradiction]|split; [split|split]].
    + discriminate.
    + intros Hex'. exfalso. exact (present_and_absent reward _ Hrewards Hex').
    + intros e [= <-]. right. now right.
    + intros _ Hall. exfalso.
      eapply (present_and_absent task_id), Hex.
      eapply List.Forall_impl, Hall. now intros r (Hr & _).
  - split; [split; [discriminate|contradiction]|split; [split|split]].
    + discriminate.
    + intros Hex'. exfalso. exact (present_and_absent reward _ Hrewards Hex').
    + discriminate.
    + intros _ _. now exists s.
Qed.

End Statistics.

Lemma distribution_counts_every_task_witness :
  exists s,
    RepoDriver.print_statistics
      (map (fun t => RepoDriver.set_partial_score t (1 # 2)) example_results)
    = RepoDriver.Prints s /\
    map (fun line : Q * Q * Z * Q => fst (fst line)) (RepoDriver.distribution s)
    = RepoDriver.bins /\
    (fold_right Z.add 0
       (map (fun line : Q * Q * Z * Q => snd (fst line))
            (RepoDriver.distribution s))
     + RepoDriver.perfect s)%Z
    = 2%Z.
Proof.
  eexists. split; [vm_compute; reflexivity|].
  apply (distribution_counts_every_task
           (map (fun t => RepoDriver.set_partial_score t (1 # 2))
                example_results)).
  - vm_compute; reflexivity.
  - intros r score Hin Hr.
    destruct Hin as [<-|[<-|[]]]; injection Hr as <-; lra.
Defined.

Lemma statistics_failures_witness :
  RepoDriver.print_statistics [] = RepoDriver.RaisesZeroDivisionError /\
  RepoDriver.print_statistics
    [{| RepoDriver.task_id := Some 7%Z;
        RepoDriver.reward := None;
        RepoDriver.info := None;
        RepoDriver.traj := None;
        RepoDriver.partial_score := Some 1 |}]
  = RepoDriver.Raises (KeyError "reward") /\
  exists s,
    RepoDriver.print_statistics
      (map (fun t => RepoDriver.set_partial_score t (1 # 2)) example_results)
    = RepoDriver.Prints s.
Proof.
  split; [|split].
  - apply (proj1 (statistics_failures [])). reflexivity.
  - apply (proj1 (proj2 (statistics_failures _))).
    apply Exists_cons_hd. reflexivity.
  - apply (proj2 (proj2 (proj2 (statistics_failures _)))).
    + discriminate.
    + repeat constructor; discriminate.
Defined.

Section StatisticsOfEnhancedResults.

Import RepoDriver.

Variable json_loads : string -> option dict.

(** X28. On the enhanced results that [process_results_file] returns for a
    list of entries that is not empty, each with a task id and a reward,
    [print_statistics] raises nothing and prints its figures: every task is
    counted once by the five bins and the perfect scores, and the minimum,
    the maximum and the average of the partial scores lie between 0 and 1,
    the minimum below the maximum. *)
Theorem statistics_of_enhanced_results (results enhanced : list result_entry) :
  process_results_file json_loads results = Return enhanced ->
  results <> [] ->
  Forall (fun r => task_id r <> None /\ reward r <> None) results ->
  exists s,
    print_statistics enhanced = Prints s /\
    total_tasks s = length results /\
    (fold_right Z.add 0
       (map (fun line : Q * Q * Z * Q => snd (fst line)) (distribution s))
     + perfect s)%Z
    = Z.of_nat (length results) /\
    0 <= partial_min s /\
    partial_min s <= partial_max s /\
    partial_max s <= 1 /\
    0 <= partial_average s <= 1.
Proof.
  intros Hfile Hnonempty Hfields.
  apply process_tasks_scores in Hfile.
  assert (Hlen : length enhanced = length results)
    by (symmetry; exact (Forall2_length _ _ _ Hfile)).
  assert (Henhanced :
            Forall (fun r => task_id r <> None /\ reward r <> None /\
                             exists score, partial_score r = Some score /\
                                           0 <= score <= 1) enhanced).
  { clear Hlen Hnonempty. induction Hfile as [|t t' rest rest' Ht _ IH].
    - constructor.
    - apply Forall_cons_1 in Hfields as [[Hid Hreward] Hrest].
      constructor; [|now apply IH].
      destruct Ht as (score & -> & Hscore). cbn.
      split; [exact Hid|]. split; [exact Hreward|]. now exists score. }
  assert (Hids : Forall (fun r => task_id r <> None) enhanced)
    by (eapply List.Forall_impl, Henhanced; now intros r (H & _)).
  assert (Hrewards : Forall (fun r => reward r <> None) enhanced)
    by (eapply List.Forall_impl, Henhanced; now intros r (_ & H & _)).
  assert (Hpartials : Forall (fun r => partial_score r <> None) enhanced).
  { eapply List.Forall_impl, Henhanced.
    intros r (_ & _ & score & H & _). congruence. }
  destruct (print_statistics_cases enhanced)
    as [[_ Hex]|[(_ & _ & Hex)|[[_ ->]|[(_ & _ & _ & _ & Hex)|
        (s & first & others & H & _ & _ & Hscores & Htotal & Hd & Hp &
         Havg & Hmin & Hmax)]]]].
  - exfalso. exact (present_and_absent reward _ Hrewards Hex).
  - exfalso. exact (present_and_absent partial_score _ Hpartials Hex).
  - exfalso. destruct results; [now apply Hnonempty|discriminate Hlen].
  - exfalso. exact (present_and_absent task_id _ Hids Hex).
  - assert (Hbounds : Forall (fun score => 0 <= score <= 1) (first :: others)).
    { apply List.Forall_forall. intros score Hin.
      apply (in_map Some) in Hin. rewrite <- Hscores in Hin.
      apply in_map_iff in Hin as (r & Hr & Hin).
      rewrite List.Forall_forall in Henhanced.
      destruct (Henhanced r Hin) as (_ & _ & score' & Hr' & Hscore).
      congruence. }
    exists s. split; [exact H|]. split; [congruence|].
    rewrite Hd, Hp, Havg, Hmin, Hmax. split.
    { rewrite distribution_counts, bins_count_every_score.
      - apply (f_equal (@length _)) in Hscores.
        rewrite !length_map in Hscores. congruence.
      - eapply List.Forall_impl, Hbounds. cbn beta. intros score Hs. lra. }
    rewrite List.Forall_forall in Hbounds.
    pose proof (Hbounds _ (py_min_loop_member others first)) as Hlo.
    pose proof (Hbounds _ (py_max_loop_member others first)) as Hhi.
    pose proof (proj1 (py_min_loop_lower others first)) as Hmin'.
    pose proof (proj1 (py_max_loop_higher others first)) as Hmax'.
    assert (Havg' : 0 <= Improvements.sum (first :: others)
                         / len (first :: others) <= 1).
    { rewrite sum_is_sum_of.
      apply proportion_bounds; [now apply len_pos|].
      pose proof (sum_of_bounds (fun score : Q => score) (first :: others)
                    Hbounds) as Hsum.
      now rewrite map_id in Hsum. }
    repeat split; lra.
Qed.

End StatisticsOfEnhancedResults.

Lemma statistics_of_enhanced_results_witness :
  exists enhanced s,
    RepoDriver.process_results_file example_loads example_results
    = Return enhanced /\
    RepoDriver.print_statistics enhanced = RepoDriver.Prints s /\
    RepoDriver.total_tasks s = 2%nat /\
    (fold_right Z.add 0
       (map (fun line : Q * Q * Z * Q => snd (fst line))
            (RepoDriver.distribution s))
     + RepoDriver.perfect s)%Z
    = 2%Z /\
    0 <= RepoDriver.partial_min s /\
    RepoDriver.partial_min s <= RepoDriver.partial_max s /\
    RepoDriver.partial_max s <= 1 /\
    0 <= RepoDriver.partial_average s <= 1.
Proof.
  assert (Hfile :
            { enhanced |
              RepoDriver.process_results_file example_loads example_results
              = Return enhanced })
    by (eexists; vm_compute; reflexivity).
  destruct Hfile as [enhanced Hfile]. exists enhanced.
  destruct (statistics_of_enhanced_results example_loads example_results
              enhanced Hfile)
    as (s & Hs).
  - discriminate.
  - repeat constructor; discriminate.
  - exists s. split; [exact Hfile|exact Hs].
Defined.

(** ** The driver of the improvements script *)

Section ProcessFile.

Import Improvements ImprovementsDriver.

Variable json_loads : string -> option dict.
Variable py_repr : value -> string.

(** What the loop body does with one entry. *)
Lemma improvements_process_task_cases (verbose : bool) (st : totals)
    (t : task_entry) :
  (can_be_scored json_loads py_repr t /\
   exists r,
     is_result_of json_loads py_repr verbose t r /\
     process_task json_loads py_repr verbose st t
     = Return (fst (fst (fst st)) ++ [r],
               snd (fst (fst st)) + original_reward r,
               snd (fst st) + tool_call_reward r,
               snd st + partial_reward r)) \/
  (~ can_be_scored json_loads py_repr t /\
   exists e, process_task json_loads py_repr verbose st t = Raise e).
Proof.
  destruct st as [[[results total_original] total_tool] total_partial].
  unfold process_task, can_be_scored, is_result_of. cbn [fst snd].
  destruct (task_id t) as [id|]; cbn [subscript bind];
    [|right; split; [now intros (H & _)|now eexists]].
  destruct (reward t) as [original|]; cbn [subscript bind];
    [|right; split; [now intros (_ & H & _)|now eexists]].
  destruct (calculate_tool_call_reward json_loads py_repr (scored_fields t))
    as [[tool details]|e]; cbn [bind].
  - left. split; [split; [discriminate|split; [discriminate|now eexists]]|].
    exists {| result_task_id := id;
              original_reward := original;
              tool_call_reward := tool;
              partial_reward := (1 # 2) * original + (1 # 2) * tool;
              detailed := if verbose then Some details else None |}.
    split; [|reflexivity]. cbn.
    split; [reflexivity|]. split; [reflexivity|].
    split; [now exists details|reflexivity].
  - right. split; [|now eexists]. intros (_ & _ & rewarded & H).
    discriminate H.
Qed.

(** The loop appends one result per entry and adds the rewards of the
    results to the totals. *)
Lemma improvements_process_tasks_returns (verbose : bool)
    (data : list task_entry) :
  forall st st' : totals,
  process_tasks json_loads py_repr verbose data st = Return st' ->
  exists rows,
    Forall2 (is_result_of json_loads py_repr verbose) data rows /\
    fst (fst (fst st')) = fst (fst (fst st)) ++ rows /\
    snd (fst (fst st'))
    == snd (fst (fst st)) + sum_of (map original_reward rows) /\
    snd (fst st') == snd (fst st) + sum_of (map tool_call_reward rows) /\
    snd st' == snd st + sum_of (map partial_reward rows).
Proof.
  induction data as [|t rest IH]; intros st st'.
  - cbn. intros [= <-]. exists []. split; [constructor|].
    rewrite app_nil_r. unfold sum_of. cbn. repeat split; lra.
  - cbn [process_tasks].
    destruct (improvements_process_task_cases verbose st t)
      as [(_ & r & Hr & ->)|(_ & e & ->)]; cbn [bind]; [|discriminate].
    intros H. destruct (IH _ _ H) as (rows & Hrows & Hres & Ho & Ht & Hp).
    cbn [fst snd] in Hres, Ho, Ht, Hp.
    exists (r :: rows). split; [now constructor|].
    split; [now rewrite Hres, <- app_assoc|].
    unfold sum_of in *. cbn [map fold_right]. repeat split; lra.
Qed.

Lemma improvements_process_tasks_total (verbose : bool)
    (data : list task_entry) :
  forall st : totals,
  (exists st', process_tasks json_loads py_repr verbose data st = Return st')
  <-> Forall (can_be_scored json_loads py_repr) data.
Proof.
  induction data as [|t rest IH]; intros st.
  - split; [constructor|]. intros _. now eexists.
  - cbn [process_tasks].
    destruct (improvements_process_task_cases verbose st t)
      as [(Hcan & r & _ & ->)|(Hcannot & e & ->)]; cbn [bind].
    + rewrite IH. split.
      * intros Hrest. now constructor.
      * intros Hall. now apply Forall_cons_1 in Hall as [_ Hrest].
    + split.
      * intros [st' H]. discriminate H.
      * intros Hall. apply Forall_cons_1 in Hall as [Hcan _]. contradiction.
Qed.

(** What the loop body raises, and at which entry the loop raises. *)
Lemma improvements_process_task_raises (verbose : bool) (st : totals)
    (t : task_entry) (e : exn) :
  process_task json_loads py_repr verbose st t = Raise e ->
  (task_id t = None /\ e = KeyError "task_id") \/
  (task_id t <> None /\ reward t = None /\ e = KeyError "reward") \/
  (task_id t <> None /\ reward t <> None /\
   calculate_tool_call_reward json_loads py_repr (scored_fields t) = Raise e).
Proof.
  destruct st as [[[results total_original] total_tool] total_partial].
  unfold process_task.
  destruct (task_id t) as [id|]; cbn [subscript bind];
    [|intros [= <-]; now left].
  destruct (reward t) as [original|]; cbn [subscript bind];
    [|intros [= <-]; right; left; easy].
  destruct (calculate_tool_call_reward json_loads py_repr (scored_fields t))
    as [[tool details]|e']; cbn [bind]; [discriminate|].
  intros [= <-]. right. right. easy.
Qed.

Lemma improvements_process_tasks_raises (verbose : bool)
    (data : list task_entry) (e : exn) :
  forall st : totals,
  process_tasks json_loads py_repr verbose data st = Raise e ->
  exists earlier t later st',
    data = earlier ++ t :: later /\
    Forall (can_be_scored json_loads py_repr) earlier /\
    process_task json_loads py_repr verbose st' t = Raise e.
Proof.
  induction data as [|t rest IH]; intros st; [discriminate|].
  cbn [process_tasks].
  destruct (improvements_process_task_cases verbose st t)
    as [(Hcan & r & _ & Ht)|(_ & e' & Ht)]; rewrite Ht; cbn [bind].
  - intros H. destruct (IH _ H) as (earlier & t' & later & st' & -> & Hall & Ht').
    exists (t :: earlier), t', later, st'.
    split; [reflexivity|]. split; [now constructor|exact Ht'].
  - intros [= <-]. exists [], t, rest, st.
    split; [reflexivity|]. split; [constructor|exact Ht].
Qed.

(** The summary that [process_file] returns, from the final state of the
    loop. *)
Lemma process_file_returns (file_path : string) (data : list task_entry)
    (verbose : bool) (s : summary) :
  process_file json_loads py_repr file_path data verbose = Return s ->
  Forall2 (is_result_of json_loads py_repr verbose) data (tasks s) /\
  file s = file_path /\
  num_tasks s = Z.of_nat (length data) /\
  exists total_original total_tool total_partial,
    total_original == sum_of (map original_reward (tasks s)) /\
    total_tool == sum_of (map tool_call_reward (tasks s)) /\
    total_partial == sum_of (map partial_reward (tasks s)) /\
    avg_original_reward s
    = (if (0 <? num_tasks s)%Z then total_original / inject_Z (num_tasks s)
       else 0) /\
    avg_tool_call_reward s
    = (if (0 <? num_tasks s)%Z then total_tool / inject_Z (num_tasks s)
       else 0) /\
    avg_partial_reward s
    = (if (0 <? num_tasks s)%Z then total_partial / inject_Z (num_tasks s)
       else 0).
Proof.
  unfold process_file.
  destruct (process_tasks json_loads py_repr verbose data ([], 0, 0, 0))
    as [[[[results total_original] total_tool] total_partial]|e] eqn:Hloop;
    cbn [bind]; [|discriminate].
  intros [= <-]. cbn [tasks file num_tasks avg_original_reward
                      avg_tool_call_reward avg_partial_reward].
  destruct (improvements_process_tasks_returns _ _ _ _ Hloop)
    as (rows & Hrows & Hres & Ho & Ht & Hp).
  cbn [fst snd app] in Hres, Ho, Ht, Hp. subst rows.
  split; [exact Hrows|]. split; [reflexivity|].
  split; [now rewrite (Forall2_length _ _ _ Hrows)|].
  exists total_original, total_tool, total_partial.
  repeat split; lra.
Qed.

(** X29. [process_file] returns exactly when every entry of the file has a
    task id and a reward and its tool-call reward can be calculated.  The
    summary then names the file, counts the entries, and holds one result
    per entry in the order of the file: the task id and the reward of the
    entry, its tool-call reward, which lies between 0 and 1, with the
    details in verbose mode only, and the partial reward, half the reward
    plus half the tool-call reward, which lies between 0 and 1 when the
    reward does.  When it raises, it is at the first entry that cannot be
    scored: the [KeyError] of [task_id], or else of [reward], when the
    entry lacks that key, and otherwise the exception that
    [calculate_tool_call_reward] raises for the entry. *)
Theorem process_file_results (file_path : string) (data : list task_entry)
    (verbose : bool) :
  ((exists s,
      process_file json_loads py_repr file_path data verbose = Return s)
   <-> Forall (can_be_scored json_loads py_repr) data) /\
  (forall s,
     process_file json_loads py_repr file_path data verbose = Return s ->
     file s = file_path /\
     num_tasks s = Z.of_nat (length data) /\
     Forall2
       (fun t r =>
          is_result_of json_loads py_repr verbose t r /\
          0 <= tool_call_reward r <= 1 /\
          (0 <= original_reward r <= 1 -> 0 <= partial_reward r <= 1))
       data (tasks s)) /\
  (forall e,
     process_file json_loads py_repr file_path data verbose = Raise e ->
     exists earlier t later,
       data = earlier ++ t :: later /\
       Forall (can_be_scored json_loads py_repr) earlier /\
       ((task_id t = None /\ e = KeyError "task_id") \/
        (task_id t <> None /\ reward t = None /\ e = KeyError "reward") \/
        (task_id t <> None /\ reward t <> None /\
         calculate_tool_call_reward json_loads py_repr (scored_fields t)
         = Raise e))).
Proof.
  split; [|split].
  - rewrite <- (improvements_process_tasks_total verbose data ([], 0, 0, 0)).
    unfold process_file. split.
    + intros [s H].
      destruct (process_tasks json_loads py_repr verbose data ([], 0, 0, 0))
        as [st'|e]; [now exists st'|discriminate H].
    + intros [st' ->]. cbn [bind].
      destruct st' as [[[results total_original] total_tool] total_partial].
      now eexists.
  - intros s H. apply process_file_returns in H as (Hrows & Hfile & Hnum & _).
    split; [exact Hfile|]. split; [exact Hnum|].
    eapply Forall2_impl; [exact Hrows|]. cbn beta. intros t r Hr.
    split; [exact Hr|].
    destruct Hr as (_ & _ & (details & Hreward & _) & Hpartial).
    apply calculate_tool_call_reward_bounds in Hreward.
    split; [exact Hreward|]. rewrite Hpartial. intros Horiginal. lra.
  - intros e. unfold process_file.
    destruct (process_tasks json_loads py_repr verbose data ([], 0, 0, 0))
      as [[[[results total_original] total_tool] total_partial]|e'] eqn:Hloop;
      cbn [bind]; [discriminate|].
    intros [= <-].
    destruct (improvements_process_tasks_raises _ _ _ _ Hloop)
      as (earlier & t & later & st' & Hdata & Hall & Ht).
    exists earlier, t, later. split; [exact Hdata|]. split; [exact Hall|].
    exact (improvements_process_task_raises _ _ _ _ Ht).
Qed.

(** X30. In the summary that [process_file] returns, the three averages
    are the means of the rewards, of the tool-call rewards and of the
    partial rewards of the results, and they are 0 for a file without
    entries, where nothing is divided.  The average tool-call reward lies
    between 0 and 1, and so do the average reward and the average partial
    reward when every reward of the file does. *)
Theorem process_file_averages (file_path : string) (data : list task_entry)
    (verbose : bool) (s : summary) :
  process_file json_loads py_repr file_path data verbose = Return s ->
  (is_empty data = false ->
   avg_original_reward s == mean (map original_reward (tasks s)) /\
   avg_tool_call_reward s == mean (map tool_call_reward (tasks s)) /\
   avg_partial_reward s == mean (map partial_reward (tasks s))) /\
  (is_empty data = true ->
   avg_original_reward s = 0 /\ avg_tool_call_reward s = 0 /\
   avg_partial_reward s = 0) /\
  0 <= avg_tool_call_reward s <= 1 /\
  ((forall t original,
      In t data -> reward t = Some original -> 0 <= original <= 1) ->
   0 <= avg_original_reward s <= 1 /\ 0 <= avg_partial_reward s <= 1).
Proof.
  intros H.
  apply process_file_returns in H
    as (Hrows & _ & Hnum & total_original & total_tool & total_partial &
        Ho & Ht & Hp & -> & -> & ->).
  assert (Hlen : forall g : task_result -> Q,
            len (map g (tasks s)) == inject_Z (num_tasks s)).
  { intros g. unfold len.
    now rewrite length_map, <- (Forall2_length _ _ _ Hrows), Hnum. }
  assert (Hlen' : len (tasks s) == inject_Z (num_tasks s)).
  { unfold len. now rewrite <- (Forall2_length _ _ _ Hrows), Hnum. }
  assert (Hrewards : forall r, In r (tasks s) -> 0 <= tool_call_reward r <= 1).
  { clear -Hrows. induction Hrows as [|t r rest rows Hr _ IH].
    - intros r [].
    - intros r' [<-|Hin]; [|now apply IH].
      destruct Hr as (_ & _ & (details & Hreward & _) & _).
      exact (calculate_tool_call_reward_bounds _ _ _ _ _ Hreward). }
  assert (Htool : 0 <= total_tool <= inject_Z (num_tasks s)).
  { apply (sum_of_bounds tool_call_reward) in Hrewards.
    rewrite Hlen' in Hrewards. rewrite Ht. exact Hrewards. }
  assert (Hothers :
            (forall t original,
               In t data -> reward t = Some original -> 0 <= original <= 1) ->
            0 <= total_original <= inject_Z (num_tasks s) /\
            0 <= total_partial <= inject_Z (num_tasks s)).
  { intros Hdata.
    assert (Horiginals : forall r, In r (tasks s) ->
                           0 <= original_reward r <= 1 /\
                           0 <= partial_reward r <= 1).
    { clear -Hrows Hdata. induction Hrows as [|t r rest rows Hr _ IH].
      - intros r [].
      - intros r' [<-|Hin].
        + destruct Hr as (_ & Hreward & (details & Htool & _) & Hpartial).
          pose proof (Hdata t _ (or_introl eq_refl) Hreward) as Ho.
          apply calculate_tool_call_reward_bounds in Htool.
          rewrite Hpartial. split; lra.
        + apply IH; [|exact Hin]. intros t' o Hin'. apply Hdata. now right. }
    assert (Hos : forall r, In r (tasks s) -> 0 <= original_reward r <= 1)
      by (intros r Hr; now apply Horiginals).
    assert (Hps : forall r, In r (tasks s) -> 0 <= partial_reward r <= 1)
      by (intros r Hr; now apply Horiginals).
    apply (sum_of_bounds original_reward) in Hos.
    apply (sum_of_bounds partial_reward) in Hps.
    rewrite Hlen' in Hos, Hps. rewrite Ho, Hp. split; assumption. }
  destruct data as [|t rest].
  - rewrite Hnum. cbn [length]. change (0 <? Z.of_nat 0)%Z with false.
    cbv iota.
    split; [discriminate|]. split; [now intros _|].
    split; [lra|]. intros _. split; lra.
  - assert (Hpos : (0 < num_tasks s)%Z) by (rewrite Hnum; cbn; lia).
    apply Z.ltb_lt in Hpos as Hltb. rewrite Hltb.
    assert (Hq : 0 < inject_Z (num_tasks s))
      by (change 0 with (inject_Z 0); now rewrite <- Zlt_Qlt).
    split; [intros _|split; [discriminate|split]].
    + unfold mean. rewrite !Hlen, Ho, Ht, Hp. repeat split; reflexivity.
    + apply proportion_bounds; [exact Hq|exact Htool].
    + intros Hdata. destruct (Hothers Hdata) as [Hob Hpb].
      split; apply proportion_bounds; assumption.
Qed.

End ProcessFile.

Lemma process_file_results_witness :
  exists s,
    ImprovementsDriver.process_file example_loads example_repr "results.json"
      example_data true
    = Return s /\
    ImprovementsDriver.file s = "results.json" /\
    ImprovementsDriver.num_tasks s = 2%Z /\
    Forall2
      (fun t r =>
         is_result_of example_loads example_repr true t r /\
         0 <= ImprovementsDriver.tool_call_reward r <= 1 /\
         (0 <= ImprovementsDriver.original_reward r <= 1 ->
          0 <= ImprovementsDriver.partial_reward r <= 1))
      example_data (ImprovementsDriver.tasks s).
Proof.
  assert (Hfile :
            { s |
              ImprovementsDriver.process_file example_loads example_repr
                "results.json" example_data true
              = Return s })
    by (eexists; vm_compute; reflexivity).
  destruct Hfile as [s Hs]. exists s. split; [exact Hs|].
  exact (proj1 (proj2 (process_file_results example_loads example_repr
                         "results.json" example_data true)) s Hs).
Defined.

Lemma process_file_averages_witness :
  exists s,
    ImprovementsDriver.process_file example_loads example_repr "results.json"
      example_data false
    = Return s /\
    (ImprovementsDriver.avg_original_reward s
     == mean (map ImprovementsDriver.original_reward
                  (ImprovementsDriver.tasks s)) /\
     ImprovementsDriver.avg_tool_call_reward s
     == mean (map ImprovementsDriver.tool_call_reward
                  (ImprovementsDriver.tasks s)) /\
     ImprovementsDriver.avg_partial_reward s
     == mean (map ImprovementsDriver.partial_reward
                  (ImprovementsDriver.tasks s))) /\
    0 <= ImprovementsDriver.avg_tool_call_reward s <= 1 /\
    ImprovementsDriver.avg_tool_call_reward s == 1 # 2.
Proof.
  assert (Hfile :
            { s |
              ImprovementsDriver.process_file example_loads example_repr
                "results.json" example_data false
              = Return s /\
              ImprovementsDriver.avg_tool_call_reward s == 1 # 2 })
    by (eexists; split; vm_compute; reflexivity).
  destruct Hfile as [s [Hs Hhalf]]. exists s. split; [exact Hs|].
  destruct (process_file_averages example_loads example_repr
              "results.json" example_data false s Hs)
    as (Hmeans & _ & Hbounds & _).
  split; [now apply Hmeans|]. split; [exact Hbounds|exact Hhalf].
Defined.
